(** * Torq: a shallow embedding of [src/utils.py], [src/config.py] and
    [src/torq.py], and the properties of the orchestration spec checked
    against it.

    Python values are modelled as follows: [bytes] as [string], [str] as
    the [string] of its UTF-8 encoding, [int] as [Z], [None]-able values
    as [option], lists as [list], a [dict] whose key order matters as an
    association list, exceptions as the [exn] type with the [result] sum.
    Effects (printing, external processes, device calls, the clock, the
    child's output stream, signals) are threaded through an explicit
    world. *)

From Stdlib Require Import ZArith List String Ascii Bool Arith Lia.
From Stdlib Require Import DecimalString DecimalNat FinFun.
Import ListNotations.

Local Open Scope string_scope.
Local Open Scope Z_scope.

(** ** Python runtime: exceptions, results, the effect monad *)
Module Py.

Inductive exn : Type :=
| CalledProcessError (returncode : Z) (cmd : string)
| Exception (msg : string)
| ValueError (msg : string)
| KeyError (key : string)
| AttributeError (msg : string)
| TypeError (msg : string)
| KeyboardInterrupt
| SystemExit
| UnicodeDecodeError
| TimeoutExpired (cmd : string)
| FileNotFoundError (msg : string)
| IndexError (msg : string).

Inductive result (A : Type) : Type :=
| Return (a : A)
| Raise (e : exn).
Arguments Return {A} a.
Arguments Raise {A} e.

Definition raised {A} (r : result A) : bool :=
  match r with Return _ => false | Raise _ => true end.

(** What a run leaves behind, in program order. *)
Inductive Event : Type :=
| EvPrint (text : string)
| EvRun (args : string)
| EvDevice (method : string)
| EvSleep (ms : Z).

Inductive PathKind : Type := RegularFile | Directory.

(** The host: what each path names, and the events so far (newest last). *)
Record World : Type := mkWorld {
  fs : string -> option PathKind;
  trace : list Event
}.

Definition M (A : Type) : Type := World -> result A * World.

Definition ret {A} (a : A) : M A := fun w => (Return a, w).
Definition raise {A} (e : exn) : M A := fun w => (Raise e, w).
Definition bind {A B} (m : M A) (k : A -> M B) : M B :=
  fun w => match m w with
           | (Return a, w') => k a w'
           | (Raise e, w') => (Raise e, w')
           end.

Definition emit (e : Event) : M unit :=
  fun w => (Return tt, mkWorld (fs w) (trace w ++ [e])%list).

(** [print(text)] *)
Definition print (text : string) : M unit := emit (EvPrint text).

(** [os.path.exists], [os.path.isfile], [os.path.isdir] *)
Definition os_path_exists (w : World) (p : string) : bool :=
  match fs w p with Some _ => true | None => false end.
Definition os_path_isfile (w : World) (p : string) : bool :=
  match fs w p with Some RegularFile => true | _ => false end.
Definition os_path_isdir (w : World) (p : string) : bool :=
  match fs w p with Some Directory => true | _ => false end.

(** [x in xs] on a list of ints *)
Definition int_in (x : Z) (xs : list Z) : bool := existsb (Z.eqb x) xs.

(** [sep.join(parts)] *)
Fixpoint join (sep : string) (parts : list string) : string :=
  match parts with
  | [] => ""
  | [p] => p
  | p :: rest => p ++ sep ++ join sep rest
  end.

(** [pattern in line] on strings: [pattern] occurs at some offset. *)
Fixpoint contains (pattern line : string) : bool :=
  String.prefix pattern line ||
  match line with
  | EmptyString => false
  | String _ rest => contains pattern rest
  end.

(** [bytes.decode()].  A [str] is held as the bytes of its UTF-8
    encoding, so decoding checks that the bytes are well-formed UTF-8 (no
    stray or missing continuation byte, no overlong form, no surrogate,
    nothing above U+10FFFF) and hands them back. *)
Definition byte_in (lo hi : nat) (b : ascii) : bool :=
  let n := nat_of_ascii b in ((lo <=? n) && (n <=? hi))%nat.

Definition continuation (b : ascii) : bool := byte_in 128 191 b.

Definition three_byte_start (b0 b1 : ascii) : bool :=
  byte_in 224 224 b0 && byte_in 160 191 b1
  || byte_in 225 236 b0 && continuation b1
  || byte_in 237 237 b0 && byte_in 128 159 b1
  || byte_in 238 239 b0 && continuation b1.

Definition four_byte_start (b0 b1 : ascii) : bool :=
  byte_in 240 240 b0 && byte_in 144 191 b1
  || byte_in 241 243 b0 && continuation b1
  || byte_in 244 244 b0 && byte_in 128 143 b1.

Fixpoint utf8_valid (s : string) : bool :=
  match s with
  | EmptyString => true
  | String b0 rest =>
      if byte_in 0 127 b0 then utf8_valid rest
      else
        match rest with
        | EmptyString => false
        | String b1 rest1 =>
            if byte_in 194 223 b0 then continuation b1 && utf8_valid rest1
            else
              match rest1 with
              | EmptyString => false
              | String b2 rest2 =>
                  if three_byte_start b0 b1 then
                    continuation b2 && utf8_valid rest2
                  else
                    match rest2 with
                    | EmptyString => false
                    | String b3 rest3 =>
                        four_byte_start b0 b1 && continuation b2
                        && continuation b3 && utf8_valid rest3
                    end
              end
        end
  end.

Definition decode (line : string) : option string :=
  if utf8_valid line then Some line else None.

End Py.

Declare Scope py_scope.
Delimit Scope py_scope with py.
Notation "x <- m ;; k" := (Py.bind m (fun x => k))
  (at level 61, m at next level, right associativity) : py_scope.
Notation "m ;;; k" := (Py.bind m (fun _ => k))
  (at level 61, right associativity) : py_scope.

(** ** [src/utils.py] *)
Module Utils.
Import Py.
Local Open Scope py_scope.

(** [subprocess.CompletedProcess] *)
Record CompletedProcess : Type := mkCompleted {
  cp_args : string;
  returncode : Z;
  cp_stdout : option string;
  cp_stderr : option string
}.

(** The keyword arguments [subprocess.run] receives from [run_subprocess]. *)
Record RunKw : Type := mkRunKw {
  kw_shell : bool;
  kw_capture_output : bool;
  kw_stdin : option string;
  kw_input : option string;
  kw_stdout : option string;
  kw_stderr : option string;
  kw_cwd : option string;
  kw_timeout : option Z;
  kw_check : bool;
  kw_encoding : option string;
  kw_errors : option string;
  kw_text : option bool;
  kw_env : option (list (string * string));
  kw_universal_newlines : option bool
}.

(** The keyword arguments of [run_subprocess], with their defaults. *)
Record Kwargs : Type := mkKwargs {
  ignore_returncodes : list Z;
  stdin : option string;
  input : option string;
  stdout : option string;
  stderr : option string;
  capture_output : bool;
  shell : bool;
  cwd : option string;
  timeout : option Z;
  encoding : option string;
  errors : option string;
  text : option bool;
  env : option (list (string * string));
  universal_newlines : option bool
}.

Definition defaults : Kwargs :=
  mkKwargs [] None None None None false false None None None None None None
           None.

(** [shell=True], everything else at its default. *)
Definition shell_True : Kwargs :=
  mkKwargs [] None None None None false true None None None None None None
           None.

(** [subprocess.run] on a host where it does not raise: the child runs to
    completion on the host's files and hands back its [CompletedProcess].
    [UtilsFull] has the call with its exceptions; this is the case
    [UtilsFull.completes] of it. *)
Definition Subprocess : Type :=
  string -> RunKw -> (string -> option PathKind) ->
  CompletedProcess * (string -> option PathKind).

(** What [run_subprocess] passes on to [subprocess.run]: its own keyword
    arguments but [ignore_returncodes], and [check=False]. *)
Definition run_kw (kw : Kwargs) : RunKw :=
  mkRunKw (shell kw) (capture_output kw) (stdin kw) (input kw) (stdout kw)
          (stderr kw) (cwd kw) (timeout kw) false (encoding kw) (errors kw)
          (text kw) (env kw) (universal_newlines kw).

Section Host.

Variable subprocess_run : Subprocess.

(** [os.path.expanduser] *)
Variable expanduser : string -> string.

(** [path_exists(path)] *)
Definition path_exists (path : option string) : M bool :=
  fun w =>
    match path with
    | None => (Return false, w)
    | Some p => (Return (os_path_exists w (expanduser p)), w)
    end.

(** [dir_exists(path)] *)
Definition dir_exists (path : option string) : M bool :=
  fun w =>
    match path with
    | None => (Return false, w)
    | Some p => (Return (os_path_isdir w (expanduser p)), w)
    end.

(** [output.check_returncode()] *)
Definition check_returncode (output : CompletedProcess) : M unit :=
  if returncode output =? 0 then ret tt
  else raise (CalledProcessError (returncode output) (cp_args output)).

(** The call of [subprocess.run] inside [run_subprocess], on such a
    host. *)
Definition call_run (args : string) (kw : Kwargs) : M CompletedProcess :=
  fun w =>
    let '(output, fs') := subprocess_run args (run_kw kw) (fs w) in
    (Return output, mkWorld fs' (trace w ++ [EvRun args])%list).

(** [run_subprocess(args, **kw)] on such a host;
    [UtilsFullFacts.run_subprocess_completes] relates it to the general
    [UtilsFull.run_subprocess]. *)
Definition run_subprocess (args : string) (kw : Kwargs)
  : M (option CompletedProcess) :=
  output <- call_run args kw ;;
  (if negb (returncode output =? 0)
      && negb (int_in (returncode output) (ignore_returncodes kw))
   then check_returncode output
   else ret tt) ;;;
  if capture_output kw then ret (Some output) else ret None.

Definition binary_cache_cmd (scripts raw symbols : string) : string :=
  "export PYTHONPATH=$PYTHONPATH:" ++ scripts ++ " && " ++ scripts
    ++ "/binary_cache_builder.py -i " ++ raw ++ " -lib " ++ symbols.

Definition gecko_cmd (scripts raw gecko : string) : string :=
  "export PYTHONPATH=$PYTHONPATH:" ++ scripts ++ " && " ++ scripts
    ++ "/gecko_profile_generator.py -i " ++ raw ++ " > " ++ gecko.

(** [convert_simpleperf_to_gecko(scripts_path, host_raw_trace_filename,
    host_gecko_trace_filename, symbols)] *)
Definition convert_simpleperf_to_gecko
    (scripts_path host_raw_trace_filename host_gecko_trace_filename
       symbols : string) : M unit :=
  let expanded_symbols := expanduser symbols in
  let expanded_scripts_path := expanduser scripts_path in
  print ("Building binary cache, please wait. If no samples were recorded,"
           ++ " the trace will be empty.") ;;;
  run_subprocess
    (binary_cache_cmd expanded_scripts_path host_raw_trace_filename
                      expanded_symbols) shell_True ;;;
  run_subprocess
    (gecko_cmd expanded_scripts_path host_raw_trace_filename
               host_gecko_trace_filename) shell_True ;;;
  exists_ <- path_exists (Some host_gecko_trace_filename) ;;
  if negb exists_ then raise (Exception "Gecko file was not created.")
  else ret tt.

End Host.

(** *** [wait_for_output]: the clock and the child's output stream *)

(** [time.time()]: the [k]-th call returns [reading k].  Times are counted
    in clock ticks; the loop only subtracts and compares them. *)
Record Clock : Type := mkClock {
  reading : nat -> Z;
  asked : nat
}.

Definition time_time (c : Clock) : Z * Clock :=
  (reading c (asked c), mkClock (reading c) (S (asked c))).

(** The child process: the [k]-th call of [process.stdout.readline()]
    returns the bytes [out_line k]; the call blocks until the child has
    written them and returns at wall-clock time [out_at k].
    [popen_stderr] is the [process.stderr] attribute. *)
Record Popen : Type := mkPopen {
  out_line : nat -> string;
  out_at : nat -> Z;
  reads : nat;
  popen_stderr : option string
}.

Definition readline (p : Popen) : string * Popen :=
  (out_line p (reads p),
   mkPopen (out_line p) (out_at p) (S (reads p)) (popen_stderr p)).

Definition set_stderr (v : option string) (p : Popen) : Popen :=
  mkPopen (out_line p) (out_at p) (reads p) v.

(** The [while] loop of [wait_for_output] on a child whose lines are all
    valid UTF-8, so that [line.decode()] hands the line back; one unit of
    fuel per test of the loop condition.  [UtilsFull.wait_loop] is the
    loop on any bytes, and [UtilsFullFacts.wait_loop_decodable] relates
    the two. *)
Fixpoint wait_loop (fuel : nat) (pattern : string) (start_time timeout : Z)
    (c : Clock) (process : Popen) : option (bool * Clock * Popen) :=
  match fuel with
  | O => None
  | S fuel' =>
      let '(now, c1) := time_time c in
      if now - start_time <? timeout then
        let '(line, process1) := readline process in
        if contains pattern line then
          Some (false, c1, set_stderr None process1)
        else wait_loop fuel' pattern start_time timeout c1 process1
      else Some (true, c1, process)
  end.

(** [wait_for_output(pattern, process, timeout)] on such a child *)
Definition wait_for_output (fuel : nat) (pattern : string) (c : Clock)
    (process : Popen) (timeout : Z) : option (bool * Clock * Popen) :=
  let '(start_time, c0) := time_time c in
  wait_loop fuel pattern start_time timeout c0 process.

(** The [i]-th test of the loop condition after the call, and the line
    the [i]-th [readline] of the call returns. *)
Definition within_budget (c : Clock) (timeout : Z) (i : nat) : bool :=
  reading c (S (asked c) + i) - reading c (asked c) <? timeout.

Definition ith_line (process : Popen) (i : nat) : string :=
  out_line process (reads process + i).

(** The loop gets as far as reading line [i]: the loop condition held at
    each of its tests up to the [i]-th. *)
Definition read_started (c : Clock) (timeout : Z) (i : nat) : Prop :=
  forall j, (j <= i)%nat -> within_budget c timeout j = true.

(** Line [i] is observed, that is its [readline] returns, before the
    budget has elapsed on the wall clock. *)
Definition observed_within_budget (c : Clock) (process : Popen)
    (timeout : Z) (i : nat) : Prop :=
  out_at process (reads process + i) - reading c (asked c) < timeout.

(** The clock and the stream agree: the [i]-th [readline] returns between
    the test of the loop condition before it and the one after it. *)
Definition in_step (c : Clock) (process : Popen) : Prop :=
  forall i,
    reading c (S (asked c) + i) <= out_at process (reads process + i)
    /\ out_at process (reads process + i) <= reading c (S (S (asked c)) + i).

(** *** [wait_for_process_or_ctrl_c]: signals and the blocking wait *)

Inductive Signal : Type := SIGINT | SIGTERM | SIGCHLD | SIGWINCH.

Definition Signal_eqb (a b : Signal) : bool :=
  match a, b with
  | SIGINT, SIGINT | SIGTERM, SIGTERM
  | SIGCHLD, SIGCHLD | SIGWINCH, SIGWINCH => true
  | _, _ => false
  end.

(** What is registered for a signal: the interpreter's default, or the
    closure [signal_handler] that [wait_for_process_or_ctrl_c] defines. *)
Inductive Disposition : Type := SIG_DFL | signal_handler.

Inductive ChildState : Type := Running | Killed | Exited.

(** What the program does, in order. *)
Inductive Action : Type :=
| DoPrint (text : string)
| DoInstall (sig : Signal)
| DoWait
| DoKill.

Record Prog : Type := mkProg {
  handlers : Signal -> Disposition;
  child : ChildState;
  done : list Action
}.

(** What happens around the program while it is blocked in
    [process.wait()]. *)
Inductive Happening : Type :=
| Delivered (sig : Signal)
| ChildExits.

(** How a call ends: it returns, an exception unwinds it, the operating
    system terminates the program, or it is still blocked when the given
    happenings are used up. *)
Inductive Ending : Type :=
| Returns
| Unwinds (e : exn)
| TerminatedBy (sig : Signal)
| Blocked.

Definition act (a : Action) (p : Prog) : Prog :=
  mkProg (handlers p) (child p) (done p ++ [a])%list.

(** [signal.signal(sig, handler)] *)
Definition signal_signal (sig : Signal) (h : Disposition) (p : Prog) : Prog :=
  mkProg (fun s => if Signal_eqb s sig then h else handlers p s)
         (child p) (done p ++ [DoInstall sig])%list.

(** [process.kill()] *)
Definition process_kill (p : Prog) : Prog :=
  mkProg (handlers p)
         (match child p with Running => Killed | st => st end)
         (done p ++ [DoKill])%list.

(** The body of the closure [signal_handler(sig, frame)]: it ends in
    [sys.exit()], which raises [SystemExit]. *)
Definition run_signal_handler (p : Prog) : exn * Prog :=
  let p1 := act (DoPrint "Exiting...") p in
  let p2 := process_kill p1 in
  (SystemExit, p2).

(** [process.wait()]: blocks until the child is gone.  A signal with a
    Python handler runs the handler in the waiting thread; an exception
    raised there unwinds the wait.  With the default disposition SIGINT
    raises [KeyboardInterrupt], SIGTERM terminates the program, and SIGCHLD
    and SIGWINCH are ignored. *)
Fixpoint process_wait (around : list Happening) (p : Prog) : Ending * Prog :=
  match child p with
  | Killed | Exited => (Returns, p)
  | Running =>
      match around with
      | [] => (Blocked, p)
      | ChildExits :: _ => (Returns, mkProg (handlers p) Exited (done p))
      | Delivered sig :: rest =>
          match handlers p sig with
          | signal_handler =>
              let '(e, p') := run_signal_handler p in (Unwinds e, p')
          | SIG_DFL =>
              match sig with
              | SIGINT => (Unwinds KeyboardInterrupt, p)
              | SIGTERM => (TerminatedBy SIGTERM, p)
              | SIGCHLD | SIGWINCH => process_wait rest p
              end
          end
      end
  end.

(** [wait_for_process_or_ctrl_c(process)] *)
Definition wait_for_process_or_ctrl_c (around : list Happening) (p : Prog)
  : Ending * Prog :=
  let p1 := signal_signal SIGINT signal_handler p in
  let p2 := signal_signal SIGTERM signal_handler p1 in
  match process_wait around (act DoWait p2) with
  | (Returns, p3) => (Returns, act (DoPrint "Process was killed.") p3)
  | ending => ending
  end.

End Utils.

(** ** What [src/config.py] and [src/torq.py] import from [src/base.py] *)
Module Base.

(** [ValidationError(message, suggestion)], as [print_error] reads it. *)
Record ValidationError : Type := mkValidationError {
  message : string;
  suggestion : option string
}.

(** The parsed command line ([argparse.Namespace]); an attribute a
    sub-parser does not define, or leaves unset, is [None]. *)
Record Namespace : Type := mkNamespace {
  subcommands : string;
  serial : option (list string);
  config_subcommand : option string;
  config_name : string;
  file_path : option string;
  dur_ms : option Z;
  excluded_ftrace_events : option (list string);
  included_ftrace_events : option (list string);
  trigger_names : option (list string);
  trigger_stop_delay_ms : option (list Z);
  trigger_timeout_ms : option Z;
  trigger_mode : option string;
  runs : option Z;
  profiler : option string;
  between_dur_ms : option Z;
  use_trace_processor : bool;
  (** The remaining attributes that [create_profiler_command] forwards:
      event, out_dir, app, simpleperf_event, perfetto_config, ui,
      from_user, to_user, scripts_path, symbols. *)
  profiler_rest : list (option string)
}.

Definition set_file_path (v : option string) (a : Namespace) : Namespace :=
  mkNamespace (subcommands a) (serial a) (config_subcommand a)
    (config_name a) v (dur_ms a) (excluded_ftrace_events a)
    (included_ftrace_events a) (trigger_names a) (trigger_stop_delay_ms a)
    (trigger_timeout_ms a) (trigger_mode a) (runs a) (profiler a)
    (between_dur_ms a) (use_trace_processor a) (profiler_rest a).

Definition set_runs (v : option Z) (a : Namespace) : Namespace :=
  mkNamespace (subcommands a) (serial a) (config_subcommand a)
    (config_name a) (file_path a) (dur_ms a) (excluded_ftrace_events a)
    (included_ftrace_events a) (trigger_names a) (trigger_stop_delay_ms a)
    (trigger_timeout_ms a) (trigger_mode a) v (profiler a)
    (between_dur_ms a) (use_trace_processor a) (profiler_rest a).

Definition set_profiler (v : option string) (a : Namespace) : Namespace :=
  mkNamespace (subcommands a) (serial a) (config_subcommand a)
    (config_name a) (file_path a) (dur_ms a) (excluded_ftrace_events a)
    (included_ftrace_events a) (trigger_names a) (trigger_stop_delay_ms a)
    (trigger_timeout_ms a) (trigger_mode a) (runs a) v
    (between_dur_ms a) (use_trace_processor a) (profiler_rest a).

(** The result pair [(args, error)] of the [verify_*_args] functions. *)
Definition Verified : Type := option Namespace * option ValidationError.

(** The device as the commands use it: each method is recorded in the
    trace and answers from these fields. *)
Record Device : Type := mkDevice {
  device_serial : option string;
  connection_error : option ValidationError;
  sdk_version : Z
}.

End Base.

(** ** [src/config.py] *)
Module Config.
Import Py Base.
Local Open Scope py_scope.

(** [ConfigCommand]; [get_type()] returns the [type] it was built with. *)
Record ConfigCommand : Type := mkConfigCommand {
  type : string;
  cmd_config_name : option string;
  cmd_file_path : option string;
  cmd_dur_ms : option Z;
  cmd_excluded_ftrace_events : option (list string);
  cmd_included_ftrace_events : option (list string);
  cmd_trigger_names : option (list string);
  cmd_trigger_stop_delay_ms : option (list Z);
  cmd_trigger_timeout_ms : option Z;
  cmd_trigger_mode : option string
}.

Definition get_type (c : ConfigCommand) : string := type c.

(** A predefined config: a function of the command and the SDK version
    that returns the pair [(config, error)]. *)
Definition Builder : Type :=
  ConfigCommand -> Z -> option string * option ValidationError.

(** [device.check_device_connection()], [device.root_device()],
    [device.get_android_sdk_version()] *)
Definition check_device_connection (d : Device)
  : M (option ValidationError) :=
  emit (EvDevice "check_device_connection") ;;; ret (connection_error d).
Definition root_device (d : Device) : M unit :=
  emit (EvDevice "root_device").
Definition get_android_sdk_version (d : Device) : M Z :=
  emit (EvDevice "get_android_sdk_version") ;;; ret (sdk_version d).

(** [str.strip()], [str.split('\n')] and the slice [[2:-2]].  A [str]
    is held as the bytes of its UTF-8 encoding.  Python's white space is
    the ASCII characters 9-13 and 28-32, and U+0085, U+00A0, U+1680,
    U+2000 to U+200A, U+2028, U+2029, U+202F, U+205F and U+3000, here in
    their encodings of two and three bytes. *)
Definition one_byte_space (c : ascii) : bool :=
  let n := nat_of_ascii c in
  ((9 <=? n) && (n <=? 13) || (28 <=? n) && (n <=? 32))%nat.

Definition two_byte_space (b0 b1 : ascii) : bool :=
  byte_in 194 194 b0 && (byte_in 133 133 b1 || byte_in 160 160 b1).

Definition three_byte_space (b0 b1 b2 : ascii) : bool :=
  byte_in 225 225 b0 && byte_in 154 154 b1 && byte_in 128 128 b2
  || byte_in 226 226 b0 && byte_in 128 128 b1
     && (byte_in 128 138 b2 || byte_in 168 169 b2 || byte_in 175 175 b2)
  || byte_in 226 226 b0 && byte_in 129 129 b1 && byte_in 159 159 b2
  || byte_in 227 227 b0 && byte_in 128 128 b1 && byte_in 128 128 b2.

Fixpoint lstrip (s : string) : string :=
  match s with
  | EmptyString => EmptyString
  | String b0 rest =>
      if one_byte_space b0 then lstrip rest
      else
        match rest with
        | EmptyString => s
        | String b1 rest1 =>
            if two_byte_space b0 b1 then lstrip rest1
            else
              match rest1 with
              | EmptyString => s
              | String b2 rest2 =>
                  if three_byte_space b0 b1 b2 then lstrip rest2 else s
              end
        end
  end.

(** Nothing but white space. *)
Definition blank (s : string) : bool :=
  match lstrip s with EmptyString => true | String _ _ => false end.

Fixpoint rstrip (s : string) : string :=
  match s with
  | EmptyString => EmptyString
  | String c rest => if blank s then EmptyString else String c (rstrip rest)
  end.

Definition strip (s : string) : string := rstrip (lstrip s).

Fixpoint split_lines (s : string) : list string :=
  match s with
  | EmptyString => [EmptyString]
  | String c rest =>
      if Ascii.eqb c "010"%char then EmptyString :: split_lines rest
      else match split_lines rest with
           | first :: others => String c first :: others
           | [] => [String c EmptyString]
           end
  end.

Definition slice_2_minus2 {A} (l : list A) : list A :=
  skipn 2 (firstn (List.length l - 2) l).

Definition newline : string := String "010"%char EmptyString.

(** ["%s" % v] for a value that may be [None] *)
Definition str_of (v : option string) : string :=
  match v with Some s => s | None => "None" end.

Section Config.

Variable subprocess_run : Utils.Subprocess.

(** [ANDROID_SDK_VERSION_T], from [src/base.py]. *)
Variable ANDROID_SDK_VERSION_T : Z.

(** [PREDEFINED_PERFETTO_CONFIGS], from [src/config_builder.py]: a dict
    from config name to builder, in insertion order. *)
Variable PREDEFINED_PERFETTO_CONFIGS : list (string * Builder).

(** [verify_trigger_args], from [src/profiler.py]. *)
Variable verify_trigger_args : Namespace -> Verified.

Definition no_subcommand_error : ValidationError :=
  mkValidationError
    ("Command is invalid because torq config cannot be called"
       ++ " without a subcommand.")
    (Some ("Use one of the following subcommands:" ++ newline
             ++ String "009"%char " torq config list" ++ newline
             ++ String "009"%char " torq config show" ++ newline
             ++ String "009"%char " torq config pull" ++ newline)).

Definition invalid_filepath_error (path : string) : ValidationError :=
  mkValidationError
    ("Command is invalid because " ++ path ++ " is not a valid filepath.")
    (Some ("A default filepath can be used if you do not specify a file-path:"
             ++ newline
             ++ String "009"%char " torq pull default to copy to ./default.pbtxt"
             ++ newline
             ++ String "009"%char
                  " torq pull lightweight to copy to ./lightweight.pbtxt"
             ++ newline
             ++ String "009"%char
                  " torq pull memory to copy to ./memory.pbtxt")).

(** The [pull] branch of [verify_config_args]: the updated namespace, or
    the error returned from inside the branch. *)
Definition verify_pull_path (w : World) (args : Namespace)
  : Namespace + ValidationError :=
  match file_path args with
  | None =>
      inl (set_file_path (Some ("./" ++ config_name args ++ ".pbtxt")) args)
  | Some p =>
      if negb (os_path_isfile w p) then inr (invalid_filepath_error p)
      else inl args
  end.

(** [verify_config_args(args)] *)
Definition verify_config_args (w : World) (args : Namespace) : Verified :=
  match config_subcommand args with
  | None => (None, Some no_subcommand_error)
  | Some sub =>
      match (if String.eqb sub "pull" then verify_pull_path w args
             else inl args) with
      | inr error => (None, Some error)
      | inl args1 =>
          if negb (String.eqb sub "list") then
            let args2 := set_runs (Some 1) args1 in
            let args3 := set_profiler (Some "perfetto") args2 in
            verify_trigger_args args3
          else (Some args1, None)
      end
  end.

(** [create_config_command(args)]; ["config " + None] is a [TypeError]. *)
Definition create_config_command (args : Namespace) : M ConfigCommand :=
  match config_subcommand args with
  | None => raise (TypeError "can only concatenate str (not NoneType) to str")
  | Some sub =>
      let type := "config " ++ sub in
      if String.eqb sub "pull" || String.eqb sub "show" then
        ret (mkConfigCommand type (Some (config_name args))
               (if String.eqb sub "pull" then file_path args else None)
               (dur_ms args) (excluded_ftrace_events args)
               (included_ftrace_events args) (trigger_names args)
               (trigger_stop_delay_ms args) (trigger_timeout_ms args)
               (trigger_mode args))
      else
        ret (mkConfigCommand type None None None None None None None None
               None)
  end.

(** [PREDEFINED_PERFETTO_CONFIGS[name]] *)
Fixpoint lookup (name : string) (d : list (string * Builder))
  : option Builder :=
  match d with
  | [] => None
  | (k, b) :: rest => if String.eqb k name then Some b else lookup name rest
  end.

(** [execute_show_or_pull_command(command, device)] *)
Definition execute_show_or_pull_command (command : ConfigCommand)
    (device : Device) : M (option ValidationError) :=
  error <- check_device_connection device ;;
  android_sdk_version <-
    (match error with
     | None => root_device device ;;; get_android_sdk_version device
     | Some _ => ret ANDROID_SDK_VERSION_T
     end) ;;
  match lookup (str_of (cmd_config_name command))
               PREDEFINED_PERFETTO_CONFIGS with
  | None => raise (KeyError (str_of (cmd_config_name command)))
  | Some builder =>
      let '(config, error) := builder command android_sdk_version in
      match error with
      | Some e => ret (Some e)
      | None =>
          if String.eqb (get_type command) "config pull" then
            Utils.run_subprocess subprocess_run
              ("cat > " ++ str_of (cmd_file_path command) ++ " "
                 ++ str_of config) Utils.shell_True ;;;
            ret None
          else
            match config with
            | None => raise (AttributeError "strip")
            | Some text =>
                print (join newline
                         (slice_2_minus2 (split_lines (strip text)))) ;;;
                ret None
            end
      end
  end.

(** [execute_config_command(args, device)] *)
Definition execute_config_command (args : Namespace) (device : Device)
  : M (option ValidationError) :=
  command <- create_config_command args ;;
  let t := get_type command in
  if String.eqb t "config list" then
    print (join newline (map fst PREDEFINED_PERFETTO_CONFIGS)) ;;;
    ret None
  else if String.eqb t "config show" || String.eqb t "config pull" then
    execute_show_or_pull_command command device
  else raise (ValueError "Invalid config subcommand was used.").

End Config.

End Config.

(** ** [src/torq.py] *)
Module Torq.
Import Py Base.
Local Open Scope py_scope.

Definition is_device_event (e : Event) : bool :=
  match e with EvDevice _ => true | _ => false end.

(** The lines [print_error] writes. *)
Definition error_lines (error : ValidationError) : list Event :=
  EvPrint (message error)
    :: match suggestion error with
       | Some s =>
           [EvPrint ("Suggestion:" ++ Config.newline
                       ++ String "009"%char " " ++ s)]
       | None => []
       end.

Section Torq.

(** From [src/profiler.py], [src/open.py] and [src/vm.py]. *)
Variable verify_trigger_args : Namespace -> Verified.
Variable verify_profiler_args : Namespace -> Verified.
Variable verify_open_args : Namespace -> Verified.
Variable VmCommand : Type.
Variable create_vm_command : Namespace -> VmCommand.

(** The commands [get_command] can build. *)
Inductive Command : Type :=
| ProfilerCommand (type : string) (profiler : option string)
    (dur_ms runs between_dur_ms : option Z)
    (excluded_ftrace_events included_ftrace_events : option (list string))
    (rest : list (option string))
| ConfigCommand (c : Config.ConfigCommand)
| OpenCommand (file_path : option string) (use_trace_processor : bool)
| Vm (c : VmCommand).

(** [command.execute(device)], from [src/base.py] and its subclasses. *)
Variable execute : Command -> Device -> M (option ValidationError).

(** [AdbDevice(serial)], from [src/device.py]. *)
Variable AdbDevice : option string -> Device.

(** [verify_args(args)] *)
Definition verify_args (args : Namespace) : M Verified :=
  fun w =>
    let sub := subcommands args in
    if String.eqb sub "profiler" then (Return (verify_profiler_args args), w)
    else if String.eqb sub "config" then
      (Return (Config.verify_config_args verify_trigger_args w args), w)
    else if String.eqb sub "open" then (Return (verify_open_args args), w)
    else if String.eqb sub "vm" then (Return (Some args, None), w)
    else (Raise (ValueError "Invalid command type used"), w).

(** [create_profiler_command(args)] *)
Definition create_profiler_command (args : Namespace) : Command :=
  ProfilerCommand "profiler" (profiler args) (dur_ms args) (runs args)
    (between_dur_ms args) (excluded_ftrace_events args)
    (included_ftrace_events args) (profiler_rest args).

(** [get_command(args)] *)
Definition get_command (args : Namespace) : M Command :=
  let sub := subcommands args in
  if String.eqb sub "profiler" then ret (create_profiler_command args)
  else if String.eqb sub "config" then
    c <- Config.create_config_command args ;; ret (ConfigCommand c)
  else if String.eqb sub "open" then
    ret (OpenCommand (file_path args) (use_trace_processor args))
  else if String.eqb sub "vm" then ret (Vm (create_vm_command args))
  else raise (ValueError "Invalid command type used").

(** [print_error(error)]; [print(a, b)] writes [a], a space and [b]. *)
Definition print_error (error : ValidationError) : M unit :=
  print (message error) ;;;
  match suggestion error with
  | Some s =>
      print ("Suggestion:" ++ Config.newline ++ String "009"%char " " ++ s)
  | None => ret tt
  end.

(** [run()], from the parsed command line on. *)
Definition run (parsed : Namespace) : M unit :=
  v <- verify_args parsed ;;
  match v with
  | (_, Some error) => print_error error
  | (None, None) => raise (AttributeError "subcommands")
  | (Some args, None) =>
      command <- get_command args ;;
      let serial := match serial args with
                    | Some (s :: _) => Some s
                    | _ => None
                    end in
      emit (EvDevice "AdbDevice") ;;;
      let device := AdbDevice serial in
      error <- execute command device ;;
      match error with
      | Some e => print_error e
      | None => ret tt
      end
  end.

End Torq.

End Torq.

(** ** The parts of [src/profiler.py] the spec describes *)
Module Profiler.
Import Py Base.

Definition dur_ms_with_trigger_error : ValidationError :=
  mkValidationError
    ("Command is invalid because --dur-ms cannot be passed if a perfetto"
       ++ " trigger is being set.")
    (Some ("Run command with a --trigger-timeout-ms option instead of"
             ++ " --dur-ms.")).

Definition runs_with_trigger_error : ValidationError :=
  mkValidationError
    ("Command is invalid because the number of runs cannot be more than 1"
       ++ " when including trigger configs.")
    (Some "Run command without the -r option.").

Definition stop_delay_count_error : ValidationError :=
  mkValidationError
    ("Command is invalid because number of trigger names passed is not"
       ++ " equal to number of stop-delay-ms values passed.")
    (Some ("Pass only one stop-delay-ms value to use for all triggers, pass"
             ++ " none to use the default value for all triggers, or pass an"
             ++ " equal number of trigger names and stop-delay-ms values.")).

(** Modelled from the spec: [verify_trigger_args] of [src/profiler.py],
    which is not under [src/].  For a command with trigger names the spec
    (sections 3 and 4.2) asks for three things: no explicit duration, a run
    count of 1, and a number of stop-delay values that is 1 or the number
    of trigger names.  The messages are the ones [tests/torq_unit_test.py]
    expects. *)
Definition verify_trigger_args (args : Namespace) : Verified :=
  match trigger_names args with
  | None => (Some args, None)
  | Some names =>
      match dur_ms args with
      | Some _ => (None, Some dur_ms_with_trigger_error)
      | None =>
          if match runs args with Some r => 1 <? r | None => false end
          then (None, Some runs_with_trigger_error)
          else
            match trigger_stop_delay_ms args with
            | None => (Some args, None)
            | Some delays =>
                if ((List.length delays =? 1)
                    || (List.length delays =? List.length names))%nat
                then (Some args, None)
                else (None, Some stop_delay_count_error)
            end
      end
  end.

(** Modelled from the spec: [verify_profiler_args] of [src/profiler.py],
    which is not under [src/].  Validation comes before the core and
    rejects a command with a [ValidationError] (sections 4.2 and 6); for
    the default sub-command [tests/torq_unit_test.py] and
    [tests/trigger_unit_test.py] show the trigger rules at work, so
    [verify_trigger_args] is part of it.  The checks that are not about
    triggers are not described; they are the parameters [before] and
    [after], whichever side of the trigger rules they are on. *)
Definition verify_profiler_args
    (before : Namespace -> Namespace + ValidationError)
    (after : Namespace -> Verified) (args : Namespace) : Verified :=
  match before args with
  | inr error => (None, Some error)
  | inl args1 =>
      match verify_trigger_args args1 with
      | (Some args2, None) => after args2
      | rejected => rejected
      end
  end.

(** The checks of [verify_profiler_args] that come before the trigger
    rules leave the trigger names and the stop delays as they were
    given. *)
Definition keeps_trigger_options
    (before : Namespace -> Namespace + ValidationError) : Prop :=
  forall a a',
    before a = inl a' ->
    trigger_names a' = trigger_names a
    /\ trigger_stop_delay_ms a' = trigger_stop_delay_ms a.

(** Modelled from the spec: the stop-delay of each trigger of a
    TriggerSpec (section 3): a single value is used for every trigger name,
    otherwise the values go one-to-one with the names.  The code that
    builds the trigger config is not under [src/]. *)
Definition stop_delays (names : list string) (delays : list Z)
  : list (string * Z) :=
  match delays with
  | [d] => map (fun name => (name, d)) names
  | _ => combine names delays
  end.

(** Modelled from the spec: the TriggerSpec (section 3) of a command that
    validation has accepted: the trigger names in order, each with its
    stop delay, the timeout bound and the mode ([None] where the default
    applies).  Without stop-delay values the default value is used for
    all triggers, as the message of the count error says.  There is no
    TriggerSpec without trigger names. *)
Record TriggerSpec : Type := mkTriggerSpec {
  spec_stop_delays : list (string * Z);
  spec_timeout_ms : option Z;
  spec_mode : option string
}.

Definition trigger_spec (DEFAULT_TRIGGER_STOP_DELAY_MS : Z)
    (validated : Namespace) : option TriggerSpec :=
  match trigger_names validated with
  | None => None
  | Some names =>
      Some (mkTriggerSpec
              (stop_delays names
                 (match trigger_stop_delay_ms validated with
                  | Some delays => delays
                  | None => [DEFAULT_TRIGGER_STOP_DELAY_MS]
                  end))
              (trigger_timeout_ms validated) (trigger_mode validated))
  end.

(** Validation, then the TriggerSpec of what it has accepted. *)
Definition validated_trigger_spec (DEFAULT_TRIGGER_STOP_DELAY_MS : Z)
    (args : Namespace) : option TriggerSpec :=
  match verify_trigger_args args with
  | (Some validated, None) =>
      trigger_spec DEFAULT_TRIGGER_STOP_DELAY_MS validated
  | _ => None
  end.

(** [str(n)] for a natural number. *)
Definition decimal (n : nat) : string :=
  NilEmpty.string_of_uint (Nat.to_uint n).

(** Modelled from the spec: artifact naming in [clone] mode (sections 3
    and 6): the session keeps a suffix counter that starts at 0; every
    clone snapshot is named [<base>.<N>] with the current counter, which
    is then incremented.  The code is in [src/profiler.py], not under
    [src/]; [tests/trigger_unit_test.py] expects the first name. *)
Record Session : Type := mkSession {
  base : string;
  next_suffix : nat;
  artifacts : list string
}.

Definition clone_name (base : string) (n : nat) : string :=
  base ++ "." ++ decimal n.

Definition start_session (base : string) : Session := mkSession base 0 [].

Definition clone_fires (s : Session) : Session :=
  mkSession (base s) (S (next_suffix s))
            (artifacts s ++ [clone_name (base s) (next_suffix s)])%list.

Fixpoint fire (times : nat) (s : Session) : Session :=
  match times with
  | O => s
  | S times' => fire times' (clone_fires s)
  end.

(** What the orchestrator does, in order. *)
Inductive Step : Type :=
| Iteration (run : nat)
| InterRunSleep (ms : Z).

(** The outcome of a run (section 3, RunResult). *)
Inductive Outcome : Type :=
| Success
| TimedOut
| DeviceError
| ConversionError.

(** What the session meets: the outcome of each iteration on the device,
    and what each check for user cancellation finds, in the order of the
    checks. *)
Record Environment : Type := mkEnvironment {
  outcome_of : nat -> Outcome;
  cancelled_at : nat -> bool
}.

(** How the session ends: after its last iteration, with the fatal error
    of an iteration, or by cancellation. *)
Inductive SessionEnd : Type :=
| Completed
| Aborted (run : nat)
| Cancelled.

(** The failure policy (section 4.1): a device connectivity or elevation
    failure is fatal to the session, a timed-out trigger wait is not.  A
    conversion failure does not abort the batch either, by section 4.1;
    by section 6 the current design raises it as a raw fault, which ends
    the session: [conversion_raises] says which of the two holds. *)
Definition fatal (conversion_raises : bool) (o : Outcome) : bool :=
  match o with
  | DeviceError => true
  | ConversionError => conversion_raises
  | Success | TimedOut => false
  end.

(** Modelled from the spec: the multi-run loop of the orchestrator
    (section 4.1), whose code is in [src/profiler.py], not under [src/]:
    the iterations [1 .. runs] one after the other, with a sleep of
    [between_dur_ms] between consecutive iterations; cancellation is
    checked before each iteration start and before each sleep (the
    [check]-th check is the next one); a fatal outcome ends the session,
    and no further run executes. *)
Fixpoint run_loop (conversion_raises : bool) (env : Environment)
    (between_dur_ms : Z) (runs run todo check : nat)
  : list Step * SessionEnd :=
  match todo with
  | O => ([], Completed)
  | S todo' =>
      if cancelled_at env check then ([], Cancelled)
      else if fatal conversion_raises (outcome_of env run)
      then ([Iteration run], Aborted run)
      else if (run =? runs)%nat then ([Iteration run], Completed)
      else if cancelled_at env (S check) then ([Iteration run], Cancelled)
      else
        let '(later, ending) :=
          run_loop conversion_raises env between_dur_ms runs (S run) todo'
                   (S (S check)) in
        (Iteration run :: InterRunSleep between_dur_ms :: later, ending)
  end.

Definition execute_runs (conversion_raises : bool) (env : Environment)
    (between_dur_ms : Z) (runs : nat) : list Step * SessionEnd :=
  run_loop conversion_raises env between_dur_ms runs 1 runs 0.

(** What each iteration after the first adds to the session. *)
Definition sleep_then_run (between_dur_ms : Z) (run : nat) : list Step :=
  [InterRunSleep between_dur_ms; Iteration run].

(** The session of [todo] iterations from iteration [run] on, when
    nothing ends it early. *)
Definition full_session (between_dur_ms : Z) (run todo : nat) : list Step :=
  match todo with
  | O => []
  | S todo' =>
      Iteration run
        :: flat_map (sleep_then_run between_dur_ms) (seq (S run) todo')
  end.

Definition is_sleep (s : Step) : bool :=
  match s with InterRunSleep _ => true | Iteration _ => false end.

Definition sleeps (t : list Step) : nat := List.length (filter is_sleep t).

(** Nobody cancels during a session of [runs] iterations, and no
    iteration before the last ends in a fatal error. *)
Definition undisturbed (conversion_raises : bool) (env : Environment)
    (runs : nat) : Prop :=
  (forall check, (check < 2 * runs - 1)%nat -> cancelled_at env check = false)
  /\ (forall run, (1 <= run < runs)%nat ->
        fatal conversion_raises (outcome_of env run) = false).

End Profiler.

(** ** [src/utils.py]: the helpers for addresses and the command line *)
Module UtilsCli.
Import Py Base.

(** [s.rfind(c)] for a one-character [c]: the index of its last
    occurrence, or -1. *)
Fixpoint rfind (c : ascii) (s : string) : Z :=
  match s with
  | EmptyString => -1
  | String a rest =>
      let later := rfind c rest in
      if 0 <=? later then later + 1
      else if Ascii.eqb a c then 0 else -1
  end.

(** [s[n:]] for [n >= 0] *)
Fixpoint slice_from (n : nat) (s : string) : string :=
  match n, s with
  | O, _ => s
  | S n', String _ rest => slice_from n' rest
  | S _, EmptyString => EmptyString
  end.

(** The characters of a string, and the number of arguments that are not
    [None]. *)
Definition chars (s : string) : list ascii := list_ascii_of_string s.

Definition count_given {A : Type} (args : list (option A)) : nat :=
  list_sum
    (map (fun arg => match arg with Some _ => 1%nat | None => 0%nat end)
         args).

(** [extract_port(address)] *)
Definition extract_port (address : string) : option string :=
  let colon_idx := rfind ":"%char address in
  if colon_idx =? -1 then None
  else Some (slice_from (Z.to_nat (colon_idx + 1)) address).

(** [are_mutually_exclusive], on the tuple of its arguments: [sum] counts
    those that are not [None]. *)
Definition are_mutually_exclusive {A : Type} (args : list (option A))
  : bool :=
  let cnt :=
    list_sum
      (map (fun arg => match arg with Some _ => 1%nat | None => 0%nat end)
           args) in
  ((cnt =? 0) || (cnt =? 1))%nat.

(** [is_bazel()], on the value of [sys.path] *)
Definition is_bazel (sys_path : list string) : bool :=
  existsb (contains "bazel-bin/torq.runfiles") sys_path.

(** A [dict] from option string to [nargs]: assignment overwrites the
    value of a key that is there and appends a new key. *)
Fixpoint dict_set (k : string) (v : nat) (d : list (string * nat))
  : list (string * nat) :=
  match d with
  | [] => [(k, v)]
  | (k', v') :: rest =>
      if String.eqb k' k then (k, v) :: rest
      else (k', v') :: dict_set k v rest
  end.

Fixpoint dict_get (k : string) (d : list (string * nat)) : option nat :=
  match d with
  | [] => None
  | (k', v) :: rest => if String.eqb k' k then Some v else dict_get k rest
  end.

(** The parser as [set_default_subparser] reads it, when every [nargs]
    is a natural number: for each action of [self._actions] its option
    strings and its [nargs], and for each action of
    [self._subparsers._actions] the keys of its [_name_parser_map] if it
    is a [_SubParsersAction].  [UtilsFull.Parser] has [nargs] as
    [argparse] has it (any integer, [None] or a string), and
    [SubparserFullFacts.set_default_subparser_natural_nargs] relates the
    two. *)
Record Parser : Type := mkParser {
  actions : list (list string * nat);
  subparsers_actions : list (option (list string))
}.

(** The two [for] loops that fill [global_opts]. *)
Definition global_opts_of (self : Parser) : list (string * nat) :=
  fold_left
    (fun opts action =>
       fold_left (fun opts' opt => dict_set opt (snd action) opts')
                 (fst action) opts)
    (actions self) [].

Definition misplaced_global_error (arg : string) : ValidationError :=
  mkValidationError
    ("Global options like " ++ arg
       ++ " must come before subcommand arguments.")
    (Some "Place global options at the beginning of the command.").

Definition is_help (arg : string) : bool :=
  String.eqb arg "-h" || String.eqb arg "--help".

Inductive Scan : Type :=
| ScanDone (insertion_idx : nat)
| ScanError (error : ValidationError)
| ScanOutOfFuel.

(** The [while idx < len(sys.argv)] loop; one unit of fuel per test of the
    loop condition. *)
Fixpoint scan (fuel : nat) (global_opts : list (string * nat))
    (argv : list string) (idx insertion_idx : nat)
    (is_non_global_option_found : bool) : Scan :=
  match fuel with
  | O => ScanOutOfFuel
  | S fuel' =>
      match nth_error argv idx with
      | None => ScanDone insertion_idx
      | Some arg =>
          match dict_get arg global_opts with
          | Some nargs =>
              if is_non_global_option_found then
                if is_help arg then
                  scan fuel' global_opts argv (idx + (nargs + 1))
                       insertion_idx is_non_global_option_found
                else ScanError (misplaced_global_error arg)
              else
                scan fuel' global_opts argv (idx + nargs + 1)
                     (idx + nargs + 1) is_non_global_option_found
          | None =>
              scan fuel' global_opts argv (idx + 1) insertion_idx true
          end
      end
  end.

(** The [for] loop over [self._subparsers._actions], with its [break]. *)
Definition subparser_found (self : Parser) (argv : list string)
    (insertion_idx : nat) : bool :=
  existsb
    (fun action =>
       match action with
       | None => false
       | Some names =>
           (insertion_idx <? List.length argv)%nat
           && match nth_error argv insertion_idx with
              | Some arg => existsb (String.eqb arg) names
              | None => false
              end
       end)
    (subparsers_actions self).

(** [l.insert(i, x)] for [i >= 0] *)
Definition list_insert {A : Type} (i : nat) (x : A) (l : list A) : list A :=
  firstn i l ++ x :: skipn i l.

(** [set_default_subparser(self, name)] on [sys.argv]: the value returned
    and the list afterwards; [None] if the fuel, one unit more than the
    length of the list, were to run out. *)
Definition set_default_subparser (self : Parser) (name : string)
    (argv : list string) : option (option ValidationError * list string) :=
  match scan (S (List.length argv)) (global_opts_of self) argv 1 1 false with
  | ScanOutOfFuel => None
  | ScanError error => Some (Some error, argv)
  | ScanDone insertion_idx =>
      Some (None,
            if subparser_found self argv insertion_idx then argv
            else list_insert insertion_idx name argv)
  end.

(** Shapes of a command line, for stating what the scan does.  A block
    is a global option followed by as many values as its [nargs]; the
    words after the first plain word are harmless if each is either not a
    global option or a help flag without values. *)
Definition flat_blocks (blocks : list (string * list string)) : list string :=
  List.concat (map (fun block => fst block :: snd block) blocks).

Definition block_ok (global_opts : list (string * nat))
    (block : string * list string) : Prop :=
  dict_get (fst block) global_opts = Some (List.length (snd block)).

Definition harmless (global_opts : list (string * nat)) (arg : string)
  : Prop :=
  dict_get arg global_opts = None
  \/ (is_help arg = true /\ dict_get arg global_opts = Some 0%nat).

Definition starts_plain (global_opts : list (string * nat))
    (rest : list string) : Prop :=
  match rest with
  | [] => True
  | arg :: _ => dict_get arg global_opts = None
  end.

(** [arg] is one of the sub-command names of the parser. *)
Definition is_subcommand (self : Parser) (arg : string) : bool :=
  existsb
    (fun action =>
       match action with
       | None => false
       | Some names => existsb (String.eqb arg) names
       end)
    (subparsers_actions self).

Definition starts_with_subcommand (self : Parser) (rest : list string)
  : bool :=
  match rest with
  | [] => false
  | arg :: _ => is_subcommand self arg
  end.

(** The [nargs] of the last action that lists [arg] among its option
    strings, if there is one. *)
Fixpoint declared_nargs (arg : string) (actions : list (list string * nat))
  : option nat :=
  match actions with
  | [] => None
  | action :: later =>
      match declared_nargs arg later with
      | Some nargs => Some nargs
      | None =>
          if existsb (String.eqb arg) (fst action) then Some (snd action)
          else None
      end
  end.

End UtilsCli.

(** ** [src/utils.py] with the failures of the library calls

    [Utils] and [UtilsCli] take [subprocess.run] as always completing,
    the child's lines as valid UTF-8 and [nargs] as a natural number.
    Here the same functions are embedded without these restrictions:
    [subprocess.run] may raise, [readline] returns bytes that
    [line.decode()] may refuse, and [nargs] is any integer, [None] or a
    string, with Python's indexing from the end for negative indices. *)
Module UtilsFull.
Import Py Base.
Local Open Scope py_scope.

(** [subprocess.run] as the host provides it: it returns the
    [CompletedProcess] of the child or raises ([TimeoutExpired] when
    [timeout] is given and runs out, [FileNotFoundError], [ValueError]),
    and leaves the host's files in some state. *)
Definition SubprocessRun : Type :=
  string -> Utils.RunKw -> (string -> option PathKind) ->
  result Utils.CompletedProcess * (string -> option PathKind).

(** A [subprocess.run] that never raises. *)
Definition completes (run : Utils.Subprocess) : SubprocessRun :=
  fun args kw files =>
    let '(output, files') := run args kw files in (Return output, files').

Section Host.

Variable subprocess_run : SubprocessRun.

(** The call of [subprocess.run] inside [run_subprocess]. *)
Definition call_run (args : string) (kw : Utils.Kwargs)
  : M Utils.CompletedProcess :=
  fun w =>
    let '(outcome, fs') := subprocess_run args (Utils.run_kw kw) (fs w) in
    (outcome, mkWorld fs' (trace w ++ [EvRun args])%list).

(** [run_subprocess(args, **kw)] *)
Definition run_subprocess (args : string) (kw : Utils.Kwargs)
  : M (option Utils.CompletedProcess) :=
  output <- call_run args kw ;;
  (if negb (Utils.returncode output =? 0)
      && negb (int_in (Utils.returncode output)
                      (Utils.ignore_returncodes kw))
   then Utils.check_returncode output
   else ret tt) ;;;
  if Utils.capture_output kw then ret (Some output) else ret None.

(** [os.path.expanduser] *)
Variable expanduser : string -> string.

(** [convert_simpleperf_to_gecko(scripts_path, host_raw_trace_filename,
    host_gecko_trace_filename, symbols)] *)
Definition convert_simpleperf_to_gecko
    (scripts_path host_raw_trace_filename host_gecko_trace_filename
       symbols : string) : M unit :=
  let expanded_symbols := expanduser symbols in
  let expanded_scripts_path := expanduser scripts_path in
  print ("Building binary cache, please wait. If no samples were recorded,"
           ++ " the trace will be empty.") ;;;
  run_subprocess
    (Utils.binary_cache_cmd expanded_scripts_path host_raw_trace_filename
                            expanded_symbols) Utils.shell_True ;;;
  run_subprocess
    (Utils.gecko_cmd expanded_scripts_path host_raw_trace_filename
                     host_gecko_trace_filename) Utils.shell_True ;;;
  exists_ <- Utils.path_exists expanduser (Some host_gecko_trace_filename) ;;
  if negb exists_ then raise (Exception "Gecko file was not created.")
  else ret tt.

End Host.

(** *** [wait_for_output] on the bytes of the child *)

(** The [while] loop of [wait_for_output]; [out_line k] is the [k]-th
    line as the bytes [readline] returns; one unit of fuel per test of
    the loop condition. *)
Fixpoint wait_loop (fuel : nat) (pattern : string) (start_time timeout : Z)
    (c : Utils.Clock) (process : Utils.Popen)
  : option (result bool * Utils.Clock * Utils.Popen) :=
  match fuel with
  | O => None
  | S fuel' =>
      let '(now, c1) := Utils.time_time c in
      if now - start_time <? timeout then
        let '(line, process1) := Utils.readline process in
        match decode line with
        | None => Some (Raise UnicodeDecodeError, c1, process1)
        | Some text =>
            if contains pattern text then
              Some (Return false, c1, Utils.set_stderr None process1)
            else wait_loop fuel' pattern start_time timeout c1 process1
        end
      else Some (Return true, c1, process)
  end.

(** [wait_for_output(pattern, process, timeout)] *)
Definition wait_for_output (fuel : nat) (pattern : string)
    (c : Utils.Clock) (process : Utils.Popen) (timeout : Z)
  : option (result bool * Utils.Clock * Utils.Popen) :=
  let '(start_time, c0) := Utils.time_time c in
  wait_loop fuel pattern start_time timeout c0 process.

(** What the loop body makes of a line: [line.decode()] raises, or the
    decoded text contains the pattern, or it does not. *)
Inductive Verdict : Type := Undecodable | Match | NoMatch.

Definition verdict (pattern line : string) : Verdict :=
  match decode line with
  | None => Undecodable
  | Some text => if contains pattern text then Match else NoMatch
  end.

(** Every line of the child from the next read on is valid UTF-8. *)
Definition decodable (process : Utils.Popen) : Prop :=
  forall i, utf8_valid (Utils.ith_line process i) = true.

(** *** [set_default_subparser] with [nargs] as [argparse] has it *)

(** [action.nargs]: an integer, [None] (the default of [add_argument]),
    or one of the strings ['?'], ['*'], ['+'] and the like. *)
Inductive Nargs : Type :=
| NargsInt (n : Z)
| NargsNone
| NargsStr (s : string).

Definition quote : string := String "034"%char EmptyString.

(** [nargs + 1] and [idx + nargs]: an integer, or the [TypeError] of
    adding an [int] to [None] or to a [str]. *)
Definition nargs_plus_one (nargs : Nargs) : result Z :=
  match nargs with
  | NargsInt n => Return (n + 1)
  | NargsNone =>
      Raise (TypeError
               "unsupported operand type(s) for +: 'NoneType' and 'int'")
  | NargsStr _ =>
      Raise (TypeError ("can only concatenate str (not " ++ quote ++ "int"
                          ++ quote ++ ") to str"))
  end.

Definition idx_plus_nargs (idx : Z) (nargs : Nargs) : result Z :=
  match nargs with
  | NargsInt n => Return (idx + n)
  | NargsNone =>
      Raise (TypeError
               "unsupported operand type(s) for +: 'int' and 'NoneType'")
  | NargsStr _ =>
      Raise (TypeError "unsupported operand type(s) for +: 'int' and 'str'")
  end.

(** [l[i]] for any integer [i]: from the end when [i] is negative,
    [IndexError] outside the list. *)
Definition py_index {A : Type} (l : list A) (i : Z) : option A :=
  let len := Z.of_nat (List.length l) in
  if 0 <=? i then nth_error l (Z.to_nat i)
  else if - len <=? i then nth_error l (Z.to_nat (len + i))
  else None.

(** [l.insert(i, x)] for any integer [i]: a negative index counts from
    the end, and the position is clamped to the list. *)
Definition py_insert {A : Type} (i : Z) (x : A) (l : list A) : list A :=
  let len := Z.of_nat (List.length l) in
  let pos := if 0 <=? i then i else Z.max 0 (len + i) in
  (firstn (Z.to_nat pos) l ++ x :: skipn (Z.to_nat pos) l)%list.

Fixpoint dict_set (k : string) (v : Nargs) (d : list (string * Nargs))
  : list (string * Nargs) :=
  match d with
  | [] => [(k, v)]
  | (k', v') :: rest =>
      if String.eqb k' k then (k, v) :: rest
      else (k', v') :: dict_set k v rest
  end.

Fixpoint dict_get (k : string) (d : list (string * Nargs)) : option Nargs :=
  match d with
  | [] => None
  | (k', v) :: rest => if String.eqb k' k then Some v else dict_get k rest
  end.

(** The parser as [set_default_subparser] reads it: for each action of
    [self._actions] its option strings and its [nargs], and for each
    action of [self._subparsers._actions] the keys of its
    [_name_parser_map] if it is a [_SubParsersAction]. *)
Record Parser : Type := mkParser {
  actions : list (list string * Nargs);
  subparsers_actions : list (option (list string))
}.

(** The two [for] loops that fill [global_opts]. *)
Definition global_opts_of (self : Parser) : list (string * Nargs) :=
  fold_left
    (fun opts action =>
       fold_left (fun opts' opt => dict_set opt (snd action) opts')
                 (fst action) opts)
    (actions self) [].

Inductive Scan : Type :=
| ScanDone (insertion_idx : Z)
| ScanError (error : ValidationError)
| ScanRaise (e : exn)
| ScanOutOfFuel.

(** The [while idx < len(sys.argv)] loop; one unit of fuel per test of the
    loop condition. *)
Fixpoint scan (fuel : nat) (global_opts : list (string * Nargs))
    (argv : list string) (idx insertion_idx : Z)
    (is_non_global_option_found : bool) : Scan :=
  match fuel with
  | O => ScanOutOfFuel
  | S fuel' =>
      if idx <? Z.of_nat (List.length argv) then
        match py_index argv idx with
        | None => ScanRaise (IndexError "list index out of range")
        | Some arg =>
            match dict_get arg global_opts with
            | Some nargs =>
                if is_non_global_option_found then
                  if UtilsCli.is_help arg then
                    match nargs_plus_one nargs with
                    | Raise e => ScanRaise e
                    | Return step =>
                        scan fuel' global_opts argv (idx + step)
                             insertion_idx is_non_global_option_found
                    end
                  else ScanError (UtilsCli.misplaced_global_error arg)
                else
                  match idx_plus_nargs idx nargs with
                  | Raise e => ScanRaise e
                  | Return next =>
                      scan fuel' global_opts argv (next + 1) (next + 1)
                           is_non_global_option_found
                  end
            | None =>
                scan fuel' global_opts argv (idx + 1) insertion_idx true
            end
        end
      else ScanDone insertion_idx
  end.

(** The [for] loop over [self._subparsers._actions], with its [break];
    [sys.argv[insertion_idx]] is evaluated only behind
    [insertion_idx < len(sys.argv)]. *)
Fixpoint find_subparser (acts : list (option (list string)))
    (argv : list string) (insertion_idx : Z) : result bool :=
  match acts with
  | [] => Return false
  | None :: later => find_subparser later argv insertion_idx
  | Some names :: later =>
      if insertion_idx <? Z.of_nat (List.length argv) then
        match py_index argv insertion_idx with
        | None => Raise (IndexError "list index out of range")
        | Some arg =>
            if existsb (String.eqb arg) names then Return true
            else find_subparser later argv insertion_idx
        end
      else find_subparser later argv insertion_idx
  end.

(** [set_default_subparser(self, name)] on [sys.argv]: what the call
    returns or raises and the list afterwards; [None] if the loop has not
    ended within the fuel. *)
Definition set_default_subparser (fuel : nat) (self : Parser)
    (name : string) (argv : list string)
  : option (result (option ValidationError) * list string) :=
  match scan fuel (global_opts_of self) argv 1 1 false with
  | ScanOutOfFuel => None
  | ScanRaise e => Some (Raise e, argv)
  | ScanError error => Some (Return (Some error), argv)
  | ScanDone insertion_idx =>
      match find_subparser (subparsers_actions self) argv insertion_idx with
      | Raise e => Some (Raise e, argv)
      | Return true => Some (Return None, argv)
      | Return false => Some (Return None, py_insert insertion_idx name argv)
      end
  end.

(** The [nargs] of every action that has an option string is an integer
    that is not negative.  (The action of the sub-parsers has no option
    string; its [nargs] is the string ['A...'].) *)
Definition natural (nargs : Nargs) : Prop :=
  match nargs with NargsInt n => 0 <= n | _ => False end.

Definition nargs_natural (self : Parser) : Prop :=
  Forall (fun action => fst action = [] \/ natural (snd action))
         (actions self).

(** A parser whose [nargs] are natural numbers, as [UtilsCli] has it. *)
Definition of_natural_nargs (self : UtilsCli.Parser) : Parser :=
  mkParser
    (map (fun action => (fst action, NargsInt (Z.of_nat (snd action))))
         (UtilsCli.actions self))
    (UtilsCli.subparsers_actions self).

(** An entry of [global_opts] and the outcome of the loop of [UtilsCli],
    with integers for natural numbers. *)
Definition int_nargs (kv : string * nat) : string * Nargs :=
  (fst kv, NargsInt (Z.of_nat (snd kv))).

Definition scan_of (r : UtilsCli.Scan) : Scan :=
  match r with
  | UtilsCli.ScanDone k => ScanDone (Z.of_nat k)
  | UtilsCli.ScanError error => ScanError error
  | UtilsCli.ScanOutOfFuel => ScanOutOfFuel
  end.

End UtilsFull.

(** ** [src/config.py]: what the device and the config text look like *)
Module ConfigShapes.
Import Py Base Config.

(** The SDK version [execute_show_or_pull_command] hands to the builder,
    and the device methods it calls on the way. *)
Definition sdk_seen (ANDROID_SDK_VERSION_T : Z) (device : Device) : Z :=
  match connection_error device with
  | None => sdk_version device
  | Some _ => ANDROID_SDK_VERSION_T
  end.

Definition device_calls (device : Device) : list Event :=
  match connection_error device with
  | None =>
      [EvDevice "check_device_connection"; EvDevice "root_device";
       EvDevice "get_android_sdk_version"]
  | Some _ => [EvDevice "check_device_connection"]
  end.

(** Text without a line break. *)
Definition one_line (s : string) : Prop :=
  ~ In "010"%char (UtilsCli.chars s).

(** [verify_trigger_args] is about the trigger options: what it accepts
    comes back with the sub-command and the destination it was given, and
    with the run count and the backend it was given. *)
Definition keeps_subcommand_and_path
    (verify_trigger_args : Namespace -> Verified) : Prop :=
  forall a a',
    verify_trigger_args a = (Some a', None) ->
    config_subcommand a' = config_subcommand a
    /\ file_path a' = file_path a.

Definition keeps_runs_and_profiler
    (verify_trigger_args : Namespace -> Verified) : Prop :=
  forall a a',
    verify_trigger_args a = (Some a', None) ->
    runs a' = runs a /\ profiler a' = profiler a.

(** What [verify_config_args] hands to [verify_trigger_args] for a
    sub-command other than [list]. *)
Definition settled (sub : string) (args : Namespace) : Namespace :=
  set_profiler (Some "perfetto")
    (set_runs (Some 1)
       (if String.eqb sub "pull" then
          match file_path args with
          | None =>
              set_file_path (Some ("./" ++ config_name args ++ ".pbtxt")) args
          | Some _ => args
          end
        else args)).

(** A text that neither starts nor ends with white space. *)
Definition trimmed (s : string) : Prop :=
  Config.lstrip s = s /\ Config.rstrip s = s.

(** The first byte of a character, and a byte that continues one, among
    the bytes white space is made of. *)
Definition lead (b : ascii) : Prop :=
  (nat_of_ascii b <= 32 \/ 194 <= nat_of_ascii b)%nat.

Definition trail (b : ascii) : Prop :=
  (128 <= nat_of_ascii b <= 191)%nat.

End ConfigShapes.

(** ** Concrete hosts, children and command lines used below *)
Module Scenarios.
Import Py Base.

Definition no_files : string -> option PathKind := fun _ => None.

Definition fresh_world : World := mkWorld no_files [].

Definition home_is_root (p : string) : string := p.

Definition put_file (path : string) (files : string -> option PathKind)
  : string -> option PathKind :=
  fun p => if String.eqb p path then Some RegularFile else files p.

(** A shell in which both conversion scripts work: stage 2 writes its
    output file, every command exits with 0. *)
Definition working_shell : Utils.Subprocess :=
  fun args _ files =>
    (Utils.mkCompleted args 0 None None,
     if contains "gecko_profile_generator.py" args
     then put_file "/out/trace.json" files else files).

(** A shell in which the profile generator fails: the redirection has
    created the output file, and the command exits with 1. *)
Definition failing_generator_shell : Utils.Subprocess :=
  fun args _ files =>
    if contains "gecko_profile_generator.py" args
    then (Utils.mkCompleted args 1 None None,
          put_file "/out/trace.json" files)
    else (Utils.mkCompleted args 0 None None, files).

(** C2 as the spec words it: the conversion raises exactly when the
    stage-2 output file does not exist once the stages have run. *)
Definition judged_by_output_file_only (subprocess_run : Utils.Subprocess)
    (expanduser : string -> string)
    (scripts_path raw gecko symbols : string) (w : World) : Prop :=
  let '(r, w') :=
    Utils.convert_simpleperf_to_gecko subprocess_run expanduser
      scripts_path raw gecko symbols w in
  raised r = true <-> os_path_exists w' (expanduser gecko) = false.

(** C1 as the spec words it: the call returns, and its result is [True]
    exactly when no line observed before the budget elapses contains the
    pattern. *)
Definition timed_out_iff_no_match_observed_in_time (fuel : nat)
    (pattern : string) (c : Utils.Clock) (process : Utils.Popen)
    (timeout : Z) : Prop :=
  exists outcome c' process',
    UtilsFull.wait_for_output fuel pattern c process timeout
      = Some (outcome, c', process')
    /\ (outcome = Return true <->
        forall i, Utils.observed_within_budget c process timeout i ->
                  UtilsFull.verdict pattern (Utils.ith_line process i)
                  <> UtilsFull.Match).

(** A child that stays silent for five ticks and then writes the line
    that is waited for; the clock reads 0 at the call and at the first
    test of the loop condition, and 5 from then on. *)
Definition late_clock : Utils.Clock :=
  Utils.mkClock (fun k => match k with 0%nat | 1%nat => 0 | _ => 5 end) 0.

Definition late_child : Utils.Popen :=
  Utils.mkPopen
    (fun k => match k with 0%nat => "boot completed" | _ => "" end)
    (fun _ => 5) 0 (Some "pipe").

(** A clock that advances by one tick per call, and a child whose second
    line is the one waited for. *)
Definition ticking_clock : Utils.Clock :=
  Utils.mkClock (fun k => Z.of_nat k) 0.

Definition prompt_child : Utils.Popen :=
  Utils.mkPopen
    (fun k => match k with
              | 0%nat => "starting"
              | 1%nat => "boot completed"
              | _ => ""
              end)
    (fun k => Z.of_nat k + 1) 0 (Some "pipe").

(** A program with no Python signal handler yet and a live child. *)
Definition idle_program : Utils.Prog :=
  Utils.mkProg (fun _ => Utils.SIG_DFL) Utils.Running [].

(** A command line [torq config <sub> <name> [<path>]] with nothing else
    set. *)
Definition config_args (sub name : string) (path : option string)
  : Namespace :=
  mkNamespace "config" None (Some sub) name path None None None None None
              None None None None None false [].

Definition with_triggers (names : list string) (delays : list Z)
    (a : Namespace) : Namespace :=
  mkNamespace (subcommands a) (serial a) (config_subcommand a)
    (config_name a) (file_path a) (dur_ms a) (excluded_ftrace_events a)
    (included_ftrace_events a) (Some names) (Some delays)
    (trigger_timeout_ms a) (trigger_mode a) (runs a) (profiler a)
    (between_dur_ms a) (use_trace_processor a) (profiler_rest a).

(** A device whose connectivity check fails. *)
Definition unplugged : Device :=
  mkDevice None
    (Some (mkValidationError "There are currently no devices connected."
                             (Some "Connect a device.")))
    0.

(** A builder that always yields the same here-document, and one that
    rejects every command. *)
Definition heredoc_builder : Config.Builder :=
  fun _ _ =>
    (Some ("<<EOF" ++ Config.newline ++ Config.newline
             ++ "duration_ms: 10000" ++ Config.newline ++ Config.newline
             ++ "EOF"),
     None).

Definition rejecting_builder : Config.Builder :=
  fun _ _ =>
    (None,
     Some (mkValidationError "Command is invalid for this config." None)).

Definition catalog : list (string * Config.Builder) :=
  [("default", heredoc_builder); ("lightweight", heredoc_builder);
   ("memory", heredoc_builder)].

Definition strict_catalog : list (string * Config.Builder) :=
  [("default", rejecting_builder)].

Definition output_event (e : Event) : bool :=
  match e with
  | EvPrint _ | EvRun _ => true
  | EvDevice _ | EvSleep _ => false
  end.

(** C8 as it is worded: the device error is not returned and the config
    is output all the same. *)
Definition proceeds_and_outputs_config (subprocess_run : Utils.Subprocess)
    (ANDROID_SDK_VERSION_T : Z)
    (PREDEFINED_PERFETTO_CONFIGS : list (string * Config.Builder))
    (command : Config.ConfigCommand) (device : Device) (w : World) : Prop :=
  let '(r, w') :=
    Config.execute_show_or_pull_command subprocess_run ANDROID_SDK_VERSION_T
      PREDEFINED_PERFETTO_CONFIGS command device w in
  r <> Return (connection_error device)
  /\ existsb output_event (skipn (List.length (trace w)) (trace w')) = true.

(** C10, first half, as it is worded: a [pull] without a destination gets
    the default one and no error. *)
Definition default_path_and_no_error
    (verify_trigger_args : Namespace -> Verified) (w : World)
    (args : Namespace) : Prop :=
  config_subcommand args = Some "pull" ->
  file_path args = None ->
  exists args',
    Config.verify_config_args verify_trigger_args w args = (Some args', None)
    /\ file_path args' = Some ("./" ++ config_name args ++ ".pbtxt").

(** C9 as it is worded: the call raises exactly when the child has a
    return code that is not zero and not to be ignored. *)
Definition raises_iff_unignored_failure
    (subprocess_run : UtilsFull.SubprocessRun) (args : string)
    (kw : Utils.Kwargs) (w : World) : Prop :=
  raised (fst (UtilsFull.run_subprocess subprocess_run args kw w)) = true
  <-> exists output,
        fst (subprocess_run args (Utils.run_kw kw) (fs w)) = Return output
        /\ Utils.returncode output <> 0
        /\ ~ In (Utils.returncode output) (Utils.ignore_returncodes kw).

(** A host on which a child that is given a time limit never finishes
    within it: [subprocess.run] kills it and raises [TimeoutExpired]. *)
Definition slow_host : UtilsFull.SubprocessRun :=
  fun args kw files =>
    match Utils.kw_timeout kw with
    | Some _ => (Raise (TimeoutExpired args), files)
    | None => (Return (Utils.mkCompleted args 0 None None), files)
    end.

(** A time limit of five seconds, everything else at its default. *)
Definition timeout_5 : Utils.Kwargs :=
  Utils.mkKwargs [] None None None None false false None (Some 5) None None
                 None None None.

(** A child whose first line is the two bytes 255 and 254, which are not
    UTF-8, and whose second line is the one waited for. *)
Definition garbled_child : Utils.Popen :=
  Utils.mkPopen
    (fun k => match k with
              | 0%nat => String "255" (String "254" EmptyString)
              | 1%nat => "boot"
              | _ => ""
              end)
    (fun k => Z.of_nat k + 1) 0 (Some "pipe").

(** The parser of [create_parser] with its [nargs] as integers, and a
    parser with an option whose [nargs] is [-1]. *)
Definition torq_parser_int : UtilsFull.Parser :=
  UtilsFull.mkParser
    [(["-h"; "--help"], UtilsFull.NargsInt 0);
     (["--serial"], UtilsFull.NargsInt 1); ([], UtilsFull.NargsStr "A...")]
    [None; None; Some ["profiler"; "config"; "open"; "vm"]].

Definition backward_parser : UtilsFull.Parser :=
  UtilsFull.mkParser
    [(["-h"; "--help"], UtilsFull.NargsInt 0);
     (["--back"], UtilsFull.NargsInt (-1))]
    [None; None; Some ["profiler"; "config"; "open"; "vm"]].

(** The command line [torq] with nothing set: the default sub-command. *)
Definition profiler_args : Namespace :=
  mkNamespace "profiler" None None "" None None None None None None None None
              None None None false [].

(** Checks of [verify_profiler_args] before the trigger rules that let
    everything through. *)
Definition no_check_before : Namespace -> Namespace + ValidationError := inl.

(** C5 as it is worded: the session has the iterations 1 to [N] and
    [N - 1] sleeps. *)
Definition runs_all_and_sleeps_between (conversion_raises : bool)
    (env : Profiler.Environment) (between_dur_ms : Z) (N : nat) : Prop :=
  let t := fst (Profiler.execute_runs conversion_raises env between_dur_ms N) in
  filter (fun s => negb (Profiler.is_sleep s)) t
  = map Profiler.Iteration (seq 1 N)
  /\ Profiler.sleeps t = (N - 1)%nat.

(** A session in which every run succeeds and nobody cancels; one in
    which the device cannot be reached; one in which the user cancels
    during the first sleep. *)
Definition quiet_session : Profiler.Environment :=
  Profiler.mkEnvironment (fun _ => Profiler.Success) (fun _ => false).

Definition unreachable_device : Profiler.Environment :=
  Profiler.mkEnvironment (fun _ => Profiler.DeviceError) (fun _ => false).

Definition cancelled_in_first_sleep : Profiler.Environment :=
  Profiler.mkEnvironment (fun _ => Profiler.Success)
                         (fun check => (check =? 2)%nat).

(** A shell in which every command exits with 0 and writes nothing. *)
Definition silent_shell : Utils.Subprocess :=
  fun args _ files => (Utils.mkCompleted args 0 None None, files).

(** A child that has exited without output: every read returns the empty
    line at once. *)
Definition finished_child : Utils.Popen :=
  Utils.mkPopen (fun _ => "") (fun k => Z.of_nat k + 1) 0 (Some "pipe").

(** The parser [create_parser] builds, as far as [set_default_subparser]
    reads it: the help flags, [--serial] with one value, and the
    sub-commands. *)
Definition torq_parser : UtilsCli.Parser :=
  UtilsCli.mkParser
    [(["-h"; "--help"], 0%nat); (["--serial"], 1%nat); ([], 0%nat)]
    [None; None; Some ["profiler"; "config"; "open"; "vm"]].

(** A config whose here-document is followed by a line break and a
    no-break space, U+00A0, that is the bytes 194 and 160. *)
Definition padded_text : string :=
  "<<EOF" ++ Config.newline ++ Config.newline ++ "body: 1" ++ Config.newline
    ++ Config.newline ++ "EOF" ++ Config.newline
    ++ String "194" (String "160" EmptyString).

Definition padded_builder : Config.Builder :=
  fun _ _ => (Some padded_text, None).

Definition padded_catalog : list (string * Config.Builder) :=
  [("default", padded_builder)].

(** A shell in which every command exits with 2. *)
Definition broken_shell : Utils.Subprocess :=
  fun args _ files => (Utils.mkCompleted args 2 None None, files).

(** A connected device that reports SDK version 35. *)
Definition plugged : Device := mkDevice (Some "serial-1") None 35.

(** A builder that writes the SDK version it is given into the config. *)
Definition sdk_builder : Config.Builder :=
  fun _ sdk =>
    (Some ("<<EOF" ++ Config.newline ++ Config.newline
             ++ (if 34 <=? sdk then "new_sdk: true" else "new_sdk: false")
             ++ Config.newline ++ Config.newline ++ "EOF"),
     None).

Definition sdk_catalog : list (string * Config.Builder) :=
  [("default", sdk_builder)].

(** A [verify_trigger_args] that accepts every command and, when there
    are trigger names, hands it back with the defaults of the stop delay,
    the timeout and the mode filled in, as [tests/torq_unit_test.py] shows
    of the one in [src/profiler.py]. *)
Definition filling_defaults : Namespace -> Verified :=
  fun a =>
    (Some (mkNamespace (subcommands a) (serial a) (config_subcommand a)
             (config_name a) (file_path a) (dur_ms a)
             (excluded_ftrace_events a) (included_ftrace_events a)
             (trigger_names a)
             (match trigger_names a, trigger_stop_delay_ms a with
              | Some _, None => Some [1000]
              | _, given => given
              end)
             (match trigger_names a, trigger_timeout_ms a with
              | Some _, None => Some 10000
              | _, given => given
              end)
             (match trigger_names a, trigger_mode a with
              | Some _, None => Some "stop"
              | _, given => given
              end)
             (runs a) (profiler a) (between_dur_ms a)
             (use_trace_processor a) (profiler_rest a)),
     None).

(** [torq config pull default --trigger-names team.package.test-trigger-name] *)
Definition pull_with_trigger : Namespace :=
  mkNamespace "config" None (Some "pull") "default" None None None None
              (Some ["team.package.test-trigger-name"]) None None None None
              None None false [].

(** A [verify_trigger_args] that accepts everything. *)
Definition accept_all : Namespace -> Verified := fun a => (Some a, None).

(** Command lines of a sub-command [run] does not know, and of [vm] on
    the device [0.0.0.0]. *)
Definition trigger_args : Namespace :=
  mkNamespace "trigger" None None "" None None None None None None None None
              None None None false [].

Definition vm_args : Namespace :=
  mkNamespace "vm" (Some ["0.0.0.0"]) None "" None None None None None None
              None None None None None false [].

End Scenarios.

(** * Properties *)

(** ** The effect monad *)
Module PyFacts.
Import Py.

Lemma int_in_In (x : Z) (xs : list Z) : int_in x xs = true <-> In x xs.
Proof.
  unfold int_in. rewrite existsb_exists. split.
  - intros [y [Hin Heq]]. apply Z.eqb_eq in Heq. now subst.
  - intros Hin. exists x. split; [assumption | apply Z.eqb_refl].
Qed.

Lemma int_in_false (x : Z) (xs : list Z) : int_in x xs = false <-> ~ In x xs.
Proof.
  rewrite <- int_in_In. destruct (int_in x xs); split; congruence.
Qed.

End PyFacts.

(** ** [src/utils.py]: external processes *)
Module UtilsFacts.
Import Py Utils.

Section Host.

Variable subprocess_run : Subprocess.
Variable expanduser : string -> string.

(** What [run_subprocess] does, by the child's return code. *)
Lemma run_subprocess_cases (args : string) (kw : Kwargs) (w : World) :
  let output := fst (subprocess_run args (run_kw kw) (fs w)) in
  let w' := mkWorld (snd (subprocess_run args (run_kw kw) (fs w)))
                    (trace w ++ [EvRun args]) in
  run_subprocess subprocess_run args kw w =
    if negb (returncode output =? 0)
       && negb (int_in (returncode output) (ignore_returncodes kw))
    then (Raise (CalledProcessError (returncode output) (cp_args output)), w')
    else (Return (if capture_output kw then Some output else None), w').
Proof.
  unfold run_subprocess, call_run, bind, check_returncode, ret, raise.
  destruct (subprocess_run args (run_kw kw) (fs w)) as [output files].
  cbn [fst snd].
  destruct (returncode output =? 0) eqn:Hzero; cbn [negb andb].
  - now destruct (capture_output kw).
  - destruct (int_in (returncode output) (ignore_returncodes kw));
      cbn [negb]; [now destruct (capture_output kw) | reflexivity].
Qed.

End Host.

(** The conversion, stage by stage: the exit code of stage 1, then the
    exit code of stage 2, then the output file. *)
Lemma convert_simpleperf_to_gecko_cases
    (subprocess_run : Subprocess) (expanduser : string -> string)
    (scripts_path raw gecko symbols : string) (w : World) :
  let cmd1 :=
    binary_cache_cmd (expanduser scripts_path) raw (expanduser symbols) in
  let cmd2 := gecko_cmd (expanduser scripts_path) raw gecko in
  let stage1 := subprocess_run cmd1 (run_kw shell_True) (fs w) in
  let stage2 := subprocess_run cmd2 (run_kw shell_True) (snd stage1) in
  fst (convert_simpleperf_to_gecko subprocess_run expanduser
         scripts_path raw gecko symbols w) =
    if negb (returncode (fst stage1) =? 0) then
      Raise (CalledProcessError (returncode (fst stage1))
                                (cp_args (fst stage1)))
    else if negb (returncode (fst stage2) =? 0) then
      Raise (CalledProcessError (returncode (fst stage2))
                                (cp_args (fst stage2)))
    else match snd stage2 (expanduser gecko) with
         | Some _ => Return tt
         | None => Raise (Exception "Gecko file was not created.")
         end.
Proof.
  intros cmd1 cmd2 stage1 stage2.
  unfold convert_simpleperf_to_gecko.
  unfold bind at 1. unfold print, emit.
  unfold bind at 1. rewrite run_subprocess_cases.
  cbn [fs trace ignore_returncodes shell_True int_in existsb negb].
  rewrite andb_true_r. fold cmd1. fold stage1.
  destruct (negb (returncode (fst stage1) =? 0)); [reflexivity |].
  unfold bind at 1. rewrite run_subprocess_cases.
  cbn [fs trace ignore_returncodes shell_True int_in existsb negb].
  rewrite andb_true_r. fold cmd2. fold stage2.
  destruct (negb (returncode (fst stage2) =? 0)); [reflexivity |].
  unfold bind, path_exists, os_path_exists. cbn [fs].
  now destruct (snd stage2 (expanduser gecko)).
Qed.



(** The two cases of [tests/utils_unit_test.py]: the output file is there
    and nothing is raised; it is missing and the conversion raises. *)
Example convert_simpleperf_to_gecko_success :
  fst (convert_simpleperf_to_gecko Scenarios.working_shell
         Scenarios.home_is_root "/scripts" "/path/file.data"
         "/out/trace.json" "/symbols" Scenarios.fresh_world)
  = Return tt.
Proof. reflexivity. Qed.

Example convert_simpleperf_to_gecko_failure :
  fst (convert_simpleperf_to_gecko Scenarios.silent_shell
         Scenarios.home_is_root "/scripts" "/path/file.data"
         "/path/file.json" "/symbols" Scenarios.fresh_world)
  = Raise (Exception "Gecko file was not created.").
Proof. reflexivity. Qed.

(** *** [wait_for_output] *)

(** When the clock and the stream agree, the clock does not go back from
    one test of the loop condition to a later one. *)
Lemma in_step_monotone (c : Clock) (process : Popen) :
  in_step c process ->
  forall j k, reading c (S (asked c) + j) <= reading c (S (asked c) + (j + k)).
Proof.
  intros Hstep j k. induction k as [| k IH].
  - rewrite Nat.add_0_r. lia.
  - destruct (Hstep (j + k)%nat) as [Hbefore Hafter].
    replace (S (asked c) + (j + S k))%nat
      with (S (S (asked c)) + (j + k))%nat by lia.
    lia.
Qed.

(** A line observed within the budget is read by a loop that has not
    returned before. *)
Lemma observed_in_time_was_started (c : Clock) (process : Popen)
    (timeout : Z) (i : nat) :
  in_step c process ->
  observed_within_budget c process timeout i ->
  read_started c timeout i.
Proof.
  intros Hstep Hobs j Hj. unfold within_budget. apply Z.ltb_lt.
  unfold observed_within_budget in Hobs.
  destruct (Hstep i) as [Hbefore _].
  pose proof (in_step_monotone c process Hstep j (i - j)) as Hmono.
  replace (j + (i - j))%nat with i in Hmono by lia.
  lia.
Qed.

(** A child that has exited is polled until the budget of three ticks is
    used up. *)
Example wait_for_output_times_out_at_end_of_file :
  wait_for_output 4 "boot" Scenarios.ticking_clock Scenarios.finished_child 3
  = Some (true, mkClock (reading Scenarios.ticking_clock) 4,
          mkPopen (out_line Scenarios.finished_child)
                  (out_at Scenarios.finished_child) 2 (Some "pipe")).
Proof. reflexivity. Qed.

(** *** [wait_for_process_or_ctrl_c] *)

(** With the handler registered for both signals, the first SIGINT or
    SIGTERM that reaches a wait on a live child ends the wait in the
    handler. *)
Lemma process_wait_interrupted (sig : Signal) (rest : list Happening) :
  sig = SIGINT \/ sig = SIGTERM ->
  forall (before : list Happening) (p : Prog),
    child p = Running ->
    handlers p SIGINT = signal_handler ->
    handlers p SIGTERM = signal_handler ->
    Forall (fun h => h <> ChildExits) before ->
    process_wait (before ++ Delivered sig :: rest) p
      = (Unwinds SystemExit, process_kill (act (DoPrint "Exiting...") p)).
Proof.
  intros Hsig before.
  induction before as [| h before IH]; intros p Hchild Hint Hterm Hbefore;
    cbn [app process_wait]; rewrite Hchild.
  - destruct Hsig; subst sig; [rewrite Hint | rewrite Hterm]; reflexivity.
  - inversion Hbefore as [| h' before' Hh Hrest]; subst.
    destruct h as [s |]; [| congruence].
    destruct (handlers p s) eqn:Hs; [| reflexivity].
    destruct s; try congruence; now apply IH.
Qed.

(** C6.  Once [wait_for_process_or_ctrl_c] is waiting on a live child, a
    SIGINT or SIGTERM runs the handler: it prints, kills the child, and
    then raises [SystemExit], which unwinds the call.  The wait is not
    taken up again: nothing that happens afterwards is looked at, and the
    line that follows the wait is never printed. *)
Theorem interrupt_kills_child_then_exits :
  forall (before rest : list Happening) (sig : Signal) (p : Prog),
    child p = Running ->
    sig = SIGINT \/ sig = SIGTERM ->
    Forall (fun h => h <> ChildExits) before ->
    exists p',
      wait_for_process_or_ctrl_c (before ++ Delivered sig :: rest) p
        = (Unwinds SystemExit, p')
      /\ child p' = Killed
      /\ done p' = (done p ++ [DoInstall SIGINT; DoInstall SIGTERM; DoWait;
                               DoPrint "Exiting..."; DoKill])%list.
Proof.
  intros before rest sig p Hchild Hsig Hbefore.
  unfold wait_for_process_or_ctrl_c.
  rewrite (process_wait_interrupted sig rest Hsig before); try assumption;
    try reflexivity.
  eexists. split; [reflexivity |]. cbn. rewrite Hchild.
  split; [reflexivity |]. now rewrite <- !app_assoc.
Qed.

(** The witness: SIGCHLD is ignored, SIGINT interrupts, and the child's
    later exit is never seen. *)
Lemma interrupt_kills_child_then_exits_on_ctrl_c :
  exists p',
    wait_for_process_or_ctrl_c
      ([Delivered SIGCHLD] ++ Delivered SIGINT :: [ChildExits])
      Scenarios.idle_program
      = (Unwinds SystemExit, p')
    /\ child p' = Killed
    /\ done p' = (done Scenarios.idle_program
                    ++ [DoInstall SIGINT; DoInstall SIGTERM; DoWait;
                        DoPrint "Exiting..."; DoKill])%list.
Proof.
  apply (interrupt_kills_child_then_exits
           [Delivered SIGCHLD] [ChildExits] SIGINT Scenarios.idle_program).
  - reflexivity.
  - left. reflexivity.
  - constructor; [discriminate | constructor].
Defined.

(** Without an interrupt the wait ends with the child, and the call
    returns after its last line. *)
Example wait_returns_when_child_exits :
  wait_for_process_or_ctrl_c [ChildExits] Scenarios.idle_program
  = (Returns,
     mkProg (handlers (signal_signal SIGTERM signal_handler
                         (signal_signal SIGINT signal_handler
                            Scenarios.idle_program)))
            Exited
            [DoInstall SIGINT; DoInstall SIGTERM; DoWait;
             DoPrint "Process was killed."]).
Proof. reflexivity. Qed.
End UtilsFacts.

(** ** [src/utils.py]: [run_subprocess] and [wait_for_output] with the
    exceptions of [subprocess.run] and [bytes.decode] *)
Module UtilsFullFacts.
Import Py Utils.

(** What [run_subprocess] does, by the outcome of [subprocess.run]. *)
Lemma run_subprocess_outcomes (subprocess_run : UtilsFull.SubprocessRun)
    (args : string) (kw : Kwargs) (w : World) :
  let outcome := fst (subprocess_run args (run_kw kw) (fs w)) in
  let w' := mkWorld (snd (subprocess_run args (run_kw kw) (fs w)))
                    (trace w ++ [EvRun args]) in
  UtilsFull.run_subprocess subprocess_run args kw w =
    match outcome with
    | Raise e => (Raise e, w')
    | Return output =>
        if negb (returncode output =? 0)
           && negb (int_in (returncode output) (ignore_returncodes kw))
        then (Raise (CalledProcessError (returncode output)
                                        (cp_args output)), w')
        else (Return (if capture_output kw then Some output else None), w')
    end.
Proof.
  unfold UtilsFull.run_subprocess, UtilsFull.call_run, bind,
    check_returncode, ret, raise.
  destruct (subprocess_run args (run_kw kw) (fs w)) as [[output | e] files];
    cbn [fst snd]; [| reflexivity].
  destruct (returncode output =? 0) eqn:Hzero; cbn [negb andb].
  - now destruct (capture_output kw).
  - destruct (int_in (returncode output) (ignore_returncodes kw));
      cbn [negb]; [now destruct (capture_output kw) | reflexivity].
Qed.

(** On a host where [subprocess.run] does not raise, [run_subprocess] is
    the function of [Utils]. *)
Lemma run_subprocess_completes (run : Subprocess) (args : string)
    (kw : Kwargs) (w : World) :
  UtilsFull.run_subprocess (UtilsFull.completes run) args kw w
  = Utils.run_subprocess run args kw w.
Proof.
  rewrite run_subprocess_outcomes, UtilsFacts.run_subprocess_cases.
  unfold UtilsFull.completes.
  destruct (run args (run_kw kw) (fs w)) as [output files]. reflexivity.
Qed.

(** Likewise the conversion. *)
Lemma convert_simpleperf_to_gecko_completes (run : Subprocess)
    (expanduser : string -> string)
    (scripts_path raw gecko symbols : string) (w : World) :
  UtilsFull.convert_simpleperf_to_gecko (UtilsFull.completes run) expanduser
    scripts_path raw gecko symbols w
  = Utils.convert_simpleperf_to_gecko run expanduser scripts_path raw gecko
      symbols w.
Proof.
  unfold UtilsFull.convert_simpleperf_to_gecko,
    Utils.convert_simpleperf_to_gecko, bind.
  destruct (print _ w) as [[[] | e] w0]; [| reflexivity].
  rewrite run_subprocess_completes.
  destruct (Utils.run_subprocess run _ shell_True w0) as [[v1 | e1] w1];
    [| reflexivity].
  rewrite run_subprocess_completes. reflexivity.
Qed.

(** C9, as the code has it.  [run_subprocess] raises exactly when
    [subprocess.run] itself raises (its exception passes through
    unchanged) or the child's return code is non-zero and is not one of
    [ignore_returncodes] (then it is [CalledProcessError]); when it does
    not raise it returns the completed process if [capture_output] is true
    and [None] otherwise.  Either way the command has been run once. *)
Theorem run_subprocess_raises_iff_run_raises_or_unignored_failure :
  forall (subprocess_run : UtilsFull.SubprocessRun) (args : string)
         (kw : Kwargs) (w : World),
    let outcome := fst (subprocess_run args (run_kw kw) (fs w)) in
    let r := fst (UtilsFull.run_subprocess subprocess_run args kw w) in
    (raised r = true <->
       raised outcome = true
       \/ exists output,
            outcome = Return output
            /\ returncode output <> 0
            /\ ~ In (returncode output) (ignore_returncodes kw))
    /\ match outcome with
       | Raise e => r = Raise e
       | Return output =>
           match r with
           | Return v => v = if capture_output kw then Some output else None
           | Raise e =>
               e = CalledProcessError (returncode output) (cp_args output)
           end
       end
    /\ snd (UtilsFull.run_subprocess subprocess_run args kw w)
       = mkWorld (snd (subprocess_run args (run_kw kw) (fs w)))
                 (trace w ++ [EvRun args]).
Proof.
  intros run args kw w outcome r. subst r.
  rewrite run_subprocess_outcomes. fold outcome.
  destruct outcome as [output | e]; cbn [raised].
  - destruct (returncode output =? 0) eqn:Hzero; cbn [negb andb].
    + apply Z.eqb_eq in Hzero. cbn. repeat split; try discriminate.
      intros [H | (o & Ho & Hnz & _)]; [discriminate |].
      injection Ho as <-. contradiction.
    + apply Z.eqb_neq in Hzero.
      destruct (int_in (returncode output) (ignore_returncodes kw)) eqn:Hin;
        cbn.
      * apply PyFacts.int_in_In in Hin. repeat split; try discriminate.
        intros [H | (o & Ho & _ & Hout)]; [discriminate |].
        injection Ho as <-. contradiction.
      * apply PyFacts.int_in_false in Hin. repeat split.
        intros _. right. exists output. now repeat split.
  - cbn. repeat split. intros _. now left.
Qed.

(** C9 fails as worded: with [timeout=5] on a host where the child does
    not finish in time, [subprocess.run] raises [TimeoutExpired]; the call
    raises, and there is no return code at all. *)
Lemma run_subprocess_raises_without_return_code :
  fst (UtilsFull.run_subprocess Scenarios.slow_host "sleep 10"
         Scenarios.timeout_5 Scenarios.fresh_world)
  = Raise (TimeoutExpired "sleep 10")
  /\ ~ Scenarios.raises_iff_unignored_failure Scenarios.slow_host "sleep 10"
         Scenarios.timeout_5 Scenarios.fresh_world.
Proof.
  split; [reflexivity |].
  unfold Scenarios.raises_iff_unignored_failure. intros [Hraised _].
  destruct (Hraised eq_refl) as (output & Houtput & _).
  discriminate Houtput.
Qed.

(** An exit code that is to be ignored, with and without
    [capture_output]. *)
Example run_subprocess_ignores_listed_code :
  fst (UtilsFull.run_subprocess
         (UtilsFull.completes Scenarios.broken_shell) "grep -q x f"
         (mkKwargs [1; 2] None None None None true true None None None None
                   None None None)
         Scenarios.fresh_world)
  = Return (Some (mkCompleted "grep -q x f" 2 None None)).
Proof. reflexivity. Qed.

(** *** [wait_for_output] *)

Lemma verdict_of_text (pattern line text : string) :
  decode line = Some text ->
  UtilsFull.verdict pattern line
  = if contains pattern text then UtilsFull.Match else UtilsFull.NoMatch.
Proof. unfold UtilsFull.verdict. now intros ->. Qed.

Lemma verdict_undecodable (pattern line : string) :
  decode line = None ->
  UtilsFull.verdict pattern line = UtilsFull.Undecodable.
Proof. unfold UtilsFull.verdict. now intros ->. Qed.

(** The loop, from any of its states: if the condition fails at its
    [n]-th test from here, or the [n]-th line from here does not decode or
    contains the pattern, [n + 1] units of fuel are enough, and the outcome
    is read off the clock and the stream. *)
Lemma wait_loop_spec (pattern : string) (start_time timeout : Z) :
  forall (n fuel : nat) (c : Clock) (process : Popen),
    (reading c (asked c + n) - start_time <? timeout) = false
    \/ UtilsFull.verdict pattern (out_line process (reads process + n))
       <> UtilsFull.NoMatch ->
    (n < fuel)%nat ->
    exists outcome c' process',
      UtilsFull.wait_loop fuel pattern start_time timeout c process
        = Some (outcome, c', process')
      /\ (outcome = Return true <->
          forall i,
            (forall j, (j <= i)%nat ->
               (reading c (asked c + j) - start_time <? timeout) = true) ->
            UtilsFull.verdict pattern (out_line process (reads process + i))
            = UtilsFull.NoMatch)
      /\ (outcome <> Return true ->
          exists i,
            (forall j, (j <= i)%nat ->
               (reading c (asked c + j) - start_time <? timeout) = true)
            /\ (forall j, (j < i)%nat ->
                  UtilsFull.verdict pattern
                    (out_line process (reads process + j))
                  = UtilsFull.NoMatch)
            /\ reads process' = S (reads process + i)
            /\ match UtilsFull.verdict pattern
                       (out_line process (reads process + i)) with
               | UtilsFull.Match =>
                   outcome = Return false /\ popen_stderr process' = None
               | UtilsFull.Undecodable =>
                   outcome = Raise UnicodeDecodeError
                   /\ popen_stderr process' = popen_stderr process
               | UtilsFull.NoMatch => False
               end).
Proof.
  induction n as [| n IH]; intros fuel c process Hstop Hfuel;
    (destruct fuel as [| fuel]; [lia |]);
    cbn [UtilsFull.wait_loop time_time readline];
    destruct (reading c (asked c) - start_time <? timeout) eqn:Hc.
  all: try (eexists _, _, _; split; [reflexivity |]; split;
            [split; [| reflexivity]; intros _ i Hi;
             specialize (Hi 0%nat (Nat.le_0_l i));
             rewrite Nat.add_0_r in Hi; congruence
            | intros Hne; now contradiction Hne]).
  all: destruct (decode (out_line process (reads process)))
         as [text |] eqn:Hd;
       [pose proof (verdict_of_text pattern _ _ Hd) as Hv;
        destruct (contains pattern text) eqn:Hm
       | pose proof (verdict_undecodable pattern _ Hd) as Hv].
  all: try (eexists _, _, _; split; [reflexivity |]; split;
            [split; [discriminate |]; intros H; specialize (H 0%nat);
             rewrite Nat.add_0_r, Hv in H; discriminate H;
             intros j Hj; replace j with 0%nat by lia;
             now rewrite Nat.add_0_r
            | intros _; exists 0%nat; rewrite !Nat.add_0_r, Hv;
              repeat split;
              [intros j Hj; replace j with 0%nat by lia;
               now rewrite Nat.add_0_r
              | intros j Hj; lia]]).
  - (* nothing stops the loop at its first test: excluded *)
    rewrite !Nat.add_0_r in Hstop. destruct Hstop as [Hstop | Hstop];
      [congruence | contradiction].
  - (* one line read without a match: the rest is the loop one step on *)
    destruct (IH fuel (mkClock (reading c) (S (asked c)))
                (mkPopen (out_line process) (out_at process)
                         (S (reads process)) (popen_stderr process)))
      as (outcome & c' & process' & Hrun & Htrue & Hother).
    { cbn [reading asked out_line reads].
      rewrite !Nat.add_succ_r in Hstop. exact Hstop. }
    { lia. }
    cbn [reading asked out_line reads popen_stderr] in Htrue, Hother.
    exists outcome, c', process'. split; [exact Hrun |]. split.
    + rewrite Htrue. split.
      * intros H [| i] Hi.
        -- now rewrite Nat.add_0_r.
        -- rewrite Nat.add_succ_r. apply H. intros j Hj.
           specialize (Hi (S j)). rewrite Nat.add_succ_r in Hi.
           apply Hi. lia.
      * intros H i Hi. specialize (H (S i)).
        rewrite Nat.add_succ_r in H. apply H.
        intros [| j] Hj; [now rewrite Nat.add_0_r |].
        rewrite Nat.add_succ_r. apply Hi. lia.
    + intros Hne.
      destruct (Hother Hne) as (i & Hi & Hfirst & Hr & Hlast).
      exists (S i). rewrite !Nat.add_succ_r. repeat split.
      * intros [| j] Hj; [now rewrite Nat.add_0_r |].
        rewrite Nat.add_succ_r. apply Hi. lia.
      * intros [| j] Hj; [now rewrite Nat.add_0_r |].
        rewrite Nat.add_succ_r. apply Hfirst. lia.
      * exact Hr.
      * exact Hlast.
Qed.

(** C1, as the code has it.  Whenever the loop condition fails at some
    test, or some line contains the pattern or is not valid UTF-8,
    [wait_for_output] comes to an end given that much fuel.  It returns
    [True] exactly when every line whose read was started within the
    budget decodes and does not contain the pattern.  Otherwise it stops
    at the first such line that does not: if the line contains the pattern
    it returns [False], whatever the clock says once that read has been
    started, and [process.stderr] is then [None]; if the line does not
    decode, [line.decode()] raises [UnicodeDecodeError]. *)
Theorem wait_for_output_timed_out_iff_started_reads_pass :
  forall (pattern : string) (c : Clock) (process : Popen) (timeout : Z)
         (n fuel : nat),
    within_budget c timeout n = false
    \/ UtilsFull.verdict pattern (ith_line process n) <> UtilsFull.NoMatch ->
    (n < fuel)%nat ->
    exists outcome c' process',
      UtilsFull.wait_for_output fuel pattern c process timeout
        = Some (outcome, c', process')
      /\ (outcome = Return true <->
          forall i, read_started c timeout i ->
                    UtilsFull.verdict pattern (ith_line process i)
                    = UtilsFull.NoMatch)
      /\ (outcome <> Return true ->
          exists i,
            read_started c timeout i
            /\ (forall j, (j < i)%nat ->
                  UtilsFull.verdict pattern (ith_line process j)
                  = UtilsFull.NoMatch)
            /\ reads process' = S (reads process + i)
            /\ match UtilsFull.verdict pattern (ith_line process i) with
               | UtilsFull.Match =>
                   outcome = Return false /\ popen_stderr process' = None
               | UtilsFull.Undecodable =>
                   outcome = Raise UnicodeDecodeError
                   /\ popen_stderr process' = popen_stderr process
               | UtilsFull.NoMatch => False
               end).
Proof.
  intros pattern c process timeout n fuel Hstop Hfuel.
  unfold UtilsFull.wait_for_output, time_time.
  apply (wait_loop_spec pattern (reading c (asked c)) timeout n fuel
           (mkClock (reading c) (S (asked c))) process);
    [exact Hstop | exact Hfuel].
Qed.

(** The witness: the second line matches at the second test, well within a
    budget of ten ticks. *)
Lemma wait_for_output_prompt_child :
  exists outcome c' process',
    UtilsFull.wait_for_output 2 "boot" Scenarios.ticking_clock
      Scenarios.prompt_child 10
      = Some (outcome, c', process')
    /\ (outcome = Return true <->
        forall i, read_started Scenarios.ticking_clock 10 i ->
                  UtilsFull.verdict "boot" (ith_line Scenarios.prompt_child i)
                  = UtilsFull.NoMatch)
    /\ (outcome <> Return true ->
        exists i,
          read_started Scenarios.ticking_clock 10 i
          /\ (forall j, (j < i)%nat ->
                UtilsFull.verdict "boot" (ith_line Scenarios.prompt_child j)
                = UtilsFull.NoMatch)
          /\ reads process' = S (reads Scenarios.prompt_child + i)
          /\ match UtilsFull.verdict "boot"
                     (ith_line Scenarios.prompt_child i) with
             | UtilsFull.Match =>
                 outcome = Return false /\ popen_stderr process' = None
             | UtilsFull.Undecodable =>
                 outcome = Raise UnicodeDecodeError
                 /\ popen_stderr process'
                    = popen_stderr Scenarios.prompt_child
             | UtilsFull.NoMatch => False
             end).
Proof.
  apply (wait_for_output_timed_out_iff_started_reads_pass
           "boot" Scenarios.ticking_clock Scenarios.prompt_child 10 1 2).
  - right. discriminate.
  - lia.
Defined.

(** C1 fails as worded: the only matching line is observed five ticks
    after the call, four ticks after a budget of one tick has elapsed, in
    a read that was started in time; the call returns [False]. *)
Lemma wait_for_output_late_line_is_not_a_timeout :
  in_step Scenarios.late_clock Scenarios.late_child
  /\ UtilsFull.wait_for_output 1 "boot" Scenarios.late_clock
       Scenarios.late_child 1
     = Some (Return false, mkClock (reading Scenarios.late_clock) 2,
             mkPopen (out_line Scenarios.late_child)
                     (out_at Scenarios.late_child) 1 None)
  /\ ~ Scenarios.timed_out_iff_no_match_observed_in_time
         1 "boot" Scenarios.late_clock Scenarios.late_child 1.
Proof.
  split; [| split; [reflexivity |]].
  - intros i. unfold in_step, Scenarios.late_clock, Scenarios.late_child.
    cbn. destruct i as [| i]; cbn; lia.
  - intros (outcome & c' & process' & Hrun & Hiff).
    vm_compute in Hrun. injection Hrun as Houtcome _ _. subst outcome.
    destruct Hiff as [_ Hiff]. discriminate Hiff.
    intros i Hobs. unfold observed_within_budget in Hobs.
    cbn in Hobs. lia.
Qed.

(** A call that comes to an end has stopped at some test of the loop
    condition. *)
Lemma wait_loop_returns_at (pattern : string) (start_time timeout : Z) :
  forall (fuel : nat) (c : Clock) (process : Popen)
         (outcome : result bool) (c' : Clock) (process' : Popen),
    UtilsFull.wait_loop fuel pattern start_time timeout c process
      = Some (outcome, c', process') ->
    exists n,
      (n < fuel)%nat
      /\ ((reading c (asked c + n) - start_time <? timeout) = false
          \/ UtilsFull.verdict pattern (out_line process (reads process + n))
             <> UtilsFull.NoMatch).
Proof.
  induction fuel as [| fuel IH]; intros c process outcome c' process' Hrun;
    [discriminate |].
  cbn [UtilsFull.wait_loop time_time readline] in Hrun.
  destruct (reading c (asked c) - start_time <? timeout) eqn:Hc.
  - destruct (decode (out_line process (reads process)))
      as [text |] eqn:Hd.
    + pose proof (verdict_of_text pattern _ _ Hd) as Hv.
      destruct (contains pattern text) eqn:Hm.
      * exists 0%nat. rewrite !Nat.add_0_r. split; [lia |].
        right. rewrite Hv. discriminate.
      * apply IH in Hrun. destruct Hrun as (n & Hn & Hstop).
        cbn [reading asked out_line reads] in Hstop.
        exists (S n). rewrite !Nat.add_succ_r. split; [lia | exact Hstop].
    + exists 0%nat. rewrite !Nat.add_0_r. split; [lia |].
      right. rewrite (verdict_undecodable pattern _ Hd). discriminate.
  - exists 0%nat. rewrite !Nat.add_0_r. split; [lia | now left].
Qed.

(** One direction of the spec's wording does hold: a call that returns
    [True] has seen no matching line within the budget. *)
Lemma timed_out_means_no_match_observed_in_time
    (pattern : string) (c : Clock) (process : Popen) (timeout : Z)
    (fuel : nat) (c' : Clock) (process' : Popen) :
  in_step c process ->
  UtilsFull.wait_for_output fuel pattern c process timeout
    = Some (Return true, c', process') ->
  forall i, observed_within_budget c process timeout i ->
            UtilsFull.verdict pattern (ith_line process i)
            = UtilsFull.NoMatch.
Proof.
  intros Hstep Hrun i Hobs.
  unfold UtilsFull.wait_for_output, time_time in Hrun.
  destruct (wait_loop_returns_at _ _ _ _ _ _ _ _ _ Hrun)
    as (n & Hn & Hstop).
  destruct (wait_loop_spec pattern (reading c (asked c)) timeout n fuel
              (mkClock (reading c) (S (asked c))) process Hstop Hn)
    as (b & c2 & p2 & Hrun2 & Htrue & _).
  rewrite Hrun in Hrun2. injection Hrun2 as Hb _ _. subst b.
  apply (proj1 Htrue eq_refl).
  apply (UtilsFacts.observed_in_time_was_started c process timeout i Hstep
           Hobs).
Qed.

(** On a child whose lines are all valid UTF-8 nothing is raised, and
    [wait_for_output] is the function of [Utils]. *)
Lemma wait_loop_decodable (pattern : string) (start_time timeout : Z) :
  forall (fuel : nat) (c : Clock) (process : Popen),
    UtilsFull.decodable process ->
    UtilsFull.wait_loop fuel pattern start_time timeout c process
    = match Utils.wait_loop fuel pattern start_time timeout c process with
      | Some (timed_out, c', process') => Some (Return timed_out, c', process')
      | None => None
      end.
Proof.
  induction fuel as [| fuel IH]; intros c process Hvalid; [reflexivity |].
  cbn [UtilsFull.wait_loop Utils.wait_loop time_time readline].
  destruct (reading c (asked c) - start_time <? timeout); [| reflexivity].
  pose proof (Hvalid 0%nat) as H0. unfold ith_line in H0.
  rewrite Nat.add_0_r in H0. unfold decode. rewrite H0.
  destruct (contains pattern (out_line process (reads process)));
    [reflexivity |].
  apply IH. intros i. specialize (Hvalid (S i)). unfold ith_line in *.
  cbn [out_line reads]. now rewrite Nat.add_succ_r in Hvalid.
Qed.

Lemma wait_for_output_decodable (fuel : nat) (pattern : string) (c : Clock)
    (process : Popen) (timeout : Z) :
  UtilsFull.decodable process ->
  UtilsFull.wait_for_output fuel pattern c process timeout
  = match Utils.wait_for_output fuel pattern c process timeout with
    | Some (timed_out, c', process') => Some (Return timed_out, c', process')
    | None => None
    end.
Proof.
  intros Hvalid. unfold UtilsFull.wait_for_output, Utils.wait_for_output.
  cbn [time_time]. now apply wait_loop_decodable.
Qed.

(** The bytes 255 and 254 are not UTF-8: the call raises at the first
    line, and the line waited for, which comes next, is never read. *)
Example wait_for_output_raises_on_garbled_line :
  UtilsFull.wait_for_output 3 "boot" Scenarios.ticking_clock
    Scenarios.garbled_child 10
  = Some (Raise UnicodeDecodeError,
          mkClock (reading Scenarios.ticking_clock) 2,
          mkPopen (out_line Scenarios.garbled_child)
                  (out_at Scenarios.garbled_child) 1 (Some "pipe")).
Proof. reflexivity. Qed.

End UtilsFullFacts.

(** ** [src/config.py] *)
Module ConfigFacts.
Import Py Base Config.
Local Open Scope py_scope.

(** C7.  Two [config list] commands run one after the other in the same
    process print the same listing, the names of
    [PREDEFINED_PERFETTO_CONFIGS] in the order of the dict, and both return
    [None]. *)
Theorem config_list_twice_prints_same_names :
  forall (subprocess_run : Utils.Subprocess) (ANDROID_SDK_VERSION_T : Z)
         (PREDEFINED_PERFETTO_CONFIGS : list (string * Builder))
         (args : Namespace) (device : Device) (w : World),
    config_subcommand args = Some "list" ->
    let listing := join newline (map fst PREDEFINED_PERFETTO_CONFIGS) in
    let first :=
      execute_config_command subprocess_run ANDROID_SDK_VERSION_T
        PREDEFINED_PERFETTO_CONFIGS args device w in
    let second :=
      execute_config_command subprocess_run ANDROID_SDK_VERSION_T
        PREDEFINED_PERFETTO_CONFIGS args device (snd first) in
    fst first = Return None
    /\ fst second = Return None
    /\ trace (snd first) = (trace w ++ [EvPrint listing])%list
    /\ trace (snd second) = (trace (snd first) ++ [EvPrint listing])%list.
Proof.
  intros run sdk configs args device w Hlist listing first second.
  subst first second.
  unfold execute_config_command, create_config_command, bind.
  rewrite Hlist. cbn. repeat split.
Qed.

(** The witness: the catalog of three configs, listed twice. *)
Lemma config_list_twice_on_catalog :
  let args := Scenarios.config_args "list" "" None in
  let listing := join newline (map fst Scenarios.catalog) in
  let first :=
    execute_config_command Scenarios.working_shell 33 Scenarios.catalog args
      Scenarios.unplugged Scenarios.fresh_world in
  let second :=
    execute_config_command Scenarios.working_shell 33 Scenarios.catalog args
      Scenarios.unplugged (snd first) in
  fst first = Return None
  /\ fst second = Return None
  /\ trace (snd first) = (trace Scenarios.fresh_world ++ [EvPrint listing])%list
  /\ trace (snd second) = (trace (snd first) ++ [EvPrint listing])%list.
Proof.
  apply (config_list_twice_prints_same_names Scenarios.working_shell 33
           Scenarios.catalog (Scenarios.config_args "list" "" None)
           Scenarios.unplugged Scenarios.fresh_world).
  reflexivity.
Defined.

(** C8, as the code has it.  When the connectivity check fails, no other
    device method is called and the connection error is dropped: the
    builder is run with [ANDROID_SDK_VERSION_T].  If the builder returns an
    error, that error is returned and nothing is output; otherwise the
    config is written through the shell ([pull]) or printed ([show]). *)
Theorem show_or_pull_without_device_uses_default_sdk :
  forall (subprocess_run : Utils.Subprocess) (ANDROID_SDK_VERSION_T : Z)
         (PREDEFINED_PERFETTO_CONFIGS : list (string * Builder))
         (command : ConfigCommand) (device : Device) (w : World)
         (refused : ValidationError) (builder : Builder),
    connection_error device = Some refused ->
    lookup (str_of (cmd_config_name command)) PREDEFINED_PERFETTO_CONFIGS
      = Some builder ->
    let w1 :=
      mkWorld (fs w) (trace w ++ [EvDevice "check_device_connection"]) in
    execute_show_or_pull_command subprocess_run ANDROID_SDK_VERSION_T
      PREDEFINED_PERFETTO_CONFIGS command device w
    = match builder command ANDROID_SDK_VERSION_T with
      | (_, Some error) => (Return (Some error), w1)
      | (config, None) =>
          if String.eqb (get_type command) "config pull" then
            (Utils.run_subprocess subprocess_run
               ("cat > " ++ str_of (cmd_file_path command) ++ " "
                  ++ str_of config) Utils.shell_True ;;;
             ret None) w1
          else
            match config with
            | Some text =>
                (Return None,
                 mkWorld (fs w)
                   (trace w1
                      ++ [EvPrint
                            (join newline
                               (slice_2_minus2 (split_lines (strip text))))]))
            | None => (Raise (AttributeError "strip"), w1)
            end
      end.
Proof.
  intros run sdk configs command device w refused builder Hconn Hlookup w1.
  unfold execute_show_or_pull_command, check_device_connection.
  unfold bind at 1. unfold bind at 1. unfold emit at 1.
  unfold ret at 1. rewrite Hconn.
  unfold bind at 1. unfold ret at 1. rewrite Hlookup. fold w1.
  destruct (builder command sdk) as [config [error |]]; [reflexivity |].
  destruct (String.eqb (get_type command) "config pull"); [reflexivity |].
  destruct config as [text |]; reflexivity.
Qed.

(** The witness: [config show default] with no device attached prints the
    body of the here-document. *)
Lemma show_default_without_device :
  execute_show_or_pull_command Scenarios.working_shell 33 Scenarios.catalog
    (mkConfigCommand "config show" (Some "default") None None None None None
                     None None None)
    Scenarios.unplugged Scenarios.fresh_world
  = (Return None,
     mkWorld Scenarios.no_files
       [EvDevice "check_device_connection"; EvPrint "duration_ms: 10000"]).
Proof.
  rewrite (show_or_pull_without_device_uses_default_sdk
             Scenarios.working_shell 33 Scenarios.catalog _
             Scenarios.unplugged Scenarios.fresh_world
             (mkValidationError "There are currently no devices connected."
                                (Some "Connect a device."))
             Scenarios.heredoc_builder);
    reflexivity.
Defined.

(** C8 fails as worded: with a builder that rejects the command, the
    builder's error is returned and nothing is printed or run. *)
Lemma show_without_device_may_output_nothing :
  ~ Scenarios.proceeds_and_outputs_config Scenarios.working_shell 33
      Scenarios.strict_catalog
      (mkConfigCommand "config show" (Some "default") None None None None
                       None None None None)
      Scenarios.unplugged Scenarios.fresh_world.
Proof.
  unfold Scenarios.proceeds_and_outputs_config. vm_compute.
  intros [_ H]. discriminate H.
Qed.

(** C10, as the code has it.  For [config pull]: without a destination,
    the default one is stored and the answer is that of
    [verify_trigger_args] on the updated arguments; with a destination that
    is not an existing file, the answer is the file-path error; with an
    existing file, again that of [verify_trigger_args]. *)
Theorem verify_config_args_pull :
  forall (verify_trigger_args : Namespace -> Verified) (w : World)
         (args : Namespace),
    config_subcommand args = Some "pull" ->
    verify_config_args verify_trigger_args w args
    = match file_path args with
      | None =>
          verify_trigger_args
            (set_profiler (Some "perfetto")
               (set_runs (Some 1)
                  (set_file_path
                     (Some ("./" ++ config_name args ++ ".pbtxt")) args)))
      | Some path =>
          if os_path_isfile w path then
            verify_trigger_args
              (set_profiler (Some "perfetto") (set_runs (Some 1) args))
          else (None, Some (invalid_filepath_error path))
      end.
Proof.
  intros vta w args Hpull. unfold verify_config_args, verify_pull_path.
  rewrite Hpull. cbn [String.eqb Ascii.eqb Bool.eqb negb].
  destruct (file_path args) as [path |]; [| reflexivity].
  now destruct (os_path_isfile w path).
Qed.

(** The witness: [torq config pull default] gets [./default.pbtxt]. *)
Lemma verify_config_args_pull_default :
  verify_config_args Profiler.verify_trigger_args Scenarios.fresh_world
    (Scenarios.config_args "pull" "default" None)
  = (Some (set_profiler (Some "perfetto")
             (set_runs (Some 1)
                (Scenarios.config_args "pull" "default"
                   (Some "./default.pbtxt")))),
     None).
Proof.
  rewrite (verify_config_args_pull Profiler.verify_trigger_args
             Scenarios.fresh_world
             (Scenarios.config_args "pull" "default" None));
    reflexivity.
Defined.

(** C10 fails as worded: a [pull] without a destination, with one trigger
    name and two stop delays, is refused by [verify_trigger_args]. *)
Lemma pull_without_path_can_be_rejected :
  ~ Scenarios.default_path_and_no_error Profiler.verify_trigger_args
      Scenarios.fresh_world
      (Scenarios.with_triggers ["team.package.test-trigger-name"]
         [1000; 1000] (Scenarios.config_args "pull" "default" None)).
Proof.
  unfold Scenarios.default_path_and_no_error. intros H.
  destruct (H eq_refl eq_refl) as (args' & Hrun & _).
  vm_compute in Hrun. discriminate Hrun.
Qed.


(** The case of [test_verify_args_default_config_pull_invalid_filepath]. *)
Example verify_config_args_pull_invalid_filepath :
  verify_config_args Profiler.verify_trigger_args Scenarios.fresh_world
    (Scenarios.config_args "pull" "default" (Some "mock-invalid-file-path"))
  = (None, Some (invalid_filepath_error "mock-invalid-file-path")).
Proof. reflexivity. Qed.

(** [config pull default] on a host where the shell works. *)
Example pull_default_without_device :
  execute_show_or_pull_command Scenarios.working_shell 33 Scenarios.catalog
    (mkConfigCommand "config pull" (Some "default") (Some "./default.pbtxt")
                     None None None None None None None)
    Scenarios.unplugged Scenarios.fresh_world
  = (Return None,
     mkWorld Scenarios.no_files
       [EvDevice "check_device_connection";
        EvRun ("cat > ./default.pbtxt <<EOF" ++ newline ++ newline
                 ++ "duration_ms: 10000" ++ newline ++ newline ++ "EOF")]).
Proof. reflexivity. Qed.
End ConfigFacts.

(** ** [src/torq.py] *)
Module TorqFacts.
Import Py Base Torq.
Local Open Scope py_scope.

Lemma print_error_trace (error : ValidationError) (w : World) :
  print_error error w
  = (Return tt, mkWorld (fs w) (trace w ++ error_lines error)).
Proof.
  unfold print_error, error_lines, bind, print, emit, ret.
  destruct (suggestion error); cbn [fs trace];
    rewrite <- ?app_assoc; rewrite ?app_nil_r; reflexivity.
Qed.

Lemma error_lines_no_device (error : ValidationError) :
  filter is_device_event (error_lines error) = [].
Proof. unfold error_lines. now destruct (suggestion error). Qed.

Section Torq.

Variables verify_trigger_args verify_profiler_args verify_open_args
  : Namespace -> Verified.
Variable VmCommand : Type.
Variable create_vm_command : Namespace -> VmCommand.
Variable execute :
  Command VmCommand -> Device -> M (option ValidationError).
Variable AdbDevice : option string -> Device.

(** A command line that validation rejects is answered by printing the
    error: no device is created and no device method is called. *)
Lemma run_rejected (parsed : Namespace) (w : World)
    (kept : option Namespace) (error : ValidationError) :
  verify_args verify_trigger_args verify_profiler_args verify_open_args
    parsed w = (Return (kept, Some error), w) ->
  run verify_trigger_args verify_profiler_args verify_open_args VmCommand
      create_vm_command execute AdbDevice parsed w
  = (Return tt, mkWorld (fs w) (trace w ++ error_lines error)).
Proof.
  intros Hverify. unfold run. unfold bind at 1. rewrite Hverify.
  destruct kept; apply print_error_trace.
Qed.

End Torq.

End TorqFacts.

(** ** The spec's rules for triggers, clone names and the run loop *)
Module ProfilerFacts.
Import Py Base Profiler.

(** A stop-delay list that is neither a single value nor one value per
    trigger name is rejected, whatever else the command line says. *)
Lemma verify_trigger_args_rejects_count_mismatch
    (args : Namespace) (names : list string) (delays : list Z) :
  trigger_names args = Some names ->
  trigger_stop_delay_ms args = Some delays ->
  List.length delays <> 1%nat ->
  List.length delays <> List.length names ->
  exists error, verify_trigger_args args = (None, Some error).
Proof.
  intros Hnames Hdelays Hone Hcount. unfold verify_trigger_args.
  rewrite Hnames, Hdelays.
  destruct (dur_ms args); [eexists; reflexivity |].
  destruct (match runs args with Some r => 1 <? r | None => false end);
    [eexists; reflexivity |].
  apply Nat.eqb_neq in Hone, Hcount. rewrite Hone, Hcount. cbn.
  eexists; reflexivity.
Qed.

(** A single stop-delay value never raises the count error. *)
Lemma single_stop_delay_passes_count_check (args : Namespace) (d : Z) :
  trigger_stop_delay_ms args = Some [d] ->
  snd (verify_trigger_args args) <> Some stop_delay_count_error.
Proof.
  intros Hdelays. unfold verify_trigger_args.
  destruct (trigger_names args); [| discriminate].
  destruct (dur_ms args); [discriminate |].
  destruct (match runs args with Some r => 1 <? r | None => false end);
    [discriminate |].
  rewrite Hdelays. cbn. discriminate.
Qed.

(** What validation has accepted is what it was given, and its stop
    delays are a single value or as many as the trigger names. *)
Lemma verify_trigger_args_accepted
    (args validated : Namespace) (names : list string) (delays : list Z) :
  trigger_names args = Some names ->
  trigger_stop_delay_ms args = Some delays ->
  verify_trigger_args args = (Some validated, None) ->
  validated = args
  /\ (List.length delays = 1%nat \/ List.length delays = List.length names).
Proof.
  intros Hnames Hdelays. unfold verify_trigger_args.
  rewrite Hnames, Hdelays.
  destruct (dur_ms args); [discriminate |].
  destruct (match runs args with Some r => 1 <? r | None => false end);
    [discriminate |].
  destruct (List.length delays =? 1)%nat eqn:Hone; cbn [orb].
  - intros [= <-]. apply Nat.eqb_eq in Hone. now split; [| left].
  - destruct (List.length delays =? List.length names)%nat eqn:Hcount;
      [| discriminate].
    intros [= <-]. apply Nat.eqb_eq in Hcount. now split; [| right].
Qed.

Lemma combine_fst_snd {A B : Type} (l : list A) (l' : list B) :
  List.length l' = List.length l ->
  map fst (combine l l') = l /\ map snd (combine l l') = l'.
Proof.
  revert l'. induction l as [| x l IH]; intros [| y l'] Hlen;
    try discriminate; cbn; [now split |].
  injection Hlen as Hlen. destruct (IH l' Hlen) as [-> ->]. now split.
Qed.

(** With one value, or as many values as names, every trigger name gets
    a stop delay: the one value, or its own. *)
Lemma stop_delays_cover_names (names : list string) (delays : list Z) :
  List.length delays = 1%nat \/ List.length delays = List.length names ->
  map fst (stop_delays names delays) = names
  /\ (forall d, delays = [d] ->
        stop_delays names delays = map (fun name => (name, d)) names)
  /\ (List.length delays <> 1%nat ->
      map snd (stop_delays names delays) = delays).
Proof.
  intros Hcount. destruct delays as [| d [| d' delays]].
  - destruct Hcount as [Hone | Hcount]; [discriminate |].
    destruct names; [| discriminate]. cbn. repeat split; try discriminate.
  - cbn [stop_delays]. repeat split.
    + rewrite map_map. cbn. apply map_id.
    + now intros d0 [= <-].
    + intros Hone. now elim Hone.
  - destruct Hcount as [Hone | Hcount]; [discriminate |].
    unfold stop_delays.
    destruct (combine_fst_snd names (d :: d' :: delays) Hcount)
      as [Hfst Hsnd].
    repeat split; [exact Hfst | discriminate | intros _; exact Hsnd].
Qed.

(** The trigger rules hand back the namespace they accept as it is. *)
Lemma verify_trigger_args_keeps_config_options :
  ConfigShapes.keeps_subcommand_and_path verify_trigger_args
  /\ ConfigShapes.keeps_runs_and_profiler verify_trigger_args.
Proof.
  assert (Hsame : forall a a', verify_trigger_args a = (Some a', None) ->
                               a' = a).
  { intros a a'. unfold verify_trigger_args.
    destruct (trigger_names a) as [names |]; [| now intros [= <-]].
    destruct (dur_ms a); [discriminate |].
    destruct (match runs a with Some r => 1 <? r | None => false end);
      [discriminate |].
    destruct (trigger_stop_delay_ms a) as [delays |]; [| now intros [= <-]].
    destruct ((List.length delays =? 1)
              || (List.length delays =? List.length names))%nat;
      [now intros [= <-] | discriminate]. }
  split; intros a a' H; apply Hsame in H; now subst a'.
Qed.

(** The same through [verify_config_args], for [config show] and
    [config pull]. *)
Lemma verify_config_args_rejects_count_mismatch
    (args : Namespace) (names : list string) (delays : list Z)
    (sub : string) (w : World) :
  trigger_names args = Some names ->
  trigger_stop_delay_ms args = Some delays ->
  List.length delays <> 1%nat ->
  List.length delays <> List.length names ->
  config_subcommand args = Some sub ->
  sub <> "list" ->
  exists error,
    Config.verify_config_args verify_trigger_args w args
    = (None, Some error).
Proof.
  intros Hnames Hdelays Hone Hcount Hsub Hlist.
  unfold Config.verify_config_args, Config.verify_pull_path. rewrite Hsub.
  apply String.eqb_neq in Hlist. rewrite Hlist. cbn [negb].
  destruct (String.eqb sub "pull").
  - destruct (file_path args) as [path |].
    + destruct (os_path_isfile w path); cbn [negb].
      * now apply (verify_trigger_args_rejects_count_mismatch _ names delays).
      * eexists; reflexivity.
    + now apply (verify_trigger_args_rejects_count_mismatch _ names delays).
  - now apply (verify_trigger_args_rejects_count_mismatch _ names delays).
Qed.

(** And through [verify_profiler_args], for the default sub-command,
    whatever its other checks are. *)
Lemma verify_profiler_args_rejects_count_mismatch
    (before : Namespace -> Namespace + ValidationError)
    (after : Namespace -> Verified)
    (args : Namespace) (names : list string) (delays : list Z) :
  keeps_trigger_options before ->
  trigger_names args = Some names ->
  trigger_stop_delay_ms args = Some delays ->
  List.length delays <> 1%nat ->
  List.length delays <> List.length names ->
  exists error,
    verify_profiler_args before after args = (None, Some error).
Proof.
  intros Hkeeps Hnames Hdelays Hone Hcount. unfold verify_profiler_args.
  destruct (before args) as [args1 | error] eqn:Hbefore;
    [| eexists; reflexivity].
  destruct (Hkeeps args args1 Hbefore) as [Hnames1 Hdelays1].
  rewrite Hnames in Hnames1. rewrite Hdelays in Hdelays1.
  destruct (verify_trigger_args_rejects_count_mismatch
              args1 names delays Hnames1 Hdelays1 Hone Hcount)
    as [error ->].
  eexists; reflexivity.
Qed.

(** C3.  For a command with trigger names and stop-delay values:
    whenever validation accepts it, its TriggerSpec gives every trigger
    name, in order, exactly one stop delay, which is the single value if a
    single value was given (broadcast) and the value at the same position
    otherwise; a single value is never rejected for its count.  A list of
    stop-delay values that is not a single value and whose length differs
    from the number of trigger names has no TriggerSpec: it is rejected
    with a [ValidationError] by [verify_trigger_args], hence by
    [verify_profiler_args] for the default sub-command and by
    [verify_config_args] for [config show] and [config pull]; [run] then
    only prints the error: it creates no device and calls no device
    method. *)
Theorem stop_delay_broadcast_or_rejected_before_device :
  forall (names : list string) (delays : list Z) (args : Namespace),
    trigger_names args = Some names ->
    trigger_stop_delay_ms args = Some delays ->
    (forall validated DEFAULT_TRIGGER_STOP_DELAY_MS,
       verify_trigger_args args = (Some validated, None) ->
       exists spec,
         validated_trigger_spec DEFAULT_TRIGGER_STOP_DELAY_MS args = Some spec
         /\ map fst (spec_stop_delays spec) = names
         /\ (forall d, delays = [d] ->
               spec_stop_delays spec = map (fun name => (name, d)) names)
         /\ (List.length delays <> 1%nat ->
             map snd (spec_stop_delays spec) = delays))
    /\ (forall d, delays = [d] ->
          snd (verify_trigger_args args) <> Some stop_delay_count_error)
    /\ (List.length delays <> 1%nat ->
        List.length delays <> List.length names ->
        (exists error, verify_trigger_args args = (None, Some error))
        /\ (forall DEFAULT_TRIGGER_STOP_DELAY_MS,
              validated_trigger_spec DEFAULT_TRIGGER_STOP_DELAY_MS args = None)
        /\ forall (w : World)
                  (before : Namespace -> Namespace + ValidationError)
                  (after verify_open_args : Namespace -> Verified)
                  (VmCommand : Type)
                  (create_vm_command : Namespace -> VmCommand)
                  (execute : Torq.Command VmCommand -> Device ->
                             M (option ValidationError))
                  (AdbDevice : option string -> Device),
            (subcommands args = "profiler" /\ keeps_trigger_options before)
            \/ (subcommands args = "config"
                /\ exists sub, config_subcommand args = Some sub
                               /\ sub <> "list") ->
            exists error,
              Torq.run verify_trigger_args
                (verify_profiler_args before after) verify_open_args
                VmCommand create_vm_command execute AdbDevice args w
              = (Return tt,
                 mkWorld (fs w) (trace w ++ Torq.error_lines error))
              /\ filter Torq.is_device_event (Torq.error_lines error) = []).
Proof.
  intros names delays args Hnames Hdelays. split; [| split].
  - intros validated default Hok.
    destruct (verify_trigger_args_accepted args validated names delays
                Hnames Hdelays Hok) as [-> Hcount].
    unfold validated_trigger_spec, trigger_spec.
    rewrite Hok, Hnames, Hdelays. eexists. split; [reflexivity |].
    cbn [spec_stop_delays]. now apply stop_delays_cover_names.
  - intros d ->. now apply (single_stop_delay_passes_count_check args d).
  - intros Hone Hcount.
    destruct (verify_trigger_args_rejects_count_mismatch
                args names delays Hnames Hdelays Hone Hcount)
      as [error Herror].
    split; [now exists error |]. split.
    + intros default. unfold validated_trigger_spec. now rewrite Herror.
    + intros w before after voa Vm cvm execute adb
             [[Hprofiler Hkeeps] | [Hconfig (sub & Hsub & Hlist)]].
      * destruct (verify_profiler_args_rejects_count_mismatch
                    before after args names delays Hkeeps Hnames Hdelays
                    Hone Hcount) as [error' Herror'].
        exists error'. split; [| apply TorqFacts.error_lines_no_device].
        apply TorqFacts.run_rejected with (kept := None).
        unfold Torq.verify_args. rewrite Hprofiler. cbn.
        now rewrite Herror'.
      * destruct (verify_config_args_rejects_count_mismatch
                    args names delays sub w Hnames Hdelays Hone Hcount Hsub
                    Hlist) as [error' Herror'].
        exists error'. split; [| apply TorqFacts.error_lines_no_device].
        apply TorqFacts.run_rejected with (kept := None).
        unfold Torq.verify_args. rewrite Hconfig. cbn. now rewrite Herror'.
Qed.

(** The witness.  [torq --trigger-names a b --trigger-stop-delay-ms 1000
    2000 3000], as in [tests/trigger_unit_test.py]: two names and three
    stop delays; the error is printed and no device is created.  With the
    single stop delay 1000 the command is accepted and both triggers get
    1000. *)
Lemma two_triggers_three_stop_delays :
  (let args :=
     Scenarios.with_triggers
       ["team.package.test-trigger-name"; "team2.package2.test-trigger-name2"]
       [1000; 2000; 3000] Scenarios.profiler_args in
   exists error,
     Torq.run verify_trigger_args
       (verify_profiler_args Scenarios.no_check_before Scenarios.accept_all)
       Scenarios.accept_all unit (fun _ => tt)
       (fun _ _ => ret None) (fun _ => Scenarios.unplugged) args
       Scenarios.fresh_world
     = (Return tt,
        mkWorld (fs Scenarios.fresh_world)
                (trace Scenarios.fresh_world ++ Torq.error_lines error))
     /\ filter Torq.is_device_event (Torq.error_lines error) = [])
  /\ (let args :=
        Scenarios.with_triggers
          ["team.package.test-trigger-name";
           "team2.package2.test-trigger-name2"]
          [1000] Scenarios.profiler_args in
      exists spec,
        validated_trigger_spec 0 args = Some spec
        /\ spec_stop_delays spec
           = [("team.package.test-trigger-name", 1000);
              ("team2.package2.test-trigger-name2", 1000)]).
Proof.
  split; intros args.
  - destruct (stop_delay_broadcast_or_rejected_before_device
                ["team.package.test-trigger-name";
                 "team2.package2.test-trigger-name2"]
                [1000; 2000; 3000] args eq_refl eq_refl)
      as (_ & _ & Hrejected).
    destruct Hrejected as (_ & _ & Hrun); [discriminate | discriminate |].
    apply (Hrun Scenarios.fresh_world Scenarios.no_check_before
             Scenarios.accept_all Scenarios.accept_all unit (fun _ => tt)
             (fun _ _ => ret None) (fun _ => Scenarios.unplugged)).
    left. split; [reflexivity |].
    intros a a' [= <-]. now split.
  - destruct (stop_delay_broadcast_or_rejected_before_device
                ["team.package.test-trigger-name";
                 "team2.package2.test-trigger-name2"]
                [1000] args eq_refl eq_refl)
      as (Haccepted & _ & _).
    destruct (Haccepted args 0 eq_refl) as (spec & Hspec & _ & Hbroadcast & _).
    exists spec. split; [exact Hspec |]. exact (Hbroadcast 1000 eq_refl).
Defined.

(** One stop delay for two triggers is accepted and broadcast; two for two
    go one-to-one. *)
Example one_stop_delay_for_two_triggers :
  validated_trigger_spec 0
    (Scenarios.with_triggers ["a.b.c"; "d.e.f"] [1000]
       Scenarios.profiler_args)
  = Some (mkTriggerSpec [("a.b.c", 1000); ("d.e.f", 1000)] None None).
Proof. reflexivity. Qed.

Example two_stop_delays_for_two_triggers :
  validated_trigger_spec 0
    (Scenarios.with_triggers ["a.b.c"; "d.e.f"] [1000; 2000]
       Scenarios.profiler_args)
  = Some (mkTriggerSpec [("a.b.c", 1000); ("d.e.f", 2000)] None None).
Proof. reflexivity. Qed.

(** *** Clone snapshots *)

Lemma decimal_inj (a b : nat) : decimal a = decimal b -> a = b.
Proof.
  unfold decimal. intros Heq.
  assert (Huint : Nat.to_uint a = Nat.to_uint b).
  { apply (f_equal NilEmpty.uint_of_string) in Heq.
    rewrite !NilEmpty.usu in Heq. now injection Heq. }
  rewrite <- (DecimalNat.Unsigned.of_to a), <- (DecimalNat.Unsigned.of_to b).
  now rewrite Huint.
Qed.

Lemma append_inj_r (prefix a b : string) :
  (prefix ++ a)%string = (prefix ++ b)%string -> a = b.
Proof.
  induction prefix as [| ch prefix IH]; cbn; intros Heq;
    [assumption | injection Heq as Heq; now apply IH].
Qed.

Lemma clone_name_inj (base : string) (a b : nat) :
  clone_name base a = clone_name base b -> a = b.
Proof.
  unfold clone_name. intros Heq.
  apply append_inj_r in Heq. apply (append_inj_r ".") in Heq.
  now apply decimal_inj.
Qed.

(** The session after [times] more firings. *)
Lemma fire_closed_form (times : nat) :
  forall s : Session,
    fire times s
    = mkSession (base s) (next_suffix s + times)
                (artifacts s
                   ++ map (clone_name (base s)) (seq (next_suffix s) times)).
Proof.
  induction times as [| times IH]; intros s; cbn [fire seq map].
  - rewrite Nat.add_0_r, app_nil_r. now destruct s.
  - rewrite IH. cbn [clone_fires base next_suffix artifacts].
    rewrite <- app_assoc. cbn [app]. now rewrite Nat.add_succ_r.
Qed.

(** C4.  In a session that starts at suffix 0, after any number of
    [clone] firings the snapshots are, in firing order, [<base>.0],
    [<base>.1], ...: the snapshot of rank [n] is [<base>.<n>], the counter
    equals the number of firings so far, and no name occurs twice. *)
Theorem clone_snapshots_are_numbered_in_firing_order :
  forall (base : string) (times : nat),
    let s := fire times (start_session base) in
    artifacts s = map (clone_name base) (seq 0 times)
    /\ next_suffix s = times
    /\ next_suffix (clone_fires s) = S (next_suffix s)
    /\ NoDup (artifacts s)
    /\ forall n, (n < times)%nat ->
                 nth_error (artifacts s) n
                 = Some (base ++ "." ++ decimal n)%string.
Proof.
  intros base times s. subst s. rewrite fire_closed_form.
  cbn [start_session Profiler.base next_suffix artifacts app clone_fires
       Nat.add].
  repeat split.
  - apply Injective_map_NoDup; [| apply seq_NoDup].
    intros a b. apply clone_name_inj.
  - intros n Hn. rewrite nth_error_map.
    rewrite (nth_error_nth' (seq 0 times) 0%nat)
      by (now rewrite length_seq).
    rewrite seq_nth by assumption. reflexivity.
Qed.

(** The witness of the spec's example: two firings on the trace file give
    [.0] and [.1]. *)
Example clone_fires_twice :
  artifacts (fire 2 (start_session "/data/misc/perfetto-traces/trace"))
  = ["/data/misc/perfetto-traces/trace.0";
     "/data/misc/perfetto-traces/trace.1"].
Proof. reflexivity. Qed.

(** *** The run loop *)

Lemma full_session_step (between_dur_ms : Z) (run todo : nat) :
  full_session between_dur_ms run (S (S todo))
  = Iteration run :: InterRunSleep between_dur_ms
      :: full_session between_dur_ms (S run) (S todo).
Proof. reflexivity. Qed.

Section Loop.

Variable conversion_raises : bool.
Variable env : Environment.
Variable between_dur_ms : Z.
Variable runs : nat.

(** Whatever the session meets, what it does is the beginning of the
    full session. *)
Lemma run_loop_prefix :
  forall (todo run check : nat),
    (run + todo = S runs)%nat ->
    exists k,
      fst (run_loop conversion_raises env between_dur_ms runs run todo check)
      = firstn k (full_session between_dur_ms run todo).
Proof.
  induction todo as [| todo IH]; intros run check Hsum; cbn [run_loop].
  - now exists 0%nat.
  - destruct (cancelled_at env check); [now exists 0%nat |].
    destruct (fatal conversion_raises (outcome_of env run));
      [now exists 1%nat |].
    destruct (run =? runs)%nat eqn:Hlast; [now exists 1%nat |].
    destruct (cancelled_at env (S check)); [now exists 1%nat |].
    apply Nat.eqb_neq in Hlast.
    destruct todo as [| todo]; [lia |].
    destruct (IH (S run) (S (S check))) as [k Hk]; [lia |].
    destruct (run_loop conversion_raises env between_dur_ms runs (S run)
                (S todo) (S (S check))) as [later ending].
    cbn [fst] in *. exists (S (S k)).
    rewrite full_session_step. cbn [firstn]. now rewrite Hk.
Qed.

(** With no cancellation and no fatal outcome before the last iteration
    the session is the full one; it ends after the last iteration, with
    its fatal error if it has one. *)
Lemma run_loop_undisturbed :
  forall (todo run check : nat),
    (run + todo = S runs)%nat ->
    (forall i, (i < 2 * todo - 1)%nat ->
               cancelled_at env (check + i) = false) ->
    (forall k, (run <= k < runs)%nat ->
               fatal conversion_raises (outcome_of env k) = false) ->
    run_loop conversion_raises env between_dur_ms runs run todo check
    = (full_session between_dur_ms run todo,
       match todo with
       | O => Completed
       | S _ =>
           if fatal conversion_raises (outcome_of env runs)
           then Aborted runs else Completed
       end).
Proof.
  induction todo as [| todo IH]; intros run check Hsum Hcancel Hfatal;
    cbn [run_loop]; [reflexivity |].
  pose proof (Hcancel 0%nat) as Hfirst. rewrite Nat.add_0_r in Hfirst.
  rewrite Hfirst by lia.
  destruct (run =? runs)%nat eqn:Hlast.
  - apply Nat.eqb_eq in Hlast. assert (todo = 0%nat) by lia. subst todo run.
    now destruct (fatal conversion_raises (outcome_of env runs)).
  - apply Nat.eqb_neq in Hlast. rewrite Hfatal by lia.
    destruct todo as [| todo]; [lia |].
    pose proof (Hcancel 1%nat) as Hsecond.
    replace (check + 1)%nat with (S check) in Hsecond by lia.
    rewrite Hsecond by lia.
    rewrite (IH (S run) (S (S check)));
      [| lia | | intros k Hk; apply Hfatal; lia].
    + now rewrite full_session_step.
    + intros i Hi.
      replace (S (S check) + i)%nat with (check + (2 + i))%nat by lia.
      apply Hcancel. lia.
Qed.

End Loop.

Lemma sleeps_flat_map (between_dur_ms : Z) (l : list nat) :
  sleeps (flat_map (sleep_then_run between_dur_ms) l) = List.length l.
Proof.
  unfold sleeps. induction l as [| k l IH]; cbn; [reflexivity |].
  now f_equal.
Qed.

Lemma sleeps_firstn (k : nat) (t : list Step) :
  (sleeps (firstn k t) <= sleeps t)%nat.
Proof.
  unfold sleeps. revert k. induction t as [| s t IH]; intros [| k]; cbn;
    try lia.
  specialize (IH k). destruct (is_sleep s); cbn; lia.
Qed.

Lemma iterations_flat_map (between_dur_ms : Z) (l : list nat) :
  filter (fun s => negb (is_sleep s))
         (flat_map (sleep_then_run between_dur_ms) l)
  = map Iteration l.
Proof.
  induction l as [| k l IH]; cbn; [reflexivity | now f_equal].
Qed.

Lemma last_flat_map (between_dur_ms : Z) (l : list nat) :
  forall (first : Step) (d : Step),
    last (first :: flat_map (sleep_then_run between_dur_ms) l) d
    = last (first :: map Iteration l) d.
Proof.
  induction l as [| k l IH]; intros first d; [reflexivity |].
  cbn [flat_map sleep_then_run app map].
  change (last (first :: InterRunSleep between_dur_ms :: Iteration k
                  :: flat_map (sleep_then_run between_dur_ms) l) d)
    with (last (Iteration k
                  :: flat_map (sleep_then_run between_dur_ms) l) d).
  rewrite IH. reflexivity.
Qed.

Lemma last_iteration_seq (len start : nat) (d : Step) :
  last (map Iteration (seq start (S len))) d = Iteration (start + len).
Proof.
  rewrite seq_S, map_app. cbn [map]. apply last_last.
Qed.




(** A cancellation found after the first sleep, before the second
    iteration starts: the session ends with a sleep. *)
Example cancelled_before_second_iteration :
  execute_runs false Scenarios.cancelled_in_first_sleep 5000 3
  = ([Iteration 1; InterRunSleep 5000], Cancelled).
Proof. reflexivity. Qed.

Example three_quiet_runs :
  execute_runs false Scenarios.quiet_session 5000 3
  = ([Iteration 1; InterRunSleep 5000; Iteration 2; InterRunSleep 5000;
      Iteration 3], Completed).
Proof. reflexivity. Qed.

End ProfilerFacts.

(** ** [src/utils.py]: addresses, exclusive arguments, [sys.path] *)
Module UtilsCliFacts.
Import Py Base UtilsCli.

Lemma chars_append (a b : string) :
  chars (a ++ b) = (chars a ++ chars b)%list.
Proof.
  unfold chars. induction a as [| ch a IH]; cbn; [reflexivity |].
  now f_equal.
Qed.

(** [rfind] finds the last occurrence, or nothing when there is none. *)
Lemma rfind_spec (c : ascii) (s : string) :
  (rfind c s = -1 /\ ~ In c (chars s))
  \/ (exists host port,
        s = (host ++ String c port)%string
        /\ ~ In c (chars port)
        /\ rfind c s = Z.of_nat (String.length host)).
Proof.
  induction s as [| a rest IH]; cbn [rfind].
  - left. split; [reflexivity | intros []].
  - destruct IH as [[Hnone Hnotin] | (host & port & Heq & Hport & Hidx)].
    + rewrite Hnone. cbn [Z.leb Z.compare].
      destruct (Ascii.eqb a c) eqn:Hac.
      * apply Ascii.eqb_eq in Hac. subst a. right.
        exists EmptyString, rest. cbn. repeat split. exact Hnotin.
      * left. split; [reflexivity |]. cbn. intros [Heq | Hin].
        -- subst a. now rewrite Ascii.eqb_refl in Hac.
        -- now apply Hnotin.
    + rewrite Hidx.
      replace (0 <=? Z.of_nat (String.length host)) with true
        by (symmetry; apply Z.leb_le; lia).
      right. exists (String a host), port. subst rest. cbn [append].
      repeat split; [exact Hport |]. cbn [String.length]. lia.
Qed.

Lemma slice_from_app (host rest : string) :
  slice_from (String.length host) (host ++ rest) = rest.
Proof.
  induction host as [| a host IH]; cbn; [now destruct rest | exact IH].
Qed.

Lemma rfind_last (c : ascii) (host port : string) :
  ~ In c (chars port) ->
  rfind c (host ++ String c port) = Z.of_nat (String.length host).
Proof.
  intros Hport. induction host as [| a host IH]; cbn [append rfind].
  - destruct (rfind_spec c port) as [[Hnone _] | (h & p & Heq & _ & _)].
    + rewrite Hnone. cbn [Z.leb Z.compare]. now rewrite Ascii.eqb_refl.
    + exfalso. apply Hport. subst port. rewrite chars_append.
      apply in_or_app. right. now left.
  - rewrite IH.
    replace (0 <=? Z.of_nat (String.length host)) with true
      by (symmetry; apply Z.leb_le; lia).
    cbn [String.length]. lia.
Qed.

(** X1.  [extract_port] returns [None] exactly for an address without a
    colon. *)
Theorem extract_port_none_iff_no_colon :
  forall address : string,
    extract_port address = None <-> ~ In ":"%char (chars address).
Proof.
  intros address. unfold extract_port.
  destruct (rfind_spec ":"%char address)
    as [[Hnone Hnotin] | (host & port & Heq & Hport & Hidx)].
  - rewrite Hnone. cbn. split; [intros _; exact Hnotin | reflexivity].
  - rewrite Hidx.
    replace (Z.of_nat (String.length host) =? -1) with false
      by (symmetry; apply Z.eqb_neq; lia).
    split; [discriminate |]. intros Hnotin. exfalso. apply Hnotin.
    subst address. rewrite chars_append. apply in_or_app. right. now left.
Qed.

(** X2.  [extract_port] returns [port] exactly when the address is
    [host:port] for some host and a port without a colon: it cuts at the
    last colon and keeps what follows, which may be empty. *)
Theorem extract_port_some_iff_after_last_colon :
  forall address port : string,
    extract_port address = Some port
    <-> exists host,
          address = (host ++ ":" ++ port)%string
          /\ ~ In ":"%char (chars port).
Proof.
  intros address port. split.
  - unfold extract_port.
    destruct (rfind_spec ":"%char address)
      as [[Hnone _] | (host & port' & Heq & Hport & Hidx)].
    + rewrite Hnone. discriminate.
    + rewrite Hidx.
      replace (Z.of_nat (String.length host) =? -1) with false
        by (symmetry; apply Z.eqb_neq; lia).
      replace (Z.to_nat (Z.of_nat (String.length host) + 1))
        with (String.length (host ++ ":")).
      2:{ clear. induction host as [| a host IH]; cbn [append String.length];
          [reflexivity |]. rewrite IH. lia. }
      intros Hsome. injection Hsome as Hsome. exists host.
      assert (Hsplit : address = ((host ++ ":") ++ port')%string).
      { subst address. clear. induction host as [| a host IH]; cbn;
          [reflexivity | now rewrite <- IH]. }
      rewrite Hsplit, slice_from_app in Hsome. subst port'.
      split; [exact Heq | exact Hport].
  - intros (host & Heq & Hport). unfold extract_port. subst address.
    cbn [append]. rewrite (rfind_last ":"%char host port Hport).
    replace (Z.of_nat (String.length host) =? -1) with false
      by (symmetry; apply Z.eqb_neq; lia).
    f_equal.
    replace (Z.to_nat (Z.of_nat (String.length host) + 1))
      with (String.length (host ++ ":")).
    2:{ clear. induction host as [| a host IH]; cbn [append String.length];
        [reflexivity |]. rewrite IH. lia. }
    replace (host ++ String ":" port)%string
      with ((host ++ ":") ++ port)%string.
    + apply slice_from_app.
    + clear. induction host as [| a host IH]; cbn;
        [reflexivity | now rewrite IH].
Qed.

Example extract_port_of_tcp_address :
  extract_port "localhost:5555" = Some "5555"
  /\ extract_port "vsock:3:5555" = Some "5555"
  /\ extract_port "emulator-5554" = None.
Proof. repeat split. Qed.

Lemma count_given_zero {A : Type} (args : list (option A)) :
  count_given args = 0%nat
  <-> forall j b, nth_error args j <> Some (Some b).
Proof.
  induction args as [| [a |] args IH]; cbn.
  - split; [intros _ [| j] b; discriminate | reflexivity].
  - split; [discriminate |]. intros H. exfalso. now apply (H 0%nat a).
  - unfold count_given in IH. rewrite IH. split.
    + intros H [| j] b; [discriminate | apply H].
    + intros H j b. apply (H (S j) b).
Qed.

(** X3.  [are_mutually_exclusive] is true exactly when no two of its
    arguments are given (that is, are not [None]). *)
Theorem are_mutually_exclusive_iff_no_two_given :
  forall (A : Type) (args : list (option A)),
    are_mutually_exclusive args = true
    <-> forall i j a b,
          nth_error args i = Some (Some a) ->
          nth_error args j = Some (Some b) ->
          i = j.
Proof.
  intros A args. unfold are_mutually_exclusive.
  fold (count_given args).
  rewrite orb_true_iff, !Nat.eqb_eq.
  induction args as [| [a |] args IH].
  - split; [intros _ [| i] j a b; discriminate | now left].
  - change (count_given (Some a :: args)) with (S (count_given args)).
    split.
    + intros [H | H]; [discriminate |]. injection H as H.
      pose proof (proj1 (count_given_zero args) H) as Hnone. clear H.
      rename Hnone into H.
      intros [| i] [| j] x y Hi Hj; try reflexivity.
      * exfalso. now apply (H j y).
      * exfalso. now apply (H i x).
      * exfalso. now apply (H j y).
    + intros H. right. f_equal. apply (proj2 (count_given_zero args)).
      intros j b Hj. specialize (H 0%nat (S j) a b eq_refl Hj).
      discriminate.
  - change (count_given (None :: args)) with (count_given args).
    rewrite IH. split.
    + intros H [| i] [| j] x y Hi Hj; try discriminate.
      f_equal. now apply (H i j x y).
    + intros H i j x y Hi Hj.
      specialize (H (S i) (S j) x y Hi Hj). now injection H.
Qed.

Lemma prefix_iff (p s : string) :
  String.prefix p s = true <-> exists rest, s = (p ++ rest)%string.
Proof.
  revert s. induction p as [| a p IH]; intros s.
  - split; [intros _; now exists s | now destruct s].
  - destruct s as [| b s]; cbn.
    + split; [discriminate | intros [rest Heq]; discriminate].
    + destruct (ascii_dec a b) as [-> | Hab].
      * rewrite IH. split; intros [rest Heq]; exists rest;
          [now subst | now injection Heq].
      * split; [discriminate |]. intros [rest Heq]. injection Heq as Hb _.
        now subst.
Qed.

Lemma contains_unfold (p s : string) :
  contains p s
  = String.prefix p s
    || match s with
       | EmptyString => false
       | String _ rest => contains p rest
       end.
Proof. now destruct s. Qed.

(** [pattern in line]: the pattern occurs somewhere in the line. *)
Lemma contains_iff (p s : string) :
  contains p s = true <-> exists a b, s = (a ++ p ++ b)%string.
Proof.
  split.
  - induction s as [| c s IH]; rewrite contains_unfold, orb_true_iff.
    + intros [H | H]; [| discriminate].
      apply prefix_iff in H. destruct H as [rest ->].
      now exists EmptyString, rest.
    + intros [H | H].
      * apply prefix_iff in H. destruct H as [rest ->].
        now exists EmptyString, rest.
      * destruct (IH H) as (a & b & ->). now exists (String c a), b.
  - intros (a & b & ->). induction a as [| c a IH].
    + rewrite contains_unfold. cbn [append].
      replace (String.prefix p (p ++ b)) with true; [reflexivity |].
      symmetry. apply prefix_iff. now exists b.
    + rewrite contains_unfold. cbn [append]. rewrite IH.
      apply orb_true_r.
Qed.

(** X4.  [is_bazel] is true exactly when some entry of [sys.path] has
    [bazel-bin/torq.runfiles] somewhere inside it. *)
Theorem is_bazel_iff_some_path_mentions_runfiles :
  forall sys_path : list string,
    is_bazel sys_path = true
    <-> exists path before after,
          In path sys_path
          /\ path = (before ++ "bazel-bin/torq.runfiles" ++ after)%string.
Proof.
  intros sys_path. unfold is_bazel. rewrite existsb_exists. split.
  - intros (path & Hin & Hcontains). apply contains_iff in Hcontains.
    destruct Hcontains as (a & b & Heq). now exists path, a, b.
  - intros (path & a & b & Hin & Heq). exists path. split; [exact Hin |].
    apply contains_iff. now exists a, b.
Qed.

End UtilsCliFacts.

(** ** [src/utils.py]: [set_default_subparser] *)
Module SubparserFacts.
Import Py Base UtilsCli.

Section Scan.

Variable global_opts : list (string * nat).

Lemma nth_error_middle (pre : list string) (a : string) (post : list string) :
  nth_error (pre ++ a :: post) (List.length pre) = Some a.
Proof.
  rewrite nth_error_app2 by lia. now rewrite Nat.sub_diag.
Qed.

(** The loop stops within as many tests as there are words left, plus
    one. *)
Lemma scan_has_enough_fuel (argv : list string) :
  forall (fuel idx insertion_idx : nat) (found : bool),
    (List.length argv - idx < fuel)%nat ->
    scan fuel global_opts argv idx insertion_idx found <> ScanOutOfFuel.
Proof.
  induction fuel as [| fuel IH]; intros idx ins found Hfuel; [lia |].
  cbn [scan]. destruct (nth_error argv idx) as [arg |] eqn:Harg;
    [| discriminate].
  assert (Hidx : (idx < List.length argv)%nat)
    by (apply nth_error_Some; congruence).
  destruct (dict_get arg global_opts) as [nargs |].
  - destruct found.
    + destruct (is_help arg); [apply IH; lia | discriminate].
    + apply IH. lia.
  - apply IH. lia.
Qed.

(** The insertion index never falls below 1. *)
Lemma scan_done_from_one (argv : list string) :
  forall (fuel idx insertion_idx : nat) (found : bool) (k : nat),
    scan fuel global_opts argv idx insertion_idx found = ScanDone k ->
    (1 <= insertion_idx)%nat ->
    (1 <= k)%nat.
Proof.
  induction fuel as [| fuel IH]; intros idx ins found k Hscan Hins;
    [discriminate |].
  cbn [scan] in Hscan. destruct (nth_error argv idx) as [arg |].
  - destruct (dict_get arg global_opts) as [nargs |].
    + destruct found.
      * destruct (is_help arg); [| discriminate].
        now apply (IH _ _ _ _ Hscan).
      * apply (IH _ _ _ _ Hscan). lia.
    + now apply (IH _ _ _ _ Hscan).
  - injection Hscan as <-. exact Hins.
Qed.

(** An error names a global option of the command line that is not a
    help flag. *)
Lemma scan_error_names_global (argv : list string) :
  forall (fuel idx insertion_idx : nat) (found : bool)
         (error : ValidationError),
    scan fuel global_opts argv idx insertion_idx found = ScanError error ->
    exists arg,
      In arg argv
      /\ error = misplaced_global_error arg
      /\ dict_get arg global_opts <> None
      /\ is_help arg = false.
Proof.
  induction fuel as [| fuel IH]; intros idx ins found error Hscan;
    [discriminate |].
  cbn [scan] in Hscan. destruct (nth_error argv idx) as [arg |] eqn:Harg;
    [| discriminate].
  destruct (dict_get arg global_opts) as [nargs |] eqn:Hget.
  - destruct found.
    + destruct (is_help arg) eqn:Hhelp; [now apply (IH _ _ _ _ Hscan) |].
      injection Hscan as <-. exists arg.
      repeat split; try assumption.
      * now apply nth_error_In with idx.
      * congruence.
    + now apply (IH _ _ _ _ Hscan).
  - now apply (IH _ _ _ _ Hscan).
Qed.

(** Leading blocks move the index and the insertion index together. *)
Lemma scan_blocks (post : list string) :
  forall (blocks : list (string * list string)) (pre argv : list string)
         (idx fuel : nat),
    argv = (pre ++ flat_blocks blocks ++ post)%list ->
    idx = List.length pre ->
    Forall (block_ok global_opts) blocks ->
    scan (List.length blocks + fuel) global_opts argv idx idx false
    = scan fuel global_opts argv
           (idx + List.length (flat_blocks blocks))
           (idx + List.length (flat_blocks blocks)) false.
Proof.
  induction blocks as [| [g vals] blocks IH];
    intros pre argv idx fuel Hargv Hidx Hok.
  - cbn. now rewrite !Nat.add_0_r.
  - inversion Hok as [| b bs Hblock Hrest]; subst b bs.
    unfold block_ok in Hblock. cbn [fst snd] in Hblock.
    cbn [List.length Nat.add scan].
    assert (Hnth : nth_error argv idx = Some g).
    { subst argv idx. unfold flat_blocks. cbn [map List.concat fst snd].
      rewrite <- !app_assoc. apply nth_error_middle. }
    rewrite Hnth, Hblock.
    rewrite (IH (pre ++ g :: vals)%list argv
                (idx + List.length vals + 1)%nat fuel).
    + unfold flat_blocks. cbn [map List.concat fst snd].
      rewrite length_app. cbn [List.length].
      replace (idx + List.length vals + 1
               + List.length (List.concat
                    (map (fun block => fst block :: snd block) blocks)))%nat
        with (idx + S (List.length vals
                       + List.length (List.concat
                            (map (fun block => fst block :: snd block)
                                 blocks))))%nat by lia.
      reflexivity.
    + subst argv. unfold flat_blocks. cbn [map List.concat fst snd].
      now rewrite <- !app_assoc.
    + subst idx. rewrite length_app. cbn [List.length]. lia.
    + exact Hrest.
Qed.

(** After the first plain word, harmless words are passed over. *)
Lemma scan_harmless (post : list string) :
  forall (mid pre argv : list string) (idx fuel insertion_idx : nat),
    argv = (pre ++ mid ++ post)%list ->
    idx = List.length pre ->
    Forall (harmless global_opts) mid ->
    scan (List.length mid + fuel) global_opts argv idx insertion_idx true
    = scan fuel global_opts argv (idx + List.length mid) insertion_idx true.
Proof.
  induction mid as [| a mid IH]; intros pre argv idx fuel ins Hargv Hidx Hok.
  - cbn. now rewrite Nat.add_0_r.
  - inversion Hok as [| b bs Ha Hrest]; subst b bs.
    cbn [List.length Nat.add scan].
    assert (Hnth : nth_error argv idx = Some a).
    { subst argv idx. cbn [app]. apply nth_error_middle. }
    rewrite Hnth.
    assert (Hnext :
      scan (List.length mid + fuel) global_opts argv (idx + 1) ins true
      = scan fuel global_opts argv (idx + S (List.length mid)) ins true).
    { rewrite (IH (pre ++ [a])%list argv (idx + 1)%nat fuel ins).
      - f_equal. lia.
      - subst argv. now rewrite <- app_assoc.
      - subst idx. rewrite length_app. reflexivity.
      - exact Hrest. }
    destruct Ha as [Hnone | [Hhelp Hzero]].
    + rewrite Hnone. exact Hnext.
    + rewrite Hzero, Hhelp. cbn [Nat.add]. exact Hnext.
Qed.

(** The rest of a command line that starts with a plain word and goes on
    harmlessly leaves the insertion index alone. *)
Lemma scan_plain_rest (rest pre argv : list string)
    (idx fuel insertion_idx : nat) (found : bool) :
  argv = (pre ++ rest)%list ->
  idx = List.length pre ->
  starts_plain global_opts rest ->
  Forall (harmless global_opts) rest ->
  scan (S (List.length rest + fuel)) global_opts argv idx insertion_idx found
  = ScanDone insertion_idx.
Proof.
  intros Hargv Hidx Hplain Hok.
  assert (Hend : forall f ins b,
             scan (S f) global_opts argv (List.length argv) ins b
             = ScanDone ins).
  { intros f ins b. cbn [scan].
    now rewrite (proj2 (nth_error_None argv (List.length argv))
                       (Nat.le_refl _)). }
  destruct rest as [| x tail].
  - rewrite app_nil_r in Hargv. subst argv idx. apply Hend.
  - cbn in Hplain. inversion Hok as [| b bs _ Htail]; subst b bs.
    cbn [List.length Nat.add].
    change (scan (S (S (List.length tail + fuel))) global_opts argv idx
                 insertion_idx found)
      with (match nth_error argv idx with
            | None => ScanDone insertion_idx
            | Some arg =>
                match dict_get arg global_opts with
                | Some nargs =>
                    if found then
                      if is_help arg then
                        scan (S (List.length tail + fuel)) global_opts argv
                             (idx + (nargs + 1)) insertion_idx found
                      else ScanError (misplaced_global_error arg)
                    else
                      scan (S (List.length tail + fuel)) global_opts argv
                           (idx + nargs + 1) (idx + nargs + 1) found
                | None =>
                    scan (S (List.length tail + fuel)) global_opts argv
                         (idx + 1) insertion_idx true
                end
            end).
    assert (Hnth : nth_error argv idx = Some x).
    { subst argv idx. apply nth_error_middle. }
    rewrite Hnth, Hplain.
    replace (S (List.length tail + fuel))
      with (List.length tail + S fuel)%nat by lia.
    rewrite (scan_harmless [] tail (pre ++ [x])%list argv (idx + 1)%nat
               (S fuel) insertion_idx).
    + replace (idx + 1 + List.length tail)%nat with (List.length argv).
      * apply Hend.
      * subst argv idx. rewrite length_app. cbn [List.length]. lia.
    + subst argv. rewrite app_nil_r, <- app_assoc. reflexivity.
    + subst idx. rewrite length_app. reflexivity.
    + exact Htail.
Qed.

End Scan.


Lemma scan_step_plain (global_opts : list (string * nat))
    (argv : list string) (fuel idx insertion_idx : nat) (found : bool)
    (arg : string) :
  nth_error argv idx = Some arg ->
  dict_get arg global_opts = None ->
  scan (S fuel) global_opts argv idx insertion_idx found
  = scan fuel global_opts argv (idx + 1) insertion_idx true.
Proof. intros Hnth Hget. cbn [scan]. now rewrite Hnth, Hget. Qed.

Lemma scan_step_misplaced (global_opts : list (string * nat))
    (argv : list string) (fuel idx insertion_idx nargs : nat)
    (arg : string) :
  nth_error argv idx = Some arg ->
  dict_get arg global_opts = Some nargs ->
  is_help arg = false ->
  scan (S fuel) global_opts argv idx insertion_idx true
  = ScanError (misplaced_global_error arg).
Proof.
  intros Hnth Hget Hhelp. cbn [scan]. now rewrite Hnth, Hget, Hhelp.
Qed.

Lemma scan_step_leading (global_opts : list (string * nat))
    (argv : list string) (fuel idx insertion_idx nargs : nat)
    (arg : string) :
  nth_error argv idx = Some arg ->
  dict_get arg global_opts = Some nargs ->
  scan (S fuel) global_opts argv idx insertion_idx false
  = scan fuel global_opts argv (idx + nargs + 1) (idx + nargs + 1) false.
Proof. intros Hnth Hget. cbn [scan]. now rewrite Hnth, Hget. Qed.

Lemma scan_past_end (global_opts : list (string * nat))
    (argv : list string) (fuel idx insertion_idx : nat) (found : bool) :
  (List.length argv <= idx)%nat ->
  scan (S fuel) global_opts argv idx insertion_idx found
  = ScanDone insertion_idx.
Proof.
  intros Hidx. cbn [scan]. now rewrite (proj2 (nth_error_None argv idx) Hidx).
Qed.

Lemma blocks_no_longer_than_words (blocks : list (string * list string)) :
  (List.length blocks <= List.length (flat_blocks blocks))%nat.
Proof.
  unfold flat_blocks. induction blocks as [| [g vals] blocks IH];
    cbn [map List.concat List.length fst snd app]; [lia |].
  rewrite length_app. lia.
Qed.

Lemma list_insert_after (pre rest : list string) (name : string) :
  list_insert (List.length pre) name (pre ++ rest) = (pre ++ name :: rest)%list.
Proof.
  unfold list_insert.
  rewrite firstn_app, Nat.sub_diag, firstn_all, firstn_O, app_nil_r.
  rewrite skipn_app, Nat.sub_diag, skipn_all. reflexivity.
Qed.

Lemma list_insert_past_end (k : nat) (argv : list string) (name : string) :
  (List.length argv <= k)%nat ->
  list_insert k name argv = (argv ++ [name])%list.
Proof.
  intros Hk. unfold list_insert.
  now rewrite firstn_all2, skipn_all2 by assumption.
Qed.

Lemma existsb_pointwise {A : Type} (f g : A -> bool) (l : list A) :
  (forall a, f a = g a) -> existsb f l = existsb g l.
Proof.
  intros Hfg. induction l as [| a l IH]; cbn; [reflexivity |].
  now rewrite Hfg, IH.
Qed.

Lemma existsb_never {A : Type} (l : list A) :
  existsb (fun _ => false) l = false.
Proof. induction l as [| a l IH]; cbn; [reflexivity | exact IH]. Qed.

(** What the search for a sub-command sees at the insertion index. *)
Lemma subparser_found_at (self : Parser) (pre rest : list string) :
  subparser_found self (pre ++ rest) (List.length pre)
  = starts_with_subcommand self rest.
Proof.
  unfold subparser_found, starts_with_subcommand, is_subcommand.
  destruct rest as [| x tail].
  - rewrite app_nil_r, Nat.ltb_irrefl.
    etransitivity; [| apply (existsb_never (subparsers_actions self))].
    apply existsb_pointwise. now intros [names |].
  - rewrite nth_error_middle.
    replace (List.length pre <? List.length (pre ++ x :: tail))%nat
      with true
      by (symmetry; apply Nat.ltb_lt; rewrite length_app; cbn; lia).
    apply existsb_pointwise. now intros [names |].
Qed.

Lemma subparser_not_found_past_end (self : Parser) (argv : list string)
    (k : nat) :
  (List.length argv <= k)%nat ->
  subparser_found self argv k = false.
Proof.
  intros Hk. unfold subparser_found.
  replace (k <? List.length argv)%nat with false
    by (symmetry; apply Nat.ltb_ge; exact Hk).
  etransitivity; [| apply (existsb_never (subparsers_actions self))].
  apply existsb_pointwise. now intros [names |].
Qed.

(** After leading global options with their values, and with nothing
    misplaced behind them, the scan ends with the index just behind the
    blocks. *)
Lemma scan_after_globals (global_opts : list (string * nat))
    (prog : string) (blocks : list (string * list string))
    (rest : list string) :
  Forall (block_ok global_opts) blocks ->
  starts_plain global_opts rest ->
  Forall (harmless global_opts) rest ->
  let argv := prog :: (flat_blocks blocks ++ rest)%list in
  scan (S (List.length argv)) global_opts argv 1 1 false
  = ScanDone (List.length (prog :: flat_blocks blocks)).
Proof.
  intros Hblocks Hplain Hrest argv.
  pose proof (blocks_no_longer_than_words blocks) as Hlen.
  replace (S (List.length argv))
    with (List.length blocks
          + S (List.length rest
               + (1 + List.length (flat_blocks blocks)
                  - List.length blocks)))%nat.
  2:{ subst argv. cbn [List.length]. rewrite length_app. lia. }
  rewrite (scan_blocks global_opts rest blocks [prog] argv 1%nat);
    [| reflexivity | reflexivity | exact Hblocks].
  apply (scan_plain_rest global_opts rest (prog :: flat_blocks blocks) argv);
    [reflexivity | cbn [List.length]; lia | exact Hplain | exact Hrest].
Qed.

Lemma set_default_subparser_after_globals_eq (self : Parser)
    (name prog : string) (blocks : list (string * list string))
    (rest : list string) :
  Forall (block_ok (global_opts_of self)) blocks ->
  starts_plain (global_opts_of self) rest ->
  Forall (harmless (global_opts_of self)) rest ->
  set_default_subparser self name (prog :: (flat_blocks blocks ++ rest)%list)
  = Some (None,
          if starts_with_subcommand self rest
          then prog :: (flat_blocks blocks ++ rest)%list
          else prog :: (flat_blocks blocks ++ name :: rest)%list).
Proof.
  intros Hblocks Hplain Hrest. unfold set_default_subparser.
  rewrite (scan_after_globals (global_opts_of self) prog blocks rest
             Hblocks Hplain Hrest).
  change (prog :: (flat_blocks blocks ++ rest)%list)
    with ((prog :: flat_blocks blocks) ++ rest)%list.
  rewrite subparser_found_at, list_insert_after. reflexivity.
Qed.

(** X6.  A command line made of the program name, global options each
    followed by as many values as its [nargs], and then words none of
    which is a misplaced global option, is accepted: it is left alone if
    the word behind the global options is a sub-command, and otherwise
    gets the default name right behind the global options. *)
Theorem set_default_subparser_inserts_behind_global_options :
  forall (self : Parser) (name prog : string)
         (blocks : list (string * list string)) (rest : list string),
    Forall (block_ok (global_opts_of self)) blocks ->
    starts_plain (global_opts_of self) rest ->
    Forall (harmless (global_opts_of self)) rest ->
    set_default_subparser self name
      (prog :: (flat_blocks blocks ++ rest)%list)
    = Some (None,
            if starts_with_subcommand self rest
            then prog :: (flat_blocks blocks ++ rest)%list
            else prog :: (flat_blocks blocks ++ name :: rest)%list).
Proof.
  intros self name prog blocks rest Hblocks Hplain Hrest.
  unfold set_default_subparser.
  rewrite (scan_after_globals (global_opts_of self) prog blocks rest
             Hblocks Hplain Hrest).
  f_equal. f_equal.
  change (prog :: (flat_blocks blocks ++ rest)%list)
    with ((prog :: flat_blocks blocks) ++ rest)%list.
  rewrite subparser_found_at.
  destruct (starts_with_subcommand self rest); [reflexivity |].
  apply (list_insert_after (prog :: flat_blocks blocks) rest name).
Qed.

(** The witness, [test_set_default_subparser]:
    [torq --serial 0.0.0.0 -d 3000]. *)
Lemma set_default_subparser_after_serial :
  set_default_subparser Scenarios.torq_parser "profiler"
    ["torq"; "--serial"; "0.0.0.0"; "-d"; "3000"]
  = Some (None, ["torq"; "--serial"; "0.0.0.0"; "profiler"; "-d"; "3000"]).
Proof.
  apply (set_default_subparser_inserts_behind_global_options
           Scenarios.torq_parser "profiler" "torq"
           [("--serial", ["0.0.0.0"])] ["-d"; "3000"]).
  - repeat constructor.
  - reflexivity.
  - repeat constructor.
Defined.

(** X7.  A global option that is not a help flag and comes after a plain
    word is refused, whatever follows it: the call returns the error that
    names the option and leaves [sys.argv] as it is. *)
Theorem set_default_subparser_rejects_late_global_option :
  forall (self : Parser) (name prog plain late : string)
         (blocks : list (string * list string))
         (between rest : list string) (nargs : nat),
    Forall (block_ok (global_opts_of self)) blocks ->
    dict_get plain (global_opts_of self) = None ->
    Forall (harmless (global_opts_of self)) between ->
    dict_get late (global_opts_of self) = Some nargs ->
    is_help late = false ->
    let argv :=
      prog :: (flat_blocks blocks ++ plain :: between ++ late :: rest)%list in
    set_default_subparser self name argv
    = Some (Some (misplaced_global_error late), argv).
Proof.
  intros self name prog plain late blocks between rest nargs Hblocks Hplain
         Hbetween Hlate Hhelp argv.
  unfold set_default_subparser.
  pose proof (blocks_no_longer_than_words blocks) as Hlen.
  set (opts := global_opts_of self) in *.
  set (behind := List.length (prog :: flat_blocks blocks)).
  assert (Hscan :
    scan (S (List.length argv)) opts argv 1 1 false
    = ScanError (misplaced_global_error late)).
  { replace (S (List.length argv))
      with (List.length blocks
            + S (List.length between
                 + S (List.length rest + 2
                      + (List.length (flat_blocks blocks)
                         - List.length blocks))))%nat.
    2:{ subst argv. cbn [List.length]. rewrite !length_app.
        cbn [List.length]. rewrite length_app. cbn [List.length]. lia. }
    rewrite (scan_blocks opts (plain :: between ++ late :: rest) blocks
               [prog] argv 1%nat);
      [| reflexivity | reflexivity | exact Hblocks].
    change (1 + List.length (flat_blocks blocks))%nat with behind.
    rewrite (scan_step_plain opts argv _ behind behind false plain);
      [| | exact Hplain].
    2:{ subst argv behind.
        change (prog :: (flat_blocks blocks
                           ++ plain :: between ++ late :: rest)%list)
          with ((prog :: flat_blocks blocks)
                  ++ plain :: between ++ late :: rest)%list.
        apply nth_error_middle. }
    rewrite (scan_harmless opts (late :: rest) between
               ((prog :: flat_blocks blocks) ++ [plain])%list argv).
    - apply (scan_step_misplaced opts argv _ _ behind nargs late);
        [| exact Hlate | exact Hhelp].
      subst argv behind.
      replace (List.length (prog :: flat_blocks blocks) + 1
               + List.length between)%nat
        with (List.length
                (((prog :: flat_blocks blocks) ++ [plain]) ++ between)%list)
        by (rewrite !length_app; cbn [List.length]; lia).
      replace (prog :: (flat_blocks blocks
                          ++ plain :: between ++ late :: rest)%list)
        with ((((prog :: flat_blocks blocks) ++ [plain]) ++ between)
                ++ late :: rest)%list.
      + apply nth_error_middle.
      + cbn [app]. rewrite <- !app_assoc. reflexivity.
    - subst argv. cbn [app]. rewrite <- !app_assoc. reflexivity.
    - subst behind. rewrite length_app. reflexivity.
    - exact Hbetween. }
  now rewrite Hscan.
Qed.

(** The witness, the case of
    [test_set_default_subparser_with_global_option_after_non_global_option]:
    [torq -d 3000 --serial 0.0.0.0]. *)
Lemma set_default_subparser_serial_after_dur :
  set_default_subparser Scenarios.torq_parser "profiler"
    ["torq"; "-d"; "3000"; "--serial"; "0.0.0.0"]
  = Some (Some (misplaced_global_error "--serial"),
          ["torq"; "-d"; "3000"; "--serial"; "0.0.0.0"]).
Proof.
  apply (set_default_subparser_rejects_late_global_option
           Scenarios.torq_parser "profiler" "torq" "-d" "--serial" []
           ["3000"] ["0.0.0.0"] 1%nat).
  - constructor.
  - reflexivity.
  - repeat constructor.
  - reflexivity.
  - reflexivity.
Defined.

(** X8.  If the last global option is short of values, the insertion
    index lies behind the end of the list: the default name is appended,
    where it is read as one of the missing values. *)
Theorem set_default_subparser_appends_when_values_are_missing :
  forall (self : Parser) (name prog last : string)
         (blocks : list (string * list string)) (vals : list string)
         (nargs : nat),
    Forall (block_ok (global_opts_of self)) blocks ->
    dict_get last (global_opts_of self) = Some nargs ->
    (List.length vals < nargs)%nat ->
    let argv := prog :: (flat_blocks blocks ++ last :: vals)%list in
    set_default_subparser self name argv = Some (None, (argv ++ [name])%list).
Proof.
  intros self name prog last blocks vals nargs Hblocks Hlast Hshort argv.
  unfold set_default_subparser.
  pose proof (blocks_no_longer_than_words blocks) as Hlen.
  set (opts := global_opts_of self) in *.
  set (behind := List.length (prog :: flat_blocks blocks)).
  assert (Hargv : List.length argv = (behind + 1 + List.length vals)%nat).
  { subst argv behind. cbn [List.length]. rewrite length_app.
    cbn [List.length]. lia. }
  assert (Hscan :
    scan (S (List.length argv)) opts argv 1 1 false
    = ScanDone (behind + nargs + 1)).
  { replace (S (List.length argv))
      with (List.length blocks
            + S (S (List.length vals + 1
                    + (List.length (flat_blocks blocks)
                       - List.length blocks))))%nat.
    2:{ rewrite Hargv. subst behind. cbn [List.length]. lia. }
    rewrite (scan_blocks opts (last :: vals) blocks [prog] argv 1%nat);
      [| reflexivity | reflexivity | exact Hblocks].
    change (1 + List.length (flat_blocks blocks))%nat with behind.
    rewrite (scan_step_leading opts argv _ behind behind nargs last);
      [| | exact Hlast].
    - apply scan_past_end. lia.
    - subst argv behind.
      change (prog :: (flat_blocks blocks ++ last :: vals)%list)
        with ((prog :: flat_blocks blocks) ++ last :: vals)%list.
      apply nth_error_middle. }
  rewrite Hscan.
  rewrite subparser_not_found_past_end by lia.
  rewrite list_insert_past_end by lia. reflexivity.
Qed.

(** The witness: [torq --serial]. *)
Lemma set_default_subparser_serial_without_value :
  set_default_subparser Scenarios.torq_parser "profiler" ["torq"; "--serial"]
  = Some (None, ["torq"; "--serial"; "profiler"]).
Proof.
  apply (set_default_subparser_appends_when_values_are_missing
           Scenarios.torq_parser "profiler" "torq" "--serial" [] []
           1%nat).
  - constructor.
  - reflexivity.
  - cbn. lia.
Defined.

(** X9.  Calling [set_default_subparser] a second time changes nothing
    more, when the default name is a sub-command and not a global
    option. *)
Theorem set_default_subparser_twice :
  forall (self : Parser) (name prog : string)
         (blocks : list (string * list string)) (rest : list string),
    Forall (block_ok (global_opts_of self)) blocks ->
    starts_plain (global_opts_of self) rest ->
    Forall (harmless (global_opts_of self)) rest ->
    is_subcommand self name = true ->
    dict_get name (global_opts_of self) = None ->
    exists argv',
      set_default_subparser self name
        (prog :: (flat_blocks blocks ++ rest)%list) = Some (None, argv')
      /\ set_default_subparser self name argv' = Some (None, argv').
Proof.
  intros self name prog blocks rest Hblocks Hplain Hrest Hsub Hname.
  rewrite (set_default_subparser_after_globals_eq self name prog blocks rest
             Hblocks Hplain Hrest).
  destruct (starts_with_subcommand self rest) eqn:Hstart;
    eexists; (split; [reflexivity |]).
  - rewrite (set_default_subparser_after_globals_eq self name prog blocks
               rest Hblocks Hplain Hrest).
    now rewrite Hstart.
  - rewrite (set_default_subparser_after_globals_eq self name prog blocks
               (name :: rest) Hblocks).
    + cbn [starts_with_subcommand]. now rewrite Hsub.
    + exact Hname.
    + constructor; [now left | exact Hrest].
Qed.

(** The witness: [torq -d 3000] becomes [torq profiler -d 3000] and
    stays so. *)
Lemma set_default_subparser_twice_on_dur :
  exists argv',
    set_default_subparser Scenarios.torq_parser "profiler"
      ("torq" :: (flat_blocks [] ++ ["-d"; "3000"])%list) = Some (None, argv')
    /\ set_default_subparser Scenarios.torq_parser "profiler" argv'
       = Some (None, argv').
Proof.
  apply (set_default_subparser_twice Scenarios.torq_parser "profiler" "torq"
           [] ["-d"; "3000"]).
  - constructor.
  - reflexivity.
  - repeat constructor.
  - reflexivity.
  - reflexivity.
Defined.

(** The other cases of [tests/utils_unit_test.py]: a help flag after a
    plain word is let through, and a leading one counts as a global
    option. *)
Example set_default_subparser_with_help_after_non_global_option :
  set_default_subparser Scenarios.torq_parser "profiler"
    ["torq"; "profiler"; "-d"; "3000"; "--help"]
  = Some (None, ["torq"; "profiler"; "-d"; "3000"; "--help"]).
Proof. reflexivity. Qed.

Example set_default_subparser_with_global_help :
  set_default_subparser Scenarios.torq_parser "profiler" ["torq"; "--help"]
  = Some (None, ["torq"; "--help"; "profiler"]).
Proof. reflexivity. Qed.

(** *** The dict of global options *)

Lemma dict_get_set (k k' : string) (v : nat) (d : list (string * nat)) :
  dict_get k (dict_set k' v d)
  = if String.eqb k k' then Some v else dict_get k d.
Proof.
  induction d as [| [key val] d IH]; cbn [dict_set dict_get].
  - now rewrite String.eqb_sym.
  - destruct (String.eqb key k') eqn:Hkey; cbn [dict_get].
    + apply String.eqb_eq in Hkey. subst key.
      rewrite (String.eqb_sym k' k). now destruct (String.eqb k k').
    + rewrite IH. destruct (String.eqb key k) eqn:Hk; [| reflexivity].
      apply String.eqb_eq in Hk. subst key. now rewrite Hkey.
Qed.

Lemma dict_get_after_action (k : string) (nargs : nat) :
  forall (opts : list string) (d : list (string * nat)),
    dict_get k (fold_left (fun d' opt => dict_set opt nargs d') opts d)
    = if existsb (String.eqb k) opts then Some nargs else dict_get k d.
Proof.
  induction opts as [| opt opts IH]; intros d; cbn [fold_left existsb];
    [reflexivity |].
  rewrite IH, dict_get_set.
  destruct (String.eqb k opt); cbn [orb]; [| reflexivity].
  now destruct (existsb (String.eqb k) opts).
Qed.

Lemma dict_get_after_actions (k : string) :
  forall (acts : list (list string * nat)) (d : list (string * nat)),
    dict_get k
      (fold_left
         (fun opts action =>
            fold_left (fun opts' opt => dict_set opt (snd action) opts')
                      (fst action) opts)
         acts d)
    = match declared_nargs k acts with
      | Some nargs => Some nargs
      | None => dict_get k d
      end.
Proof.
  induction acts as [| action acts IH]; intros d;
    cbn [fold_left declared_nargs]; [reflexivity |].
  rewrite IH. destruct (declared_nargs k acts); [reflexivity |].
  rewrite dict_get_after_action.
  now destruct (existsb (String.eqb k) (fst action)).
Qed.

Lemma declared_nargs_some_iff (arg : string)
    (acts : list (list string * nat)) :
  declared_nargs arg acts <> None
  <-> exists action, In action acts /\ In arg (fst action).
Proof.
  induction acts as [| action acts IH]; cbn [declared_nargs].
  - split; [congruence | intros (a & [] & _)].
  - destruct (declared_nargs arg acts) as [n |].
    + split; [| discriminate]. intros _.
      destruct (proj1 IH ltac:(discriminate)) as (a & Hin & Harg).
      exists a. split; [now right | exact Harg].
    + destruct (existsb (String.eqb arg) (fst action)) eqn:Hhere.
      * split; [| discriminate]. intros _. exists action.
        split; [now left |]. apply existsb_exists in Hhere.
        destruct Hhere as (opt & Hin & Heq).
        apply String.eqb_eq in Heq. now subst opt.
      * split; [congruence |]. intros (a & [-> | Hin] & Harg).
        -- assert (Hex : existsb (String.eqb arg) (fst a) = true).
           { apply existsb_exists. exists arg.
             split; [exact Harg | apply String.eqb_refl]. }
           congruence.
        -- exfalso. apply (proj2 IH); [| reflexivity].
           now exists a.
Qed.

(** X23.  A word of the command line counts as a global option exactly
    when it is an option string of one of the parser's actions, and the
    number of values skipped behind it is the [nargs] of the last action
    that lists it. *)
Theorem global_opts_are_the_declared_option_strings :
  forall (self : Parser) (arg : string),
    dict_get arg (global_opts_of self) = declared_nargs arg (actions self)
    /\ (dict_get arg (global_opts_of self) <> None
        <-> exists action,
              In action (actions self) /\ In arg (fst action)).
Proof.
  intros self arg.
  assert (Heq : dict_get arg (global_opts_of self)
                = declared_nargs arg (actions self)).
  { unfold global_opts_of. rewrite dict_get_after_actions.
    now destruct (declared_nargs arg (actions self)). }
  split; [exact Heq |]. rewrite Heq. apply declared_nargs_some_iff.
Qed.
End SubparserFacts.

(** ** [src/utils.py]: [set_default_subparser] with [nargs] as [argparse]
    has it *)
Module SubparserFullFacts.
Import Py Base.
Import UtilsFull.

Lemma py_index_in_range {A : Type} (l : list A) (i : Z) :
  0 <= i < Z.of_nat (List.length l) ->
  exists x, py_index l i = Some x /\ In x l.
Proof.
  intros Hi. unfold py_index.
  replace (0 <=? i) with true by (symmetry; apply Z.leb_le; lia).
  destruct (nth_error l (Z.to_nat i)) as [x |] eqn:Hx.
  - exists x. split; [reflexivity | now apply nth_error_In with (Z.to_nat i)].
  - apply nth_error_None in Hx. lia.
Qed.

Lemma dict_set_natural (k : string) (v : Nargs) (d : list (string * Nargs)) :
  natural v ->
  Forall (fun kv => natural (snd kv)) d ->
  Forall (fun kv => natural (snd kv)) (dict_set k v d).
Proof.
  intros Hv. induction 1 as [| [k' v'] d Hk Hd IH]; cbn [dict_set].
  - now constructor.
  - destruct (String.eqb k' k); constructor; assumption.
Qed.

Lemma dict_get_natural (k : string) (d : list (string * Nargs)) (v : Nargs) :
  Forall (fun kv => natural (snd kv)) d ->
  dict_get k d = Some v ->
  natural v.
Proof.
  induction 1 as [| [k' v'] d Hk Hd IH]; cbn [dict_get]; [discriminate |].
  destruct (String.eqb k' k); [| exact IH].
  intros [= <-]. exact Hk.
Qed.

(** Every value of [global_opts] comes from an action with an option
    string. *)
Lemma global_opts_natural (self : Parser) :
  nargs_natural self ->
  Forall (fun kv => natural (snd kv)) (global_opts_of self).
Proof.
  unfold nargs_natural, global_opts_of.
  assert (Hgen : forall (acts : list (list string * Nargs))
                        (d : list (string * Nargs)),
             Forall (fun action => fst action = [] \/ natural (snd action))
                    acts ->
             Forall (fun kv => natural (snd kv)) d ->
             Forall (fun kv => natural (snd kv))
                    (fold_left
                       (fun opts action =>
                          fold_left
                            (fun opts' opt => dict_set opt (snd action) opts')
                            (fst action) opts) acts d)).
  { induction acts as [| [opts nargs] acts IH]; intros d Hacts Hd;
      cbn [fold_left fst snd]; [exact Hd |].
    inversion Hacts as [| ? ? Hhere Hlater]; subst.
    apply IH; [exact Hlater |]. cbn [fst snd] in Hhere.
    destruct Hhere as [-> | Hnargs]; [exact Hd |].
    clear IH Hacts Hlater. revert d Hd.
    induction opts as [| opt opts IHopts]; intros d Hd; cbn [fold_left];
      [exact Hd |].
    apply IHopts. now apply dict_set_natural. }
  intros Hacts. apply Hgen; [exact Hacts | constructor].
Qed.

Section Scan.

Variable global_opts : list (string * Nargs).
Hypothesis global_opts_ok : Forall (fun kv => natural (snd kv)) global_opts.
Variable argv : list string.

(** With natural [nargs] the index moves forward at every round, so the
    loop ends within as many tests as there are words left, plus one; it
    raises nothing; the insertion index never falls below 1; and an
    error names a global option of the command line that is not a help
    flag. *)
Lemma scan_spec :
  forall (fuel : nat) (idx insertion_idx : Z) (found : bool),
    1 <= idx ->
    1 <= insertion_idx ->
    (Z.to_nat (Z.of_nat (List.length argv) - idx) < fuel)%nat ->
    match scan fuel global_opts argv idx insertion_idx found with
    | ScanDone k => 1 <= k
    | ScanError error =>
        exists arg,
          In arg argv
          /\ error = UtilsCli.misplaced_global_error arg
          /\ dict_get arg global_opts <> None
          /\ UtilsCli.is_help arg = false
    | ScanRaise _ | ScanOutOfFuel => False
    end.
Proof.
  induction fuel as [| fuel IH]; intros idx ins found Hidx Hins Hfuel;
    [lia |].
  cbn [scan].
  destruct (idx <? Z.of_nat (List.length argv)) eqn:Hlt; [| exact Hins].
  apply Z.ltb_lt in Hlt.
  destruct (py_index_in_range argv idx) as (arg & -> & Harg); [lia |].
  destruct (dict_get arg global_opts) as [nargs |] eqn:Hget.
  - pose proof (dict_get_natural _ _ _ global_opts_ok Hget) as Hnat.
    destruct nargs as [n | | text]; cbn [natural] in Hnat;
      try contradiction.
    destruct found.
    + destruct (UtilsCli.is_help arg) eqn:Hhelp.
      * cbn [nargs_plus_one]. apply IH; lia.
      * exists arg. repeat split; try assumption. congruence.
    + cbn [idx_plus_nargs]. apply IH; lia.
  - apply IH; lia.
Qed.

End Scan.

Lemma find_subparser_returns (acts : list (option (list string)))
    (argv : list string) (k : Z) :
  0 <= k ->
  exists found, find_subparser acts argv k = Return found.
Proof.
  intros Hk. induction acts as [| [names |] acts IH]; cbn [find_subparser].
  - now exists false.
  - destruct (k <? Z.of_nat (List.length argv)) eqn:Hlt; [| exact IH].
    apply Z.ltb_lt in Hlt.
    destruct (py_index_in_range argv k) as (arg & -> & _); [lia |].
    destruct (existsb (String.eqb arg) names); [now exists true | exact IH].
  - exact IH.
Qed.



Example set_default_subparser_torq_serial :
  set_default_subparser 6 Scenarios.torq_parser_int "profiler"
    ["torq"; "--serial"; "abc"; "-d"; "7"]
  = Some (Return None, ["torq"; "--serial"; "abc"; "profiler"; "-d"; "7"]).
Proof. reflexivity. Qed.

(** Without the assumption the call need not come to an end: an option
    with [nargs = -1] as the first word sends the index back to where it
    was, whatever the number of rounds. *)
Lemma set_default_subparser_negative_nargs_never_returns (fuel : nat) :
  set_default_subparser fuel Scenarios.backward_parser "profiler"
    ["torq"; "--back"; "config"; "list"]
  = None.
Proof.
  unfold set_default_subparser.
  replace (scan fuel (global_opts_of Scenarios.backward_parser)
             ["torq"; "--back"; "config"; "list"] 1 1 false)
    with ScanOutOfFuel; [reflexivity |].
  induction fuel as [| fuel IH]; [reflexivity |]. exact IH.
Qed.

(** An option without [nargs] (that is [None]) as the first word: adding
    it to the index raises [TypeError]. *)
Example set_default_subparser_nargs_none :
  set_default_subparser 3
    (mkParser [(["--out-dir"], NargsNone)] [Some ["profiler"]]) "profiler"
    ["torq"; "--out-dir"; "/tmp"]
  = Some (Raise (TypeError
                   "unsupported operand type(s) for +: 'int' and 'NoneType'"),
          ["torq"; "--out-dir"; "/tmp"]).
Proof. reflexivity. Qed.

(** *** Natural [nargs]: the functions of [UtilsCli] *)

Lemma dict_set_int_nargs (k : string) (v : nat) (d : list (string * nat)) :
  map int_nargs (UtilsCli.dict_set k v d)
  = dict_set k (NargsInt (Z.of_nat v)) (map int_nargs d).
Proof.
  induction d as [| [k' v'] d IH]; cbn; [reflexivity |].
  destruct (String.eqb k' k); cbn; [reflexivity | now rewrite IH].
Qed.

Lemma dict_get_int_nargs (k : string) (d : list (string * nat)) :
  dict_get k (map int_nargs d)
  = option_map (fun v => NargsInt (Z.of_nat v)) (UtilsCli.dict_get k d).
Proof.
  induction d as [| [k' v'] d IH]; cbn; [reflexivity |].
  destruct (String.eqb k' k); [reflexivity | exact IH].
Qed.

Lemma global_opts_of_natural_nargs (self : UtilsCli.Parser) :
  global_opts_of (of_natural_nargs self)
  = map int_nargs (UtilsCli.global_opts_of self).
Proof.
  unfold global_opts_of, UtilsCli.global_opts_of, of_natural_nargs.
  cbn [actions].
  change (@nil (string * Nargs)) with (map int_nargs []).
  generalize (@nil (string * nat)) as d.
  induction (UtilsCli.actions self) as [| [opts nargs] acts IH]; intros d;
    cbn [map fold_left fst snd]; [reflexivity |].
  rewrite <- IH. f_equal. clear IH. revert d.
  induction opts as [| opt opts IHopts]; intros d; cbn [fold_left];
    [reflexivity |].
  now rewrite <- IHopts, dict_set_int_nargs.
Qed.

Lemma py_index_of_nat {A : Type} (l : list A) (i : nat) :
  py_index l (Z.of_nat i) = nth_error l i.
Proof.
  unfold py_index.
  replace (0 <=? Z.of_nat i) with true by (symmetry; apply Z.leb_le; lia).
  now rewrite Nat2Z.id.
Qed.

Lemma scan_natural_nargs (d : list (string * nat)) (argv : list string) :
  forall (fuel idx insertion_idx : nat) (found : bool),
    scan fuel (map int_nargs d) argv (Z.of_nat idx) (Z.of_nat insertion_idx)
         found
    = scan_of (UtilsCli.scan fuel d argv idx insertion_idx found).
Proof.
  induction fuel as [| fuel IH]; intros idx ins found; [reflexivity |].
  cbn [scan UtilsCli.scan]. rewrite py_index_of_nat.
  destruct (nth_error argv idx) as [arg |] eqn:Harg.
  - replace (Z.of_nat idx <? Z.of_nat (List.length argv)) with true.
    2:{ symmetry. apply Z.ltb_lt.
        assert (idx < List.length argv)%nat
          by (apply nth_error_Some; congruence).
        lia. }
    rewrite dict_get_int_nargs.
    destruct (UtilsCli.dict_get arg d) as [nargs |]; cbn [option_map].
    + destruct found.
      * destruct (UtilsCli.is_help arg); [| reflexivity].
        cbn [nargs_plus_one].
        replace (Z.of_nat idx + (Z.of_nat nargs + 1))
          with (Z.of_nat (idx + (nargs + 1))) by lia.
        apply IH.
      * cbn [idx_plus_nargs].
        replace (Z.of_nat idx + Z.of_nat nargs + 1)
          with (Z.of_nat (idx + nargs + 1)) by lia.
        apply IH.
    + replace (Z.of_nat idx + 1) with (Z.of_nat (idx + 1)) by lia.
      apply IH.
  - replace (Z.of_nat idx <? Z.of_nat (List.length argv)) with false;
      [reflexivity |].
    symmetry. apply Z.ltb_ge. apply nth_error_None in Harg. lia.
Qed.

Lemma find_subparser_natural (self : UtilsCli.Parser) (argv : list string)
    (k : nat) :
  find_subparser (UtilsCli.subparsers_actions self) argv (Z.of_nat k)
  = Return (UtilsCli.subparser_found self argv k).
Proof.
  unfold UtilsCli.subparser_found.
  induction (UtilsCli.subparsers_actions self) as [| [names |] acts IH];
    cbn [find_subparser existsb]; [reflexivity | | exact IH].
  rewrite py_index_of_nat.
  destruct (k <? List.length argv)%nat eqn:Hk.
  - replace (Z.of_nat k <? Z.of_nat (List.length argv)) with true
      by (symmetry; apply Z.ltb_lt; apply Nat.ltb_lt in Hk; lia).
    apply Nat.ltb_lt in Hk.
    destruct (nth_error argv k) as [arg |] eqn:Harg.
    + cbn [andb]. destruct (existsb (String.eqb arg) names);
        [reflexivity | exact IH].
    + apply nth_error_None in Harg. lia.
  - replace (Z.of_nat k <? Z.of_nat (List.length argv)) with false
      by (symmetry; apply Z.ltb_ge; apply Nat.ltb_ge in Hk; lia).
    cbn [andb orb]. exact IH.
Qed.

(** For a parser whose [nargs] are natural numbers, the call is the one
    of [UtilsCli]: it returns, with the same value and the same list. *)
Lemma set_default_subparser_natural_nargs (self : UtilsCli.Parser)
    (name : string) (argv : list string) :
  set_default_subparser (S (List.length argv)) (of_natural_nargs self) name
                        argv
  = match UtilsCli.set_default_subparser self name argv with
    | Some (returned, argv') => Some (Return returned, argv')
    | None => None
    end.
Proof.
  unfold set_default_subparser, UtilsCli.set_default_subparser.
  rewrite global_opts_of_natural_nargs.
  change 1 with (Z.of_nat 1).
  rewrite scan_natural_nargs.
  destruct (UtilsCli.scan (S (List.length argv)) (UtilsCli.global_opts_of self)
              argv 1 1 false) as [k | error |]; cbn [scan_of];
    try reflexivity.
  change (subparsers_actions (of_natural_nargs self))
    with (UtilsCli.subparsers_actions self).
  rewrite find_subparser_natural.
  destruct (UtilsCli.subparser_found self argv k); [reflexivity |].
  unfold py_insert, UtilsCli.list_insert.
  replace (0 <=? Z.of_nat k) with true by (symmetry; apply Z.leb_le; lia).
  now rewrite Nat2Z.id.
Qed.

End SubparserFullFacts.

(** ** [src/utils.py]: more on the waits and the conversion *)
Module UtilsMoreFacts.
Import Py Utils.

(** X10.  With a budget that is zero or negative, and a clock that does
    not go back between its first two readings, [wait_for_output] returns
    [True] at once: it reads no line and leaves the process as it is. *)
Theorem wait_for_output_without_budget_reads_nothing :
  forall (fuel : nat) (pattern : string) (c : Clock) (process : Popen)
         (timeout : Z),
    timeout <= 0 ->
    reading c (asked c) <= reading c (S (asked c)) ->
    wait_for_output (S fuel) pattern c process timeout
    = Some (true, mkClock (reading c) (S (S (asked c))), process).
Proof.
  intros fuel pattern c process timeout Hbudget Hclock.
  unfold wait_for_output. cbn [time_time wait_loop reading asked].
  replace (reading c (S (asked c)) - reading c (asked c) <? timeout)
    with false by (symmetry; apply Z.ltb_ge; lia).
  reflexivity.
Qed.

Lemma wait_for_output_without_budget_on_ticking_clock :
  wait_for_output 1 "boot" Scenarios.ticking_clock Scenarios.prompt_child 0
  = Some (true, mkClock (reading Scenarios.ticking_clock) 2,
          Scenarios.prompt_child).
Proof.
  apply (wait_for_output_without_budget_reads_nothing
           0 "boot" Scenarios.ticking_clock Scenarios.prompt_child 0).
  - lia.
  - cbn. lia.
Defined.

Lemma contains_empty_pattern (line : string) : contains "" line = true.
Proof. now destruct line. Qed.

(** X11.  The empty pattern is found in the first line read that
    decodes: if the first test of the budget passes, [wait_for_output]
    comes to an end after one read; if the line is valid UTF-8 it returns
    [False] and sets [process.stderr] to [None], and otherwise
    [line.decode()] raises [UnicodeDecodeError] and [process.stderr] is
    left alone. *)
Theorem wait_for_output_empty_pattern_stops_at_first_line :
  forall (fuel : nat) (c : Clock) (process : Popen) (timeout : Z),
    within_budget c timeout 0 = true ->
    UtilsFull.wait_for_output (S fuel) "" c process timeout
    = Some (if utf8_valid (ith_line process 0) then Return false
            else Raise UnicodeDecodeError,
            mkClock (reading c) (S (S (asked c))),
            mkPopen (out_line process) (out_at process) (S (reads process))
                    (if utf8_valid (ith_line process 0) then None
                     else popen_stderr process)).
Proof.
  intros fuel c process timeout Hfirst. unfold within_budget in Hfirst.
  rewrite Nat.add_0_r in Hfirst.
  unfold UtilsFull.wait_for_output, ith_line. rewrite Nat.add_0_r.
  cbn [time_time UtilsFull.wait_loop reading asked readline].
  rewrite Hfirst. unfold decode.
  destruct (utf8_valid (out_line process (reads process)));
    [| reflexivity].
  rewrite contains_empty_pattern. reflexivity.
Qed.

(** The witness: an empty line at end of file, and a line that is not
    UTF-8. *)
Lemma wait_for_output_empty_pattern_on_finished_child :
  UtilsFull.wait_for_output 1 "" Scenarios.ticking_clock
    Scenarios.finished_child 3
  = Some (Return false, mkClock (reading Scenarios.ticking_clock) 2,
          mkPopen (out_line Scenarios.finished_child)
                  (out_at Scenarios.finished_child) 1 None)
  /\ UtilsFull.wait_for_output 1 "" Scenarios.ticking_clock
       Scenarios.garbled_child 3
     = Some (Raise UnicodeDecodeError,
             mkClock (reading Scenarios.ticking_clock) 2,
             mkPopen (out_line Scenarios.garbled_child)
                     (out_at Scenarios.garbled_child) 1 (Some "pipe")).
Proof.
  split.
  - apply (wait_for_output_empty_pattern_stops_at_first_line
             0 Scenarios.ticking_clock Scenarios.finished_child 3).
    reflexivity.
  - apply (wait_for_output_empty_pattern_stops_at_first_line
             0 Scenarios.ticking_clock Scenarios.garbled_child 3).
    reflexivity.
Defined.

(** The loop reads the clock once per test and one line per test passed. *)
Lemma wait_loop_accounting (pattern : string) (start_time timeout : Z) :
  forall (fuel : nat) (c : Clock) (process : Popen) (b : bool) (c' : Clock)
         (process' : Popen),
    wait_loop fuel pattern start_time timeout c process
      = Some (b, c', process') ->
    exists n,
      reads process' = (reads process + n)%nat
      /\ asked c' = (asked c + n + if b then 1 else 0)%nat
      /\ popen_stderr process'
         = (if b then popen_stderr process else None)
      /\ (if b then True else (1 <= n)%nat)
      /\ reading c' = reading c
      /\ out_line process' = out_line process
      /\ out_at process' = out_at process.
Proof.
  induction fuel as [| fuel IH]; intros c process b c' process' Hrun;
    [discriminate |].
  cbn [wait_loop time_time readline] in Hrun.
  destruct (reading c (asked c) - start_time <? timeout).
  - destruct (contains pattern (out_line process (reads process))).
    + injection Hrun as <- <- <-. exists 1%nat. cbn. repeat split; lia.
    + apply IH in Hrun.
      destruct Hrun as (n & Hr & Ha & He & Hn & Hc & Hl & Ht).
      cbn [reads asked popen_stderr reading out_line out_at] in *.
      exists (S n). repeat split; try assumption; try lia.
      destruct b; [exact I | lia].
  - injection Hrun as <- <- <-. exists 0%nat. cbn. repeat split; lia.
Qed.

(** X12.  What a call of [wait_for_output] consumes: if it reads [n]
    lines it reads the clock [n + 2] times when it times out and [n + 1]
    times, with [n >= 1], when it finds the pattern; on a timeout
    [process.stderr] is left as it was. *)
Theorem wait_for_output_reads_clock_once_per_line :
  forall (fuel : nat) (pattern : string) (c : Clock) (process : Popen)
         (timeout : Z) (timed_out : bool) (c' : Clock) (process' : Popen),
    wait_for_output fuel pattern c process timeout
      = Some (timed_out, c', process') ->
    exists n,
      reads process' = (reads process + n)%nat
      /\ asked c' = (asked c + 1 + n + if timed_out then 1 else 0)%nat
      /\ popen_stderr process'
         = (if timed_out then popen_stderr process else None)
      /\ (if timed_out then True else (1 <= n)%nat).
Proof.
  intros fuel pattern c process timeout b c' process' Hrun.
  unfold wait_for_output, time_time in Hrun.
  apply wait_loop_accounting in Hrun.
  destruct Hrun as (n & Hr & Ha & He & Hn & _).
  cbn [asked] in Ha. exists n. repeat split; try assumption. lia.
Qed.

Lemma wait_for_output_accounting_on_prompt_child :
  exists n,
    reads (mkPopen (out_line Scenarios.prompt_child)
                   (out_at Scenarios.prompt_child) 2 None)
    = (reads Scenarios.prompt_child + n)%nat
    /\ asked (mkClock (reading Scenarios.ticking_clock) 3)
       = (asked Scenarios.ticking_clock + 1 + n + 0)%nat
    /\ popen_stderr (mkPopen (out_line Scenarios.prompt_child)
                             (out_at Scenarios.prompt_child) 2 None)
       = None
    /\ (1 <= n)%nat.
Proof.
  apply (wait_for_output_reads_clock_once_per_line
           2 "boot" Scenarios.ticking_clock Scenarios.prompt_child 10 false).
  reflexivity.
Defined.

(** Signals that are ignored by default do not end the wait. *)
Lemma process_wait_until_exit (rest : list Happening) :
  forall (before : list Happening) (p : Prog),
    child p = Running ->
    handlers p SIGCHLD = SIG_DFL ->
    handlers p SIGWINCH = SIG_DFL ->
    Forall (fun h => h = Delivered SIGCHLD \/ h = Delivered SIGWINCH)
           before ->
    process_wait (before ++ ChildExits :: rest) p
    = (Returns, mkProg (handlers p) Exited (done p)).
Proof.
  induction before as [| h before IH]; intros p Hchild Hchld Hwinch Hbefore;
    cbn [app process_wait]; rewrite Hchild; [reflexivity |].
  inversion Hbefore as [| h' before' Hh Hrest]; subst.
  destruct Hh as [-> | ->].
  - rewrite Hchld. now apply IH.
  - rewrite Hwinch. now apply IH.
Qed.

(** X13.  When the child exits by itself, with nothing but ignored
    signals before, [wait_for_process_or_ctrl_c] returns after printing
    its last line; it has not killed the child, and the handler stays
    registered for SIGINT and SIGTERM after the call. *)
Theorem wait_returns_after_child_exit_and_keeps_handler :
  forall (before rest : list Happening) (p : Prog),
    child p = Running ->
    handlers p SIGCHLD = SIG_DFL ->
    handlers p SIGWINCH = SIG_DFL ->
    Forall (fun h => h = Delivered SIGCHLD \/ h = Delivered SIGWINCH)
           before ->
    exists p',
      wait_for_process_or_ctrl_c (before ++ ChildExits :: rest) p
        = (Returns, p')
      /\ child p' = Exited
      /\ done p' = (done p ++ [DoInstall SIGINT; DoInstall SIGTERM; DoWait;
                               DoPrint "Process was killed."])%list
      /\ handlers p' SIGINT = signal_handler
      /\ handlers p' SIGTERM = signal_handler.
Proof.
  intros before rest p Hchild Hchld Hwinch Hbefore.
  unfold wait_for_process_or_ctrl_c.
  rewrite (process_wait_until_exit rest before); try assumption;
    try reflexivity.
  eexists. split; [reflexivity |]. cbn.
  repeat split. now rewrite <- !app_assoc.
Qed.

Lemma wait_returns_after_sigchld_and_exit :
  exists p',
    wait_for_process_or_ctrl_c
      ([Delivered SIGCHLD] ++ ChildExits :: [Delivered SIGINT])
      Scenarios.idle_program
      = (Returns, p')
    /\ child p' = Exited
    /\ done p' = (done Scenarios.idle_program
                    ++ [DoInstall SIGINT; DoInstall SIGTERM; DoWait;
                        DoPrint "Process was killed."])%list
    /\ handlers p' SIGINT = signal_handler
    /\ handlers p' SIGTERM = signal_handler.
Proof.
  apply (wait_returns_after_child_exit_and_keeps_handler
           [Delivered SIGCHLD] [Delivered SIGINT] Scenarios.idle_program).
  - reflexivity.
  - reflexivity.
  - reflexivity.
  - constructor; [now left | constructor].
Defined.

(** X14.  If the first stage of the conversion exits with a non-zero
    code, the second stage is not run and the output file is not looked
    for: after the notice, the only command run is the cache builder. *)
Theorem convert_stops_after_failed_first_stage :
  forall (subprocess_run : Subprocess) (expanduser : string -> string)
         (scripts_path raw gecko symbols : string) (w : World),
    let cmd1 :=
      binary_cache_cmd (expanduser scripts_path) raw (expanduser symbols) in
    let stage1 := subprocess_run cmd1 (run_kw shell_True) (fs w) in
    returncode (fst stage1) <> 0 ->
    convert_simpleperf_to_gecko subprocess_run expanduser scripts_path raw
      gecko symbols w
    = (Raise (CalledProcessError (returncode (fst stage1))
                                 (cp_args (fst stage1))),
       mkWorld (snd stage1)
         (trace w
            ++ [EvPrint ("Building binary cache, please wait. If no samples"
                           ++ " were recorded, the trace will be empty.");
                EvRun cmd1])).
Proof.
  intros run expanduser scripts_path raw gecko symbols w cmd1 stage1 Hfail.
  unfold convert_simpleperf_to_gecko.
  unfold bind at 1. unfold print, emit.
  unfold bind at 1. rewrite UtilsFacts.run_subprocess_cases.
  cbn [fs trace ignore_returncodes shell_True int_in existsb negb].
  rewrite andb_true_r. fold cmd1. fold stage1.
  apply Z.eqb_neq in Hfail. rewrite Hfail. cbn [negb].
  now rewrite <- app_assoc.
Qed.


Lemma convert_stops_in_broken_shell :
  convert_simpleperf_to_gecko Scenarios.broken_shell Scenarios.home_is_root
    "/scripts" "/path/file.data" "/path/file.json" "/symbols"
    Scenarios.fresh_world
  = (Raise (CalledProcessError 2
              (binary_cache_cmd "/scripts" "/path/file.data" "/symbols")),
     mkWorld Scenarios.no_files
       [EvPrint ("Building binary cache, please wait. If no samples"
                   ++ " were recorded, the trace will be empty.");
        EvRun (binary_cache_cmd "/scripts" "/path/file.data" "/symbols")]).
Proof.
  apply (convert_stops_after_failed_first_stage Scenarios.broken_shell
           Scenarios.home_is_root "/scripts" "/path/file.data"
           "/path/file.json" "/symbols" Scenarios.fresh_world).
  discriminate.
Defined.
End UtilsMoreFacts.

(** ** [src/config.py]: validation, dispatch and output *)
Module ConfigMoreFacts.
Import Py Base Config ConfigShapes.
Local Open Scope py_scope.

(** What a successful [verify_config_args] has done: for [list]
    nothing; otherwise it has set the default destination of a [pull]
    without one, [runs] and [profiler], and [verify_trigger_args] has
    accepted the result. *)
Lemma verified_shape (verify_trigger_args : Namespace -> Verified)
    (w : World) (args args' : Namespace) :
  verify_config_args verify_trigger_args w args = (Some args', None) ->
  exists sub,
    config_subcommand args = Some sub
    /\ (if String.eqb sub "list" then args' = args
        else verify_trigger_args (settled sub args) = (Some args', None))
    /\ (String.eqb sub "pull" = true ->
        forall path, file_path args = Some path ->
                     os_path_isfile w path = true).
Proof.
  intros Hok. unfold verify_config_args, verify_pull_path in Hok.
  destruct (config_subcommand args) as [sub |]; [| discriminate].
  exists sub. split; [reflexivity |]. unfold settled.
  destruct (String.eqb sub "pull") eqn:Hpull.
  - assert (Hlist : String.eqb sub "list" = false).
    { apply String.eqb_eq in Hpull. now subst sub. }
    rewrite Hlist in *. cbn [negb] in Hok.
    destruct (file_path args) as [path |] eqn:Hpath.
    + destruct (os_path_isfile w path) eqn:Hfile; cbn [negb] in Hok;
        [| discriminate].
      split; [exact Hok |].
      intros _ path' Heq. injection Heq as <-. exact Hfile.
    + split; [exact Hok |]. intros _ path' Heq. discriminate.
  - destruct (String.eqb sub "list"); cbn [negb] in Hok.
    + injection Hok as <-. split; [reflexivity | discriminate].
    + split; [exact Hok | discriminate].
Qed.

(** X15.  What holds of the arguments [verify_config_args] lets
    through, when [verify_trigger_args] leaves the sub-command, the
    destination, [runs] and [profiler] as it finds them (it may fill in
    the trigger options): there is a sub-command; for [list] nothing was
    changed; for the others [runs] is 1 and [profiler] is [perfetto]; for
    [pull] there is a destination, which is the default one or a file that
    exists. *)
Theorem verify_config_args_accepts_only_settled_arguments :
  forall (verify_trigger_args : Namespace -> Verified) (w : World)
         (args args' : Namespace),
    keeps_subcommand_and_path verify_trigger_args ->
    keeps_runs_and_profiler verify_trigger_args ->
    verify_config_args verify_trigger_args w args = (Some args', None) ->
    exists sub,
      config_subcommand args = Some sub
      /\ config_subcommand args' = Some sub
      /\ (sub = "list" -> args' = args)
      /\ (sub <> "list" ->
          runs args' = Some 1 /\ profiler args' = Some "perfetto")
      /\ (sub = "pull" ->
          exists path,
            file_path args' = Some path
            /\ (path = ("./" ++ config_name args ++ ".pbtxt")%string
                /\ file_path args = None
                \/ os_path_isfile w path = true
                   /\ file_path args = Some path)).
Proof.
  intros vta w args args' Hkeeps Hkeeps' Hok.
  destruct (verified_shape vta w args args' Hok)
    as (sub & Hsub & Hargs & Hfile).
  exists sub. split; [exact Hsub |].
  destruct (String.eqb sub "list") eqn:Hlist.
  - apply String.eqb_eq in Hlist. subst sub args'.
    split; [exact Hsub |]. split; [reflexivity |].
    split; [intros H; now elim H |]. discriminate.
  - apply String.eqb_neq in Hlist.
    destruct (Hkeeps _ _ Hargs) as [Hsub' Hpath'].
    destruct (Hkeeps' _ _ Hargs) as [Hruns' Hprofiler'].
    rewrite Hsub', Hruns', Hprofiler', Hpath'. unfold settled.
    destruct (String.eqb sub "pull") eqn:Hpull.
    + apply String.eqb_eq in Hpull. subst sub.
      destruct (file_path args) as [path |] eqn:Hpath; cbn; rewrite ?Hpath.
      * split; [exact Hsub |]. split; [discriminate |].
        split; [intros _; now split |].
        intros _. exists path. split; [reflexivity |]. right.
        split; [now apply Hfile | reflexivity].
      * split; [exact Hsub |]. split; [discriminate |].
        split; [intros _; now split |].
        intros _. eexists. split; [reflexivity |]. left. now split.
    + apply String.eqb_neq in Hpull. cbn.
      split; [exact Hsub |]. split; [intros H; contradiction |].
      split; [intros _; now split |]. intros H; contradiction.
Qed.

(** The witness: a [pull] with a trigger name and no destination, through
    a [verify_trigger_args] that fills in the trigger defaults. *)
Lemma verify_config_args_accepts_pull_default :
  verify_config_args Scenarios.filling_defaults Scenarios.fresh_world
    Scenarios.pull_with_trigger
  = (Some (mkNamespace "config" None (Some "pull") "default"
             (Some "./default.pbtxt") None None None
             (Some ["team.package.test-trigger-name"]) (Some [1000])
             (Some 10000) (Some "stop") (Some 1) (Some "perfetto") None
             false []),
     None)
  /\ exists sub,
       config_subcommand Scenarios.pull_with_trigger = Some sub
       /\ config_subcommand
            (mkNamespace "config" None (Some "pull") "default"
               (Some "./default.pbtxt") None None None
               (Some ["team.package.test-trigger-name"]) (Some [1000])
               (Some 10000) (Some "stop") (Some 1) (Some "perfetto") None
               false []) = Some sub
       /\ (sub = "list" ->
           mkNamespace "config" None (Some "pull") "default"
             (Some "./default.pbtxt") None None None
             (Some ["team.package.test-trigger-name"]) (Some [1000])
             (Some 10000) (Some "stop") (Some 1) (Some "perfetto") None
             false []
           = Scenarios.pull_with_trigger)
       /\ (sub <> "list" ->
           runs (mkNamespace "config" None (Some "pull") "default"
                   (Some "./default.pbtxt") None None None
                   (Some ["team.package.test-trigger-name"]) (Some [1000])
                   (Some 10000) (Some "stop") (Some 1) (Some "perfetto")
                   None false []) = Some 1
           /\ profiler (mkNamespace "config" None (Some "pull") "default"
                          (Some "./default.pbtxt") None None None
                          (Some ["team.package.test-trigger-name"])
                          (Some [1000]) (Some 10000) (Some "stop") (Some 1)
                          (Some "perfetto") None false [])
              = Some "perfetto")
       /\ (sub = "pull" ->
           exists path,
             file_path (mkNamespace "config" None (Some "pull") "default"
                          (Some "./default.pbtxt") None None None
                          (Some ["team.package.test-trigger-name"])
                          (Some [1000]) (Some 10000) (Some "stop") (Some 1)
                          (Some "perfetto") None false []) = Some path
             /\ (path = "./default.pbtxt"
                 /\ file_path Scenarios.pull_with_trigger = None
                 \/ os_path_isfile Scenarios.fresh_world path = true
                    /\ file_path Scenarios.pull_with_trigger = Some path)).
Proof.
  split; [reflexivity |].
  apply (verify_config_args_accepts_only_settled_arguments
           Scenarios.filling_defaults Scenarios.fresh_world
           Scenarios.pull_with_trigger).
  - intros a a' H. injection H as <-. now split.
  - intros a a' H. injection H as <-. now split.
  - reflexivity.
Defined.

(** X16.  [create_config_command] on arguments that
    [verify_config_args] has let through never raises, when
    [verify_trigger_args] leaves the sub-command and the destination as
    it finds them: it builds the command of type ["config <sub>"], which
    carries a destination exactly when the sub-command is [pull]. *)
Theorem verified_arguments_make_a_command :
  forall (verify_trigger_args : Namespace -> Verified) (w w0 : World)
         (args args' : Namespace),
    keeps_subcommand_and_path verify_trigger_args ->
    verify_config_args verify_trigger_args w args = (Some args', None) ->
    exists sub command,
      config_subcommand args = Some sub
      /\ create_config_command args' w0 = (Return command, w0)
      /\ get_type command = ("config " ++ sub)%string
      /\ (cmd_file_path command <> None <-> sub = "pull").
Proof.
  intros vta w w0 args args' Hkeeps Hok.
  destruct (verified_shape vta w args args' Hok)
    as (sub & Hsub & Hargs & Hfile).
  exists sub.
  assert (Hfields : config_subcommand args' = Some sub
                    /\ (String.eqb sub "pull" = true ->
                        file_path args' <> None)).
  { destruct (String.eqb sub "list") eqn:Hlist.
    - subst args'. split; [exact Hsub |]. intros Hpull.
      apply String.eqb_eq in Hpull. now subst sub.
    - destruct (Hkeeps _ _ Hargs) as [-> ->]. unfold settled.
      split.
      + cbn. destruct (String.eqb sub "pull"); [| exact Hsub].
        now destruct (file_path args).
      + intros ->. destruct (file_path args) eqn:Hpath; cbn;
          [now rewrite Hpath | discriminate]. }
  destruct Hfields as [Hsub' Hpath'].
  unfold create_config_command. rewrite Hsub'.
  destruct (String.eqb sub "pull") eqn:Hpull.
  - cbn [orb]. eexists. split; [exact Hsub |].
    split; [reflexivity |]. split; [reflexivity |].
    cbn [cmd_file_path]. apply String.eqb_eq in Hpull.
    split; [intros _; exact Hpull |]. intros _. now apply Hpath'.
  - cbn [orb]. apply String.eqb_neq in Hpull.
    destruct (String.eqb sub "show"); eexists;
      (split; [exact Hsub |]); (split; [reflexivity |]);
      (split; [reflexivity |]); cbn [cmd_file_path];
      (split; [intros H; now elim H | intros H; contradiction]).
Qed.

(** The witness: the same [pull]; the command carries the default
    destination and the trigger options with their defaults. *)
Lemma verified_pull_makes_a_command :
  exists sub command,
    config_subcommand Scenarios.pull_with_trigger = Some sub
    /\ create_config_command
         (mkNamespace "config" None (Some "pull") "default"
            (Some "./default.pbtxt") None None None
            (Some ["team.package.test-trigger-name"]) (Some [1000])
            (Some 10000) (Some "stop") (Some 1) (Some "perfetto") None
            false [])
         Scenarios.fresh_world
       = (Return command, Scenarios.fresh_world)
    /\ get_type command = ("config " ++ sub)%string
    /\ (cmd_file_path command <> None <-> sub = "pull").
Proof.
  apply (verified_arguments_make_a_command Scenarios.filling_defaults
           Scenarios.fresh_world Scenarios.fresh_world
           Scenarios.pull_with_trigger).
  - intros a a' H. injection H as <-. now split.
  - reflexivity.
Defined.

Lemma eqb_common_prefix (prefix a b : string) :
  String.eqb (prefix ++ a) (prefix ++ b) = String.eqb a b.
Proof.
  induction prefix as [| ch prefix IH]; cbn; [reflexivity |].
  now rewrite Ascii.eqb_refl.
Qed.

(** X17.  For a sub-command other than [list], [show] and [pull],
    [execute_config_command] raises [ValueError] and does nothing else:
    nothing is printed or run and no device method is called. *)
Theorem execute_config_command_rejects_unknown_subcommand :
  forall (subprocess_run : Utils.Subprocess) (ANDROID_SDK_VERSION_T : Z)
         (PREDEFINED_PERFETTO_CONFIGS : list (string * Builder))
         (args : Namespace) (device : Device) (w : World) (sub : string),
    config_subcommand args = Some sub ->
    sub <> "list" -> sub <> "show" -> sub <> "pull" ->
    execute_config_command subprocess_run ANDROID_SDK_VERSION_T
      PREDEFINED_PERFETTO_CONFIGS args device w
    = (Raise (ValueError "Invalid config subcommand was used."), w).
Proof.
  intros run sdk configs args device w sub Hsub Hlist Hshow Hpull.
  apply String.eqb_neq in Hlist, Hshow, Hpull.
  unfold execute_config_command, create_config_command.
  rewrite Hsub, Hpull, Hshow. cbn [orb].
  unfold bind, ret, get_type. cbn [type].
  change "config list" with ("config " ++ "list")%string.
  change "config show" with ("config " ++ "show")%string.
  change "config pull" with ("config " ++ "pull")%string.
  rewrite !eqb_common_prefix, Hlist, Hshow, Hpull. reflexivity.
Qed.

Lemma execute_config_command_rejects_get :
  execute_config_command Scenarios.working_shell 33 Scenarios.catalog
    (Scenarios.config_args "get" "default" None) Scenarios.unplugged
    Scenarios.fresh_world
  = (Raise (ValueError "Invalid config subcommand was used."),
     Scenarios.fresh_world).
Proof.
  apply (execute_config_command_rejects_unknown_subcommand
           Scenarios.working_shell 33 Scenarios.catalog
           (Scenarios.config_args "get" "default" None) Scenarios.unplugged
           Scenarios.fresh_world "get");
    [reflexivity | discriminate | discriminate | discriminate].
Defined.

(** [execute_show_or_pull_command] with the device part resolved. *)
Lemma execute_show_or_pull_after_device
    (subprocess_run : Utils.Subprocess) (ANDROID_SDK_VERSION_T : Z)
    (PREDEFINED_PERFETTO_CONFIGS : list (string * Builder))
    (command : ConfigCommand) (device : Device) (w : World) :
  let w1 := mkWorld (fs w) (trace w ++ device_calls device) in
  execute_show_or_pull_command subprocess_run ANDROID_SDK_VERSION_T
    PREDEFINED_PERFETTO_CONFIGS command device w
  = match lookup (str_of (cmd_config_name command))
                 PREDEFINED_PERFETTO_CONFIGS with
    | None => (Raise (KeyError (str_of (cmd_config_name command))), w1)
    | Some builder =>
        match builder command (sdk_seen ANDROID_SDK_VERSION_T device) with
        | (_, Some error) => (Return (Some error), w1)
        | (config, None) =>
            if String.eqb (get_type command) "config pull" then
              (Utils.run_subprocess subprocess_run
                 ("cat > " ++ str_of (cmd_file_path command) ++ " "
                    ++ str_of config) Utils.shell_True ;;;
               ret None) w1
            else
              match config with
              | Some text =>
                  (Return None,
                   mkWorld (fs w)
                     (trace w1
                        ++ [EvPrint
                              (join newline
                                 (slice_2_minus2
                                    (split_lines (strip text))))]))
              | None => (Raise (AttributeError "strip"), w1)
              end
        end
    end.
Proof.
  intros w1. subst w1.
  unfold execute_show_or_pull_command, check_device_connection,
    root_device, get_android_sdk_version, sdk_seen, device_calls.
  unfold bind at 1. unfold bind at 1. unfold emit at 1. unfold ret at 1.
  destruct (connection_error device) as [refused |].
  - unfold bind at 1. unfold ret at 1. cbn [fs trace].
    destruct (lookup (str_of (cmd_config_name command))
                     PREDEFINED_PERFETTO_CONFIGS) as [builder |];
      [| reflexivity].
    destruct (builder command ANDROID_SDK_VERSION_T)
      as [config [error |]]; [reflexivity |].
    destruct (String.eqb (get_type command) "config pull"); [reflexivity |].
    destruct config; reflexivity.
  - unfold bind at 1. unfold bind at 1. unfold bind at 1.
    unfold emit, ret. cbn [fs trace]. rewrite <- !app_assoc. cbn [app].
    destruct (lookup (str_of (cmd_config_name command))
                     PREDEFINED_PERFETTO_CONFIGS) as [builder |];
      [| reflexivity].
    destruct (builder command (sdk_version device))
      as [config [error |]]; [reflexivity |].
    destruct (String.eqb (get_type command) "config pull"); [reflexivity |].
    destruct config; reflexivity.
Qed.

(** X18.  With a connected device, [execute_show_or_pull_command] calls
    [check_device_connection], [root_device] and
    [get_android_sdk_version], in this order and nothing else on the
    device, and the builder gets the version the device reports, not the
    default one. *)
Theorem show_or_pull_with_device_uses_device_sdk :
  forall (subprocess_run : Utils.Subprocess) (ANDROID_SDK_VERSION_T : Z)
         (PREDEFINED_PERFETTO_CONFIGS : list (string * Builder))
         (command : ConfigCommand) (device : Device) (w : World)
         (builder : Builder),
    connection_error device = None ->
    lookup (str_of (cmd_config_name command)) PREDEFINED_PERFETTO_CONFIGS
      = Some builder ->
    let w1 :=
      mkWorld (fs w)
        (trace w ++ [EvDevice "check_device_connection";
                     EvDevice "root_device";
                     EvDevice "get_android_sdk_version"]) in
    execute_show_or_pull_command subprocess_run ANDROID_SDK_VERSION_T
      PREDEFINED_PERFETTO_CONFIGS command device w
    = match builder command (sdk_version device) with
      | (_, Some error) => (Return (Some error), w1)
      | (config, None) =>
          if String.eqb (get_type command) "config pull" then
            (Utils.run_subprocess subprocess_run
               ("cat > " ++ str_of (cmd_file_path command) ++ " "
                  ++ str_of config) Utils.shell_True ;;;
             ret None) w1
          else
            match config with
            | Some text =>
                (Return None,
                 mkWorld (fs w)
                   (trace w1
                      ++ [EvPrint
                            (join newline
                               (slice_2_minus2 (split_lines (strip text))))]))
            | None => (Raise (AttributeError "strip"), w1)
            end
      end.
Proof.
  intros run sdk configs command device w builder Hconn Hlookup w1.
  rewrite execute_show_or_pull_after_device.
  unfold sdk_seen, device_calls. rewrite Hconn, Hlookup. reflexivity.
Qed.

(** The witness: the builder sees version 35 of the device, not 33. *)
Lemma show_with_device_sees_device_sdk :
  execute_show_or_pull_command Scenarios.working_shell 33
    Scenarios.sdk_catalog
    (mkConfigCommand "config show" (Some "default") None None None None None
                     None None None)
    Scenarios.plugged Scenarios.fresh_world
  = (Return None,
     mkWorld Scenarios.no_files
       [EvDevice "check_device_connection"; EvDevice "root_device";
        EvDevice "get_android_sdk_version"; EvPrint "new_sdk: true"]).
Proof.
  rewrite (show_or_pull_with_device_uses_device_sdk
             Scenarios.working_shell 33 Scenarios.sdk_catalog _
             Scenarios.plugged Scenarios.fresh_world Scenarios.sdk_builder);
    reflexivity.
Defined.

(** X19.  For a config name that is not a key of
    [PREDEFINED_PERFETTO_CONFIGS], [execute_show_or_pull_command] raises
    [KeyError] after the device calls: nothing is printed and no command
    is run. *)
Theorem show_or_pull_unknown_config_raises_key_error :
  forall (subprocess_run : Utils.Subprocess) (ANDROID_SDK_VERSION_T : Z)
         (PREDEFINED_PERFETTO_CONFIGS : list (string * Builder))
         (command : ConfigCommand) (device : Device) (w : World),
    lookup (str_of (cmd_config_name command)) PREDEFINED_PERFETTO_CONFIGS
      = None ->
    execute_show_or_pull_command subprocess_run ANDROID_SDK_VERSION_T
      PREDEFINED_PERFETTO_CONFIGS command device w
    = (Raise (KeyError (str_of (cmd_config_name command))),
       mkWorld (fs w) (trace w ++ device_calls device))
    /\ filter Scenarios.output_event (device_calls device) = [].
Proof.
  intros run sdk configs command device w Hlookup.
  rewrite execute_show_or_pull_after_device, Hlookup.
  split; [reflexivity |]. unfold device_calls.
  now destruct (connection_error device).
Qed.

Lemma show_unknown_config_raises_key_error :
  execute_show_or_pull_command Scenarios.working_shell 33 Scenarios.catalog
    (mkConfigCommand "config show" (Some "fake-config") None None None None
                     None None None None)
    Scenarios.plugged Scenarios.fresh_world
  = (Raise (KeyError "fake-config"),
     mkWorld (fs Scenarios.fresh_world)
       (trace Scenarios.fresh_world ++ device_calls Scenarios.plugged))
  /\ filter Scenarios.output_event (device_calls Scenarios.plugged) = [].
Proof.
  apply (show_or_pull_unknown_config_raises_key_error
           Scenarios.working_shell 33 Scenarios.catalog
           (mkConfigCommand "config show" (Some "fake-config") None None
                            None None None None None None)
           Scenarios.plugged Scenarios.fresh_world).
  reflexivity.
Defined.

(** X24.  [config pull] writes the config with one shell command,
    [cat > <file_path> <config>]: if the command exits with 0 the call
    returns [None], otherwise it raises [CalledProcessError] instead of
    returning a [ValidationError]. *)
Theorem pull_writes_config_with_one_shell_command :
  forall (subprocess_run : Utils.Subprocess) (ANDROID_SDK_VERSION_T : Z)
         (PREDEFINED_PERFETTO_CONFIGS : list (string * Builder))
         (command : ConfigCommand) (device : Device) (w : World)
         (builder : Builder) (config : option string),
    lookup (str_of (cmd_config_name command)) PREDEFINED_PERFETTO_CONFIGS
      = Some builder ->
    String.eqb (get_type command) "config pull" = true ->
    builder command (sdk_seen ANDROID_SDK_VERSION_T device)
      = (config, None) ->
    let cmd :=
      ("cat > " ++ str_of (cmd_file_path command) ++ " " ++ str_of config)%string
    in
    let child := subprocess_run cmd (Utils.run_kw Utils.shell_True) (fs w) in
    execute_show_or_pull_command subprocess_run ANDROID_SDK_VERSION_T
      PREDEFINED_PERFETTO_CONFIGS command device w
    = (if Utils.returncode (fst child) =? 0 then Return None
       else Raise (CalledProcessError (Utils.returncode (fst child))
                                      (Utils.cp_args (fst child))),
       mkWorld (snd child)
               (trace w ++ device_calls device ++ [EvRun cmd])).
Proof.
  intros run sdk configs command device w builder config Hlookup Hpull
         Hbuilt cmd child.
  rewrite execute_show_or_pull_after_device, Hlookup, Hbuilt, Hpull.
  unfold bind. rewrite UtilsFacts.run_subprocess_cases.
  cbn [fs trace Utils.ignore_returncodes Utils.shell_True int_in existsb
       negb Utils.capture_output].
  rewrite andb_true_r. fold cmd. fold child.
  rewrite <- app_assoc.
  now destruct (Utils.returncode (fst child) =? 0).
Qed.

(** The witness: in a shell where every command exits with 2, the pull
    raises. *)
Lemma pull_in_broken_shell_raises :
  execute_show_or_pull_command Scenarios.broken_shell 33 Scenarios.catalog
    (mkConfigCommand "config pull" (Some "default") (Some "./default.pbtxt")
                     None None None None None None None)
    Scenarios.unplugged Scenarios.fresh_world
  = (Raise (CalledProcessError 2
              ("cat > ./default.pbtxt <<EOF" ++ newline ++ newline
                 ++ "duration_ms: 10000" ++ newline ++ newline ++ "EOF")),
     mkWorld Scenarios.no_files
       [EvDevice "check_device_connection";
        EvRun ("cat > ./default.pbtxt <<EOF" ++ newline ++ newline
                 ++ "duration_ms: 10000" ++ newline ++ newline ++ "EOF")]).
Proof.
  rewrite (pull_writes_config_with_one_shell_command Scenarios.broken_shell
             33 Scenarios.catalog _ Scenarios.unplugged
             Scenarios.fresh_world Scenarios.heredoc_builder
             (Some ("<<EOF" ++ newline ++ newline ++ "duration_ms: 10000"
                      ++ newline ++ newline ++ "EOF")%string));
    reflexivity.
Defined.

(** *** The text [config show] prints *)

Lemma one_line_cons (ch : ascii) (s : string) :
  one_line (String ch s) -> Ascii.eqb ch "010" = false /\ one_line s.
Proof.
  unfold one_line, UtilsCli.chars. cbn. intros H. split.
  - apply Ascii.eqb_neq. intros ->. apply H. now left.
  - intros Hin. apply H. now right.
Qed.

Lemma split_lines_one_line (l : string) :
  one_line l -> split_lines l = [l].
Proof.
  induction l as [| ch l IH]; intros Hl; [reflexivity |].
  apply one_line_cons in Hl. destruct Hl as [Hch Hl].
  cbn [split_lines]. now rewrite Hch, (IH Hl).
Qed.

Lemma split_lines_first (l rest : string) :
  one_line l ->
  split_lines (l ++ newline ++ rest) = l :: split_lines rest.
Proof.
  induction l as [| ch l IH]; intros Hl.
  - reflexivity.
  - apply one_line_cons in Hl. destruct Hl as [Hch Hl].
    cbn [append split_lines]. rewrite Hch.
    change (l ++ String "010" rest)%string with (l ++ newline ++ rest)%string.
    now rewrite (IH Hl).
Qed.

Lemma join_cons (sep p q : string) (rest : list string) :
  join sep (p :: q :: rest) = (p ++ sep ++ join sep (q :: rest))%string.
Proof. reflexivity. Qed.

(** Splitting at the line breaks undoes joining with line breaks. *)
Lemma split_lines_join (lines : list string) :
  lines <> [] ->
  Forall one_line lines ->
  split_lines (join newline lines) = lines.
Proof.
  induction lines as [| l lines IH]; intros Hne Hlines; [congruence |].
  inversion Hlines as [| x xs Hl Hrest]; subst.
  destruct lines as [| q lines].
  - now apply split_lines_one_line.
  - rewrite join_cons, split_lines_first by exact Hl.
    f_equal. apply IH; [discriminate | exact Hrest].
Qed.

Lemma slice_drops_two_on_each_side {A : Type} (a b c d : A)
    (body : list A) :
  slice_2_minus2 (a :: b :: body ++ [c; d]) = body.
Proof.
  unfold slice_2_minus2. cbn [List.length].
  rewrite length_app. cbn [List.length].
  replace (S (S (List.length body + 2)) - 2)%nat
    with (S (S (List.length body))) by lia.
  cbn [firstn skipn].
  rewrite firstn_app, Nat.sub_diag, firstn_all. cbn [firstn].
  now rewrite app_nil_r.
Qed.

(** *** [str.strip()] *)

Ltac bytes :=
  unfold lead, trail, two_byte_space, three_byte_space, one_byte_space, byte_in
    in *;
  repeat match goal with
         | H : _ && _ = true |- _ => apply andb_true_iff in H; destruct H
         | H : _ || _ = true |- _ => apply orb_true_iff in H; destruct H
         | H : (_ <=? _)%nat = true |- _ => apply Nat.leb_le in H
         end;
  lia.

Lemma two_byte_space_trail (b0 b1 : ascii) :
  two_byte_space b0 b1 = true -> trail b1.
Proof. intros H. bytes. Qed.

Lemma three_byte_space_trail (b0 b1 b2 : ascii) :
  three_byte_space b0 b1 b2 = true -> trail b1 /\ trail b2.
Proof. intros H. split; bytes. Qed.

Lemma lead_not_trail (b : ascii) : lead b -> trail b -> False.
Proof. intros Hlead Htrail. bytes. Qed.

(** White space starts with the first byte of a character. *)
Lemma blank_head (b : ascii) (r : string) :
  blank (String b r) = true -> lead b.
Proof.
  unfold blank. cbn [lstrip].
  destruct (one_byte_space b) eqn:H1; [intros _; bytes |].
  destruct r as [| b1 r1]; [discriminate |].
  destruct (two_byte_space b b1) eqn:H2; [intros _; bytes |].
  destruct r1 as [| b2 r2]; [discriminate |].
  destruct (three_byte_space b b1 b2) eqn:H3; [intros _; bytes |].
  discriminate.
Qed.

Lemma length_lstrip (n : nat) :
  forall s, (String.length s <= n)%nat ->
            (String.length (lstrip s) <= String.length s)%nat.
Proof.
  induction n as [| n IH]; intros [| b0 rest] Hlen; cbn [lstrip];
    try (cbn; lia); [cbn in Hlen; lia |].
  cbn [String.length] in Hlen.
  destruct (one_byte_space b0).
  { specialize (IH rest). cbn [String.length]. lia. }
  destruct rest as [| b1 rest1]; [cbn; lia |].
  cbn [String.length] in Hlen.
  destruct (two_byte_space b0 b1).
  { specialize (IH rest1). cbn [String.length]. lia. }
  destruct rest1 as [| b2 rest2]; [cbn; lia |].
  cbn [String.length] in Hlen.
  destruct (three_byte_space b0 b1 b2); [| cbn; lia].
  specialize (IH rest2). cbn [String.length]. lia.
Qed.

(** White space in front is stripped, whatever comes behind. *)
Lemma lstrip_blank_app (s : string) (n : nat) :
  forall pre, (String.length pre <= n)%nat ->
              blank pre = true ->
              lstrip (pre ++ s) = lstrip s.
Proof.
  induction n as [| n IH]; intros [| b0 rest] Hlen Hblank;
    try reflexivity; [cbn in Hlen; lia |].
  unfold blank in Hblank. cbn [lstrip] in Hblank.
  cbn [String.length] in Hlen. cbn [append lstrip].
  destruct (one_byte_space b0).
  { apply IH; [lia | exact Hblank]. }
  destruct rest as [| b1 rest1]; [discriminate |].
  cbn [String.length] in Hlen. cbn [append].
  destruct (two_byte_space b0 b1).
  { apply IH; [lia | exact Hblank]. }
  destruct rest1 as [| b2 rest2]; [discriminate |].
  cbn [String.length] in Hlen. cbn [append].
  destruct (three_byte_space b0 b1 b2); [| discriminate].
  apply IH; [lia | exact Hblank].
Qed.

(** If a text followed by white space is white space, so is the text: no
    white-space character begins in it and ends in what follows. *)
Lemma blank_app_inv (post : string) (n : nat) :
  blank post = true ->
  forall x, (String.length x <= n)%nat ->
            blank (x ++ post) = true ->
            blank x = true.
Proof.
  intros Hpost.
  assert (Hhead : forall b r, post = String b r -> lead b).
  { intros b r ->. now apply blank_head with r. }
  induction n as [| n IH]; intros [| b0 rest] Hlen Hblank;
    try reflexivity; [cbn in Hlen; lia |].
  unfold blank in *. cbn [append lstrip] in Hblank. cbn [lstrip].
  cbn [String.length] in Hlen.
  destruct (one_byte_space b0).
  { apply IH; [lia | exact Hblank]. }
  destruct rest as [| b1 rest1].
  { exfalso. cbn [append] in Hblank.
    destruct post as [| c1 r1]; [discriminate |].
    pose proof (Hhead c1 r1 eq_refl) as Hlead.
    destruct (two_byte_space b0 c1) eqn:H2.
    - apply two_byte_space_trail in H2. now apply (lead_not_trail c1).
    - destruct r1 as [| c2 r2]; [discriminate |].
      destruct (three_byte_space b0 c1 c2) eqn:H3; [| discriminate].
      apply three_byte_space_trail in H3.
      now apply (lead_not_trail c1). }
  cbn [String.length] in Hlen. cbn [append] in Hblank.
  destruct (two_byte_space b0 b1).
  { apply IH; [lia | exact Hblank]. }
  destruct rest1 as [| b2 rest2].
  { exfalso. cbn [append] in Hblank.
    destruct post as [| c2 r2]; [discriminate |].
    pose proof (Hhead c2 r2 eq_refl) as Hlead.
    destruct (three_byte_space b0 b1 c2) eqn:H3; [| discriminate].
    apply three_byte_space_trail in H3.
    now apply (lead_not_trail c2). }
  cbn [String.length] in Hlen. cbn [append] in Hblank.
  destruct (three_byte_space b0 b1 b2); [| discriminate].
  apply IH; [lia | exact Hblank].
Qed.

(** A text that does not start with white space still does not when
    white space is put behind it. *)
Lemma lstrip_app_blank (core post : string) :
  lstrip core = core ->
  core <> EmptyString ->
  blank post = true ->
  lstrip (core ++ post) = (core ++ post)%string.
Proof.
  intros Hcore Hne Hpost.
  assert (Hhead : forall b r, post = String b r -> lead b).
  { intros b r ->. now apply blank_head with r. }
  assert (Hshort : forall s b r,
             (String.length s <= String.length r)%nat ->
             lstrip s <> String b r).
  { intros s b r Hlen Heq.
    pose proof (length_lstrip (String.length s) s (Nat.le_refl _)) as H.
    rewrite Heq in H. cbn [String.length] in H. lia. }
  destruct core as [| b0 rest]; [congruence |].
  cbn [lstrip] in Hcore. cbn [append lstrip].
  destruct (one_byte_space b0).
  { exfalso. now apply (Hshort rest b0 rest). }
  destruct rest as [| b1 rest1].
  { cbn [append]. destruct post as [| c1 r1]; [reflexivity |].
    pose proof (Hhead c1 r1 eq_refl) as Hlead.
    destruct (two_byte_space b0 c1) eqn:H2.
    - apply two_byte_space_trail in H2.
      now elim (lead_not_trail c1).
    - destruct r1 as [| c2 r2]; [reflexivity |].
      destruct (three_byte_space b0 c1 c2) eqn:H3; [| reflexivity].
      apply three_byte_space_trail in H3.
      now elim (lead_not_trail c1). }
  cbn [append].
  destruct (two_byte_space b0 b1).
  { exfalso. apply (Hshort rest1 b0 (String b1 rest1)); [cbn; lia |].
    exact Hcore. }
  destruct rest1 as [| b2 rest2].
  { cbn [append]. destruct post as [| c2 r2]; [reflexivity |].
    pose proof (Hhead c2 r2 eq_refl) as Hlead.
    destruct (three_byte_space b0 b1 c2) eqn:H3; [| reflexivity].
    apply three_byte_space_trail in H3.
    now elim (lead_not_trail c2). }
  cbn [append].
  destruct (three_byte_space b0 b1 b2); [| reflexivity].
  exfalso.
  apply (Hshort rest2 b0 (String b1 (String b2 rest2))); [cbn; lia |].
  exact Hcore.
Qed.

Lemma rstrip_blank (s : string) : blank s = true -> rstrip s = EmptyString.
Proof. destruct s; [reflexivity |]. cbn [rstrip]. now intros ->. Qed.

(** White space behind a text that does not end with white space is
    stripped, and nothing else. *)
Lemma rstrip_app_blank (post : string) :
  blank post = true ->
  forall core, rstrip core = core -> rstrip (core ++ post) = core.
Proof.
  intros Hpost. induction core as [| c core IH]; intros Hcore.
  - now apply rstrip_blank.
  - cbn [rstrip] in Hcore. cbn [append rstrip].
    destruct (blank (String c core)) eqn:Hblank; [discriminate |].
    injection Hcore as Hcore.
    destruct (blank (String c (core ++ post))) eqn:Hall.
    + pose proof (blank_app_inv post (String.length (String c core)) Hpost
                    (String c core) (Nat.le_refl _) Hall).
      congruence.
    + now rewrite (IH Hcore).
Qed.

(** [strip] removes the white space around a text that neither starts
    nor ends with white space. *)
Lemma strip_framed (pre core post : string) :
  blank pre = true ->
  blank post = true ->
  trimmed core ->
  strip (pre ++ core ++ post) = core.
Proof.
  intros Hpre Hpost [Hleft Hright]. unfold strip.
  rewrite (lstrip_blank_app _ (String.length pre) pre (Nat.le_refl _) Hpre).
  destruct core as [| c core].
  - cbn [append]. unfold blank in Hpost.
    destruct (lstrip post); [reflexivity | discriminate].
  - rewrite lstrip_app_blank by (assumption || discriminate).
    now apply rstrip_app_blank.
Qed.

(** X20.  [config show] prints the config without its frame: when the
    text the builder returns is, between white space of any kind that
    [str.strip()] removes, two opening lines, a body and two closing
    lines, what is printed is the body, line for line. *)
Theorem show_prints_config_body :
  forall (subprocess_run : Utils.Subprocess) (ANDROID_SDK_VERSION_T : Z)
         (PREDEFINED_PERFETTO_CONFIGS : list (string * Builder))
         (command : ConfigCommand) (device : Device) (w : World)
         (builder : Builder) (pre post a b c d : string)
         (body : list string),
    lookup (str_of (cmd_config_name command)) PREDEFINED_PERFETTO_CONFIGS
      = Some builder ->
    String.eqb (get_type command) "config pull" = false ->
    builder command (sdk_seen ANDROID_SDK_VERSION_T device)
      = (Some (pre ++ join newline (a :: b :: body ++ [c; d]) ++ post), None) ->
    blank pre = true ->
    blank post = true ->
    trimmed (join newline (a :: b :: body ++ [c; d])) ->
    Forall one_line (a :: b :: body ++ [c; d]) ->
    execute_show_or_pull_command subprocess_run ANDROID_SDK_VERSION_T
      PREDEFINED_PERFETTO_CONFIGS command device w
    = (Return None,
       mkWorld (fs w)
         (trace w ++ device_calls device
            ++ [EvPrint (join newline body)])).
Proof.
  intros run sdk configs command device w builder pre post a b c d body
         Hlookup Hshow Hbuilt Hpre Hpost Htrimmed Hlines.
  rewrite execute_show_or_pull_after_device, Hlookup, Hbuilt, Hshow.
  cbn [fs trace]. rewrite (strip_framed _ _ _ Hpre Hpost Htrimmed).
  rewrite split_lines_join by (assumption || discriminate).
  rewrite slice_drops_two_on_each_side. now rewrite <- app_assoc.
Qed.

(** The witness: a here-document whose closing marker is followed by a
    line break and a no-break space (U+00A0), both of which are
    stripped. *)
Lemma show_prints_body_of_heredoc :
  execute_show_or_pull_command Scenarios.working_shell 33
    Scenarios.padded_catalog
    (mkConfigCommand "config show" (Some "default") None None None None None
                     None None None)
    Scenarios.unplugged Scenarios.fresh_world
  = (Return None,
     mkWorld (fs Scenarios.fresh_world)
       (trace Scenarios.fresh_world ++ device_calls Scenarios.unplugged
          ++ [EvPrint (join newline ["body: 1"])])).
Proof.
  apply (show_prints_config_body Scenarios.working_shell 33
           Scenarios.padded_catalog _ Scenarios.unplugged
           Scenarios.fresh_world Scenarios.padded_builder
           "" (newline ++ String "194" (String "160" EmptyString))
           "<<EOF" "" "" "EOF" ["body: 1"]).
  - reflexivity.
  - reflexivity.
  - reflexivity.
  - reflexivity.
  - reflexivity.
  - split; reflexivity.
  - repeat constructor; unfold one_line; cbn; intuition discriminate.
Defined.

(** White space is stripped whatever its width in bytes; a letter whose
    encoding ends in the byte 160 is not. *)
Example strip_no_break_space :
  strip (String "194" (String "160" ("EOF" ++ newline
           ++ String "226" (String "128" (String "168" EmptyString)))))
  = "EOF"
  /\ strip (String "195" (String "160" " ")) = String "195" (String "160" "").
Proof. split; reflexivity. Qed.

End ConfigMoreFacts.

(** ** [src/torq.py]: [run] past validation *)
Module TorqMoreFacts.
Import Py Base Torq.
Local Open Scope py_scope.

(** X21.  For a sub-command other than [profiler], [config], [open] and
    [vm], [run] raises [ValueError] before anything is printed and before
    a device is created, and so does [get_command]. *)
Theorem run_rejects_unknown_subcommand :
  forall (verify_trigger_args verify_profiler_args verify_open_args
            : Namespace -> Verified)
         (VmCommand : Type) (create_vm_command : Namespace -> VmCommand)
         (execute : Command VmCommand -> Device ->
                    M (option ValidationError))
         (AdbDevice : option string -> Device)
         (parsed : Namespace) (w : World),
    subcommands parsed <> "profiler" ->
    subcommands parsed <> "config" ->
    subcommands parsed <> "open" ->
    subcommands parsed <> "vm" ->
    run verify_trigger_args verify_profiler_args verify_open_args VmCommand
        create_vm_command execute AdbDevice parsed w
    = (Raise (ValueError "Invalid command type used"), w)
    /\ get_command VmCommand create_vm_command parsed w
       = (Raise (ValueError "Invalid command type used"), w).
Proof.
  intros vta vpa voa Vm cvm execute adb parsed w Hprofiler Hconfig Hopen
         Hvm.
  apply String.eqb_neq in Hprofiler, Hconfig, Hopen, Hvm.
  split.
  - unfold run. unfold bind at 1. unfold verify_args.
    now rewrite Hprofiler, Hconfig, Hopen, Hvm.
  - unfold get_command, raise.
    now rewrite Hprofiler, Hconfig, Hopen, Hvm.
Qed.

(** X22.  Once validation has passed, [run] creates the device exactly
    once, with the first serial of the command line or [None], and then
    executes the command on it: an error the command returns is printed,
    and an exception it raises is not caught. *)
Theorem run_creates_device_then_executes :
  forall (verify_trigger_args verify_profiler_args verify_open_args
            : Namespace -> Verified)
         (VmCommand : Type) (create_vm_command : Namespace -> VmCommand)
         (execute : Command VmCommand -> Device ->
                    M (option ValidationError))
         (AdbDevice : option string -> Device)
         (parsed args : Namespace) (w : World)
         (command : Command VmCommand),
    verify_args verify_trigger_args verify_profiler_args verify_open_args
      parsed w = (Return (Some args, None), w) ->
    get_command VmCommand create_vm_command args w = (Return command, w) ->
    let serial := match serial args with
                  | Some (s :: _) => Some s
                  | _ => None
                  end in
    let w1 := mkWorld (fs w) (trace w ++ [EvDevice "AdbDevice"]) in
    run verify_trigger_args verify_profiler_args verify_open_args VmCommand
        create_vm_command execute AdbDevice parsed w
    = match execute command (AdbDevice serial) w1 with
      | (Return (Some error), w2) =>
          (Return tt, mkWorld (fs w2) (trace w2 ++ error_lines error))
      | (Return None, w2) => (Return tt, w2)
      | (Raise e, w2) => (Raise e, w2)
      end.
Proof.
  intros vta vpa voa Vm cvm execute adb parsed args w command Hverify
         Hcommand serial w1.
  unfold run.
  unfold bind at 1. rewrite Hverify.
  unfold bind at 1. rewrite Hcommand.
  unfold bind at 1. unfold emit at 1. fold w1. fold serial.
  unfold bind at 1.
  destruct (execute command (adb serial) w1) as [[[error |] | e] w2];
    [apply TorqFacts.print_error_trace | reflexivity | reflexivity].
Qed.

Lemma run_rejects_trigger_subcommand :
  run Profiler.verify_trigger_args Scenarios.accept_all Scenarios.accept_all
      unit (fun _ => tt) (fun _ _ => ret None)
      (fun _ => Scenarios.unplugged) Scenarios.trigger_args
      Scenarios.fresh_world
  = (Raise (ValueError "Invalid command type used"), Scenarios.fresh_world)
  /\ get_command unit (fun _ => tt) Scenarios.trigger_args
       Scenarios.fresh_world
     = (Raise (ValueError "Invalid command type used"),
        Scenarios.fresh_world).
Proof.
  apply (run_rejects_unknown_subcommand Profiler.verify_trigger_args
           Scenarios.accept_all Scenarios.accept_all unit (fun _ => tt)
           (fun _ _ => ret None) (fun _ => Scenarios.unplugged)
           Scenarios.trigger_args Scenarios.fresh_world);
    discriminate.
Defined.

(** The witness: a [vm] command whose execution raises; the exception
    comes out of [run], after the device has been created with the serial
    [0.0.0.0]. *)
Lemma run_lets_exception_through :
  run Profiler.verify_trigger_args Scenarios.accept_all Scenarios.accept_all
      unit (fun _ => tt)
      (fun _ device =>
         emit (EvDevice (Config.str_of (device_serial device))) ;;;
         raise (Exception "Gecko file was not created."))
      (fun serial => mkDevice serial None 35) Scenarios.vm_args
      Scenarios.fresh_world
  = (Raise (Exception "Gecko file was not created."),
     mkWorld Scenarios.no_files [EvDevice "AdbDevice"; EvDevice "0.0.0.0"]).
Proof.
  rewrite (run_creates_device_then_executes Profiler.verify_trigger_args
             Scenarios.accept_all Scenarios.accept_all unit (fun _ => tt)
             (fun _ device =>
                emit (EvDevice (Config.str_of (device_serial device))) ;;;
                raise (Exception "Gecko file was not created."))
             (fun serial => mkDevice serial None 35) Scenarios.vm_args
             Scenarios.vm_args Scenarios.fresh_world (Vm unit tt));
    reflexivity.
Defined.
End TorqMoreFacts.
